(** * FFSVersionManager: file-history resolution, sync-pair registry and
      remarks store

    A shallow embedding of the core of the repository
    ([src/core/config_parser.py], [src/core/ffs_config_parser.py],
    [src/core/sync_config_model.py], [src/core/path_manager.py],
    [src/core/file_history_model.py], [src/core/file_remarks_model.py]) and
    the properties of it that the specification states.

    Conventions of the embedding.
    - Python [str] is [string] (a byte string; non-ASCII text is its UTF-8
      encoding, and where the code works character by character the bytes
      are read as characters again, [Utf8.chars]).
    - [pathlib.Path] is modelled by its POSIX flavour: the drive is always
      empty, the separator is [/] and comparison is case sensitive.
    - The file system is an explicit snapshot, a record of the probes the
      code performs ([os.stat], [os.scandir]).
    - A Python exception is an explicit alternative of the result; every
      [try/except] of the source is a function that handles it.
    - Module-level and instance state (the history cache, the registry, the
      remarks table) is passed explicitly. *)

From stdpp Require Import gmap strings list sorting.
From Stdlib Require Import ZArith Ascii.

#[local] Set Warnings "-register-all".
#[local] Open Scope Z_scope.
#[local] Open Scope stdpp_scope.

(** ** Python strings *)

Module PyStr.

(** [s.startswith(pre)] *)
Definition startswith (s pre : string) : bool := String.prefix pre s.

(** [s.endswith(suf)] *)
Definition endswith (s suf : string) : bool :=
  String.prefix (String.rev suf) (String.rev s).

(** [s.split(sep)] for a one-character separator: never the empty list. *)
Fixpoint split (sep : ascii) (s : string) : list string :=
  match s with
  | EmptyString => [EmptyString]
  | String c s' =>
      if Ascii.eqb c sep then EmptyString :: split sep s'
      else match split sep s' with
           | [] => [String c EmptyString]
           | w :: ws => String c w :: ws
           end
  end.

(** [sep.join(l)] *)
Fixpoint join (sep : string) (l : list string) : string :=
  match l with
  | [] => ""
  | [x] => x
  | x :: l' => x +:+ sep +:+ join sep l'
  end.

(** [s.lstrip(chars)] and [s.rstrip(chars)], the character set given as a
    predicate. *)
Fixpoint lstrip (p : ascii → bool) (s : string) : string :=
  match s with
  | EmptyString => EmptyString
  | String c s' => if p c then lstrip p s' else s
  end.

Definition rstrip (p : ascii → bool) (s : string) : string :=
  String.rev (lstrip p (String.rev s)).

(** The string of the given bytes. *)
Definition bytes (l : list nat) : string :=
  foldr (λ n s, String (ascii_of_nat n) s) "" l.

(** The characters [str.strip()] removes, those [str.isspace] accepts, in
    UTF-8: U+0009..U+000D, U+001C..U+0020, U+0085, U+00A0, U+1680,
    U+2000..U+200A, U+2028, U+2029, U+202F, U+205F and U+3000. *)
Definition whitespace : list string :=
  ((λ n, bytes [n]) <$> [9; 10; 11; 12; 13; 28; 29; 30; 31; 32]%nat)
  ++ [bytes [194; 133]; bytes [194; 160]; bytes [225; 154; 128]]%nat
  ++ ((λ n, bytes [226; 128; n]) <$> seq 128 11)%nat
  ++ [bytes [226; 128; 168]; bytes [226; 128; 169]; bytes [226; 128; 175];
      bytes [226; 129; 159]; bytes [227; 128; 128]]%nat.

(** [s] without the prefix [pre], when it starts with it. *)
Fixpoint drop_prefix (pre s : string) : option string :=
  match pre with
  | EmptyString => Some s
  | String a pre' =>
      match s with
      | EmptyString => None
      | String b s' => if Ascii.eqb a b then drop_prefix pre' s' else None
      end
  end.

(** [s] without one leading member of [set]. *)
Fixpoint drop_one (set : list string) (s : string) : option string :=
  match set with
  | [] => None
  | w :: set' =>
      match drop_prefix w s with
      | Some rest => Some rest
      | None => drop_one set' s
      end
  end.

Fixpoint lstrip_set (fuel : nat) (set : list string) (s : string) : string :=
  match fuel with
  | O => s
  | S fuel' =>
      match drop_one set s with
      | Some rest => lstrip_set fuel' set rest
      | None => s
      end
  end.

(** [s.lstrip()] and [s.rstrip()] *)
Definition lstrip_space (s : string) : string :=
  lstrip_set (String.length s) whitespace s.

Definition rstrip_space (s : string) : string :=
  String.rev (lstrip_set (String.length s) (String.rev <$> whitespace)
                         (String.rev s)).

(** [s.strip()] *)
Definition strip (s : string) : string := rstrip_space (lstrip_space s).

(** [sub in s] *)
Fixpoint contains (sub s : string) : bool :=
  String.prefix sub s ||
  match s with
  | EmptyString => false
  | String _ s' => contains sub s'
  end.

(** [s.lower()] on the letters A..Z; every other byte is left as it is.
    The code compares the result with [".ffs_batch"] only, whose letters
    are the lower case of no character outside A..Z. *)
Definition lower_ascii (c : ascii) : ascii :=
  let n := nat_of_ascii c in
  if ((65 <=? n) && (n <=? 90))%nat then ascii_of_nat (n + 32) else c.

Fixpoint lower (s : string) : string :=
  match s with
  | EmptyString => EmptyString
  | String c s' => String (lower_ascii c) (lower s')
  end.

(** Truthiness of a string: [if s:] *)
Definition truthy (s : string) : bool := negb (bool_decide (s = "")).

End PyStr.

(** ** [pathlib]: pure paths, POSIX flavour *)

Module PurePath.

(** A parsed path: the root ([""], ["/"] or ["//"]) and the names below it.
    (CPython keeps the anchor as the first element of [_parts]; here
    [parts] holds the names only.) *)
Record t := mk { root : string; parts : list string }.

#[global] Instance t_eq_dec : EqDecision t.
Proof. solve_decision. Defined.

Definition is_sep (c : ascii) : bool := Ascii.eqb c "/"%char.

(** [splitroot]: exactly two leading slashes give the root ["//"], one or
    three and more give ["/"]. *)
Definition splitroot (part : string) : string * string :=
  let stripped := PyStr.lstrip is_sep part in
  let n := (String.length part - String.length stripped)%nat in
  if (n =? 0)%nat then ("", part)
  else if (n =? 2)%nat then ("//", stripped)
  else ("/", stripped).

Definition keep_name (x : string) : bool :=
  negb (bool_decide (x = "")) && negb (bool_decide (x = ".")).

(** [Path(s)]: empty components and ["."] are dropped. *)
Definition Path (s : string) : t :=
  let '(r, rel) := splitroot s in
  {| root := r; parts := List.filter keep_name (PyStr.split "/" rel) |}.

(** [str(p)] *)
Definition str (p : t) : string :=
  if PyStr.truthy (root p) then root p +:+ PyStr.join "/" (parts p)
  else if PyStr.truthy (PyStr.join "/" (parts p)) then PyStr.join "/" (parts p)
  else ".".

(** [p / q] for a path [q] (no drives on this flavour): a rooted second
    path replaces the first. *)
Definition joinpath (p q : t) : t :=
  if PyStr.truthy (root q) then q
  else {| root := root p; parts := parts p ++ parts q |}.

(** [p / name] for one directory entry, [_make_child_relpath]. *)
Definition make_child_relpath (p : t) (name : string) : t :=
  {| root := root p; parts := parts p ++ [name] |}.

(** The list CPython's [relative_to] compares: drive, root, names. *)
Definition abs_parts (p : t) : list string :=
  if PyStr.truthy (root p) then "" :: root p :: parts p else parts p.

(** [self.relative_to(other)]; [None] is [ValueError]. The result is
    always a relative path: CPython's [root if n == 1 else ''] is [''] on
    this flavour whenever the comparison succeeds. *)
Definition relative_to (self other : t) : option t :=
  let to_abs_parts := abs_parts other in
  let n := length to_abs_parts in
  if (if (n =? 0)%nat then PyStr.truthy (root self)
      else negb (bool_decide (take n (abs_parts self) = to_abs_parts)))
  then None
  else Some {| root := ""; parts := drop n (abs_parts self) |}.

(** [p.parent]: a path without names is its own parent. *)
Definition parent (p : t) : t :=
  {| root := root p; parts := removelast (parts p) |}.

(** [p.suffix]: the last dot of the final name and what follows, unless
    the name starts or ends with that dot. *)
Definition name (p : t) : string := List.last (parts p) "".

Fixpoint rfind_dot (s : string) : option (string * string) :=
  match s with
  | EmptyString => None
  | String c s' =>
      match rfind_dot s' with
      | Some (pre, suf) => Some (String c pre, suf)
      | None => if Ascii.eqb c "."%char then Some ("", s) else None
      end
  end.

Definition suffix (p : t) : string :=
  match rfind_dot (name p) with
  | Some (pre, suf) =>
      if PyStr.truthy pre && (1 <? String.length suf)%nat then suf else ""
  | None => ""
  end.

(** [p.stem] *)
Definition stem (p : t) : string :=
  match rfind_dot (name p) with
  | Some (pre, suf) =>
      if PyStr.truthy pre && (1 <? String.length suf)%nat then pre else name p
  | None => name p
  end.

End PurePath.

(** ** [os.path], POSIX flavour *)

Module OsPath.

(** [os.path.basename(p)]: what follows the last slash. *)
Definition basename (p : string) : string := List.last (PyStr.split "/" p) "".

(** [head = p[:i]] with [i] just after the last slash. *)
Fixpoint head_of (l : list string) : string :=
  match l with
  | [] | [_] => ""
  | x :: l' => x +:+ "/" +:+ head_of l'
  end.

(** [os.path.dirname(p)] *)
Definition dirname (p : string) : string :=
  let head := head_of (PyStr.split "/" p) in
  if PyStr.truthy head && PyStr.truthy (PyStr.lstrip PurePath.is_sep head)
  then PyStr.rstrip PurePath.is_sep head
  else head.

Definition is_dot (c : ascii) : bool := Ascii.eqb c "."%char.

(** [os.path.splitext(p)]: the extension starts at the last dot of the
    final component, provided a character other than a dot comes before
    it there. *)
Definition splitext (p : string) : string * string :=
  let base := basename p in
  match PurePath.rfind_dot base with
  | Some (pre, ext) =>
      if PyStr.truthy (PyStr.lstrip is_dot pre)
      then (head_of (PyStr.split "/" p) +:+ pre, ext)
      else (p, "")
  | None => (p, "")
  end.

End OsPath.

(** ** The characters of a string *)

Module Utf8.

Definition byte (a : ascii) : N := N_of_ascii a.

Definition within (lo hi : N) (a : ascii) : bool :=
  ((lo <=? byte a) && (byte a <=? hi))%N.

(** A continuation byte. *)
Definition cont (a : ascii) : bool := within 128 191 a.

(** The well-formed sequences of two, three and four bytes. *)
Definition two (a b : ascii) : bool := within 194 223 a && cont b.

Definition three (a b c : ascii) : bool :=
  (within 224 224 a && within 160 191 b
   || (within 225 236 a || within 238 239 a) && cont b
   || within 237 237 a && within 128 159 b)
  && cont c.

Definition four (a b c d : ascii) : bool :=
  (within 240 240 a && within 144 191 b
   || within 241 243 a && cont b
   || within 244 244 a && within 128 143 b)
  && cont c && cont d.

(** A character: the bytes that encode it, and its code point. *)
Definition char : Type := string * N.

Definition char1 (a : ascii) : char := (String a "", byte a).

(** A byte that belongs to no well-formed sequence: the lone surrogate
    that the [surrogateescape] handler of file names makes of it. *)
Definition lone (a : ascii) : char := (String a "", 56320 + byte a)%N.

Definition char2 (a b : ascii) : char :=
  (String a (String b ""), (byte a - 192) * 64 + (byte b - 128))%N.

Definition char3 (a b c : ascii) : char :=
  (String a (String b (String c "")),
   (byte a - 224) * 4096 + (byte b - 128) * 64 + (byte c - 128))%N.

Definition char4 (a b c d : ascii) : char :=
  (String a (String b (String c (String d ""))),
   (byte a - 240) * 262144 + (byte b - 128) * 4096 + (byte c - 128) * 64
   + (byte d - 128))%N.

(** The characters of a string, as Python decodes it. *)
Fixpoint chars (s : string) : list char :=
  match s with
  | EmptyString => []
  | String a s1 =>
      if (byte a <? 128)%N then char1 a :: chars s1
      else
        match s1 with
        | EmptyString => lone a :: chars s1
        | String b s2 =>
            if two a b then char2 a b :: chars s2
            else
              match s2 with
              | EmptyString => lone a :: chars s1
              | String c s3 =>
                  if three a b c then char3 a b c :: chars s3
                  else
                    match s3 with
                    | EmptyString => lone a :: chars s1
                    | String d s4 =>
                        if four a b c d then char4 a b c d :: chars s4
                        else lone a :: chars s1
                    end
              end
        end
  end.

(** The string of a list of characters. *)
Definition unchars (l : list char) : string :=
  foldr (λ c s, c.1 +:+ s) "" l.

(** The character that is the ASCII character [x]. *)
Definition is_char (x : ascii) (c : char) : bool :=
  bool_decide (c.1 = String x "").

(** An ASCII byte. *)
Definition is_ascii (a : ascii) : bool := (byte a <? 128)%N.

(** What a decoded character is: an ASCII byte with its own code, or a
    sequence that starts with a high byte and has a code of 128 or more. *)
Definition ascii_or_high (c : char) : Prop :=
  (∃ a, c = char1 a ∧ (byte a < 128)%N)
  ∨ ((128 ≤ c.2)%N ∧ ∃ x g, c.1 = String x g ∧ (128 ≤ byte x)%N).

End Utf8.

(** ** [fnmatch]: the shell patterns that [Path.glob] matches names with *)

Module Fnmatch.

Import Utf8.

Inductive tok :=
| Star
| AnyChar
| Lit (c : string)
| Class (negated : bool) (ranges : list (N * N)).

(** The text up to the closing bracket, and what follows it. *)
Fixpoint until_close (s : list char) : option (list char * list char) :=
  match s with
  | [] => None
  | c :: s' =>
      if is_char "]" c then Some ([], s')
      else match until_close s' with
           | Some (stuff, rest) => Some (c :: stuff, rest)
           | None => None
           end
  end.

(** After an opening bracket: a first ["!"] and a first ["]"] belong to the
    set; without a closing bracket the opening one is a literal. *)
Definition bracket (s : list char) : option (list char * list char) :=
  let '(pre1, s1) :=
    match s with
    | c :: s' => if is_char "!" c then ([c], s') else ([], s)
    | [] => ([], s)
    end in
  let '(pre2, s2) :=
    match s1 with
    | c :: s' => if is_char "]" c then ([c], s') else ([], s1)
    | [] => ([], s1)
    end in
  match until_close s2 with
  | Some (stuff, rest) => Some (pre1 ++ pre2 ++ stuff, rest)
  | None => None
  end.

(** The members of a set: [a-b] is a range of code points, a hyphen that
    is first, last or follows a range is a literal. *)
Fixpoint ranges (body : list char) : list (N * N) :=
  match body with
  | [] => []
  | a :: rest =>
      match rest with
      | h :: b :: rest' =>
          if is_char "-" h then (a.2, b.2) :: ranges rest'
          else (a.2, a.2) :: ranges rest
      | _ => (a.2, a.2) :: ranges rest
      end
  end.

Definition class_of (stuff : list char) : tok :=
  match stuff with
  | c :: body => if is_char "!" c then Class true (ranges body)
                 else Class false (ranges stuff)
  | [] => Class false (ranges stuff)
  end.

Fixpoint translate (fuel : nat) (pat : list char) : list tok :=
  match fuel with
  | O => []
  | S fuel' =>
      match pat with
      | [] => []
      | c :: rest =>
          if is_char "*" c then Star :: translate fuel' rest
          else if is_char "?" c then AnyChar :: translate fuel' rest
          else if is_char "[" c then
            match bracket rest with
            | Some (stuff, rest') => class_of stuff :: translate fuel' rest'
            | None => Lit c.1 :: translate fuel' rest
            end
          else Lit c.1 :: translate fuel' rest
      end
  end.

Definition in_range (n : N) (r : N * N) : bool :=
  ((r.1 <=? n) && (n <=? r.2))%N.

(** One character against one token. *)
Definition tok_ok (t : tok) (c : char) : bool :=
  match t with
  | Star | AnyChar => true
  | Lit c' => bool_decide (c.1 = c')
  | Class negated rs => xorb negated (existsb (in_range c.2) rs)
  end.

Fixpoint match_toks (ts : list tok) (s : list char) {struct ts} : bool :=
  match ts with
  | [] => bool_decide (s = [])
  | Star :: ts' =>
      (fix try (s : list char) : bool :=
         match_toks ts' s ||
         match s with
         | [] => false
         | _ :: s' => try s'
         end) s
  | t :: ts' =>
      match s with
      | [] => false
      | c :: s' => tok_ok t c && match_toks ts' s'
      end
  end.

(** The whole name must match (case sensitive on this flavour); [?] and a
    set stand for one character. *)
Definition fnmatch (name pat : string) : bool :=
  match_toks (translate (length (chars pat)) (chars pat)) (chars name).

End Fnmatch.

(** ** The file system, as the code probes it *)

Inductive Element :=
  mkElement (tag : string) (attrib : list (string * string))
            (text : option string) (children : list Element).

(** [stat p] is the modification time and the size of what [p] names, or
    [None] when [os.stat(p)] fails; [fromtimestamp_ok t] tells whether
    [datetime.fromtimestamp(t)] returns: it raises ([OverflowError],
    [OSError] or [ValueError]) for a time outside the range that the
    platform and [datetime] represent; [scandir d] lists the names in the
    directory [d], and is empty when [d] is not a directory that can be
    read (a listing may be stale: nothing relates it to [stat]);
    [resolve p] is [str(Path(p).resolve())], or [None] when it raises;
    [sha256 p] is [calculate_file_hash(p)], the empty string when the file
    cannot be read; [et_parse p] is the tree [ET.parse(p)] builds, or [None]
    when it raises (no such file, not well-formed). *)
Record FileSystem := {
  stat : string → option (Z * Z);
  fromtimestamp_ok : Z → bool;
  scandir : string → list string;
  resolve : string → option string;
  sha256 : string → string;
  et_parse : string → option Element
}.

(** ** [datetime] *)

Module Datetime.

(** [datetime.fromtimestamp(t)]; [None] when it raises. A datetime is
    written as the time it is made of: the order of the datetimes is the
    order of the times. *)
Definition fromtimestamp (fs : FileSystem) (t : Z) : option Z :=
  if fromtimestamp_ok fs t then Some t else None.

End Datetime.

Module Os.

(** [os.path.exists(p)] *)
Definition exists_ (fs : FileSystem) (p : string) : bool :=
  bool_decide (is_Some (stat fs p)).

(** [os.path.getmtime(p)] and [os.path.getsize(p)]; [None] is [OSError]. *)
Definition getmtime (fs : FileSystem) (p : string) : option Z :=
  fst <$> stat fs p.

Definition getsize (fs : FileSystem) (p : string) : option Z :=
  snd <$> stat fs p.

End Os.

(** ** [path_manager.py] *)

Inductive PathHandler := LocalPathHandler | SMTPathHandler | FTPPathHandler.

Module PathManager.

(** [PathHandler.is_valid]: only the local handler probes the disk. *)
Definition handler_is_valid (fs : FileSystem) (h : PathHandler) (path : string)
  : bool :=
  match h with
  | LocalPathHandler => Os.exists_ fs path
  | SMTPathHandler => true
  | FTPPathHandler => true
  end.

Definition back_slash : string := String (ascii_of_nat 92) EmptyString.

(** [get_handler] for a path given as a string, as every caller gives it. *)
Definition get_handler (path : string) : option PathHandler :=
  if PyStr.startswith path "//" || PyStr.startswith path (back_slash +:+ back_slash)
  then Some SMTPathHandler
  else if PyStr.startswith path "ftp://" then Some FTPPathHandler
  else Some LocalPathHandler.

Definition is_valid (fs : FileSystem) (path : string) : bool :=
  match get_handler path with
  | Some handler => handler_is_valid fs handler path
  | None => false
  end.

End PathManager.

(** ** [config_parser.py]: the sync pair *)

Record SyncPolicy := {
  policy_create : string;
  policy_update : string;
  policy_delete : string
}.

Record SyncPair := {
  name : string;
  left_path : string;
  right_path : string;
  versioning_folder : string;
  sync_policy : list (string * SyncPolicy);
  include_patterns : list string;
  exclude_patterns : list string;
  sync_config_path : string
}.

#[global] Instance SyncPolicy_eq_dec : EqDecision SyncPolicy.
Proof. solve_decision. Defined.

#[global] Instance SyncPair_eq_dec : EqDecision SyncPair.
Proof. solve_decision. Defined.

(** [SyncPair.__eq__]: the config path alone. *)
Definition SyncPair_eq (self other : SyncPair) : bool :=
  bool_decide (sync_config_path self = sync_config_path other).

(** [x in l] for a list of sync pairs, through [__eq__]. *)
Definition SyncPair_in (x : SyncPair) (l : list SyncPair) : bool :=
  existsb (fun y => SyncPair_eq y x) l.

(** ** [xml.etree.ElementTree]: the queries the parser uses *)

Module ET.

Definition tag (e : Element) : string :=
  match e with mkElement t _ _ _ => t end.
Definition attrib (e : Element) : list (string * string) :=
  match e with mkElement _ a _ _ => a end.
Definition text (e : Element) : option string :=
  match e with mkElement _ _ x _ => x end.
Definition children (e : Element) : list Element :=
  match e with mkElement _ _ _ cs => cs end.

Definition has_tag (t : string) (e : Element) : bool := bool_decide (tag e = t).

(** [e.find(t)]: the first child with that tag. *)
Definition find (e : Element) (t : string) : option Element :=
  List.find (has_tag t) (children e).

(** [e.findall(t)]: the children with that tag, in order. *)
Definition findall (e : Element) (t : string) : list Element :=
  List.filter (has_tag t) (children e).

(** [e.iter()]: the element and everything below it, in document order. *)
Fixpoint iter (e : Element) : list Element :=
  match e with
  | mkElement _ _ _ cs =>
      e :: (fix go (l : list Element) : list Element :=
              match l with
              | [] => []
              | c :: l' => iter c ++ go l'
              end) cs
  end.

(** What [.//] ranges over: everything below the element, itself left out. *)
Definition descendants (e : Element) : list Element :=
  flat_map iter (children e).

(** [e.find(".//" + t)] *)
Definition find_below (e : Element) (t : string) : option Element :=
  List.find (has_tag t) (descendants e).

(** [e.findall(".//" + t1 + "/" + t2)] *)
Definition findall_below (e : Element) (t1 t2 : string) : list Element :=
  flat_map (fun d => findall d t2) (List.filter (has_tag t1) (descendants e)).

(** [e.get(key, default)] *)
Definition get (e : Element) (key default : string) : string :=
  match List.find (fun kv => bool_decide (kv.1 = key)) (attrib e) with
  | Some kv => kv.2
  | None => default
  end.

(** [e.text or ""] *)
Definition text_or_empty (e : Element) : string := default "" (text e).

End ET.

(** ** [ffs_config_parser.py]: reading a batch configuration *)

Module FFSConfigParser.

(** The parser object: [self.sync_pairs]. *)
Record t := { sync_pairs : list SyncPair }.

(** [ConfigParser.__init__] *)
Definition init : t := {| sync_pairs := [] |}.

(** [[item.text for item in e.findall("Item") if item.text]] *)
Definition item_texts (e : Element) : list string :=
  omap (fun item =>
          match ET.text item with
          | Some x => if PyStr.truthy x then Some x else None
          | None => None
          end) (ET.findall e "Item").

(** The patterns a [Filter] element adds to a list: those of its
    [Include] (or [Exclude]) child, if it has one. *)
Definition filter_patterns (filter_elem : option Element) (which : string)
  : list string :=
  match filter_elem with
  | Some f =>
      match ET.find f which with
      | Some e => item_texts e
      | None => []
      end
  | None => []
  end.

Definition side_policy (changes : Element) (side : string)
  : list (string * SyncPolicy) :=
  match ET.find changes side with
  | Some side_elem =>
      [(side, {| policy_create := ET.get side_elem "Create" "none";
                 policy_update := ET.get side_elem "Update" "none";
                 policy_delete := ET.get side_elem "Delete" "none" |})]
  | None => []
  end.

(** The body of the [try] block, once the tree is there. A
    [VersioningFolder] element without text gives [None] in the source;
    it is the empty string here, which is as falsy. *)
Definition pairs_of_tree (config_path : string) (root : Element)
  : list SyncPair :=
  let name := PurePath.stem (PurePath.Path config_path) in
  let versioning_path :=
    match ET.find_below root "VersioningFolder" with
    | Some versioning_folder => ET.text_or_empty versioning_folder
    | None => ""
    end in
  let sync_policy :=
    match ET.find_below root "Changes" with
    | Some changes => side_policy changes "Left" ++ side_policy changes "Right"
    | None => []
    end in
  let filter_elem := ET.find_below root "Filter" in
  let include_patterns := filter_patterns filter_elem "Include" in
  let exclude_patterns := filter_patterns filter_elem "Exclude" in
  omap (fun pair =>
          match ET.find pair "Left", ET.find pair "Right" with
          | Some left_path, Some right_path =>
              let pair_filter := ET.find pair "Filter" in
              Some {| name := name;
                      left_path := ET.text_or_empty left_path;
                      right_path := ET.text_or_empty right_path;
                      versioning_folder := versioning_path;
                      sync_policy := sync_policy;
                      include_patterns :=
                        include_patterns ++ filter_patterns pair_filter "Include";
                      exclude_patterns :=
                        exclude_patterns ++ filter_patterns pair_filter "Exclude";
                      sync_config_path := config_path |}
          | _, _ => None
          end) (ET.findall_below root "FolderPairs" "Pair").

(** [parse_config]: the new parser object and the value returned. Whatever
    [ET.parse] raises is caught by [except Exception], and [None] is
    returned with [self.sync_pairs] as it was; nothing after [ET.parse]
    raises. *)
Definition parse_config (fs : FileSystem) (self : t) (config_path : string)
  : t * option (list SyncPair) :=
  match et_parse fs config_path with
  | Some root =>
      let sync_pairs := pairs_of_tree config_path root in
      ({| sync_pairs := sync_pairs |}, Some sync_pairs)
  | None => (self, None)
  end.

(** The dictionary [_create_history_item] builds. *)
Record history_dict := {
  d_file_name : string;
  d_modified_time : Z;
  d_version : string;
  d_file_path : string;
  d_folder_path : string
}.

Definition VERSION_ARCHIVE : string := "历史版本".
Definition VERSION_RIGHT : string := "右侧".
Definition VERSION_LEFT : string := "左侧".

(** [_create_history_item]; [None] is the [OSError] of [getmtime] or the
    exception of [fromtimestamp]. *)
Definition _create_history_item (fs : FileSystem) (file_path version : string)
  : option history_dict :=
  mtime ← Os.getmtime fs file_path;
  modified_time ← Datetime.fromtimestamp fs mtime;
  Some {| d_file_name := OsPath.basename file_path;
          d_modified_time := modified_time;
          d_version := version;
          d_file_path := file_path;
          d_folder_path := OsPath.dirname file_path |}.

(** The counterpart of a file below [base] on the other side, inside the
    [try] of the loop: an exception there is caught and the pair left. *)
Definition counterpart (fs : FileSystem) (history : list history_dict)
    (file_path base other_base version : string) : list history_dict :=
  match PurePath.relative_to (PurePath.Path file_path) (PurePath.Path base) with
  | Some relative_path =>
      let other_path :=
        PurePath.str (PurePath.joinpath (PurePath.Path other_base) relative_path) in
      if Os.exists_ fs other_path then
        match _create_history_item fs other_path version with
        | Some item => history ++ [item]
        | None => history
        end
      else history
  | None => history
  end.

(** One turn of the loop of [get_file_history]; [None]: an exception
    leaves the function (a [resolve] that raises, or the [getmtime] or
    [fromtimestamp] of the versioning branch, which no [try] covers). *)
Definition history_of_pair (fs : FileSystem) (file_path : string)
    (history : list history_dict) (sync_pair : SyncPair)
  : option (list history_dict) :=
  left_base ← resolve fs (left_path sync_pair);
  right_base ← resolve fs (right_path sync_pair);
  versioning_base ←
    (if PyStr.truthy (versioning_folder sync_pair)
     then resolve fs (versioning_folder sync_pair) else Some "");
  if PyStr.truthy versioning_base && PyStr.startswith file_path versioning_base
  then
    item ← _create_history_item fs file_path VERSION_ARCHIVE;
    Some (history ++ [item])
  else if PyStr.startswith file_path left_base then
    Some (counterpart fs history file_path left_base right_base VERSION_RIGHT)
  else if PyStr.startswith file_path right_base then
    Some (counterpart fs history file_path right_base left_base VERSION_LEFT)
  else Some history.

Fixpoint history_loop (fs : FileSystem) (file_path : string)
    (history : list history_dict) (pairs : list SyncPair)
  : option (list history_dict) :=
  match pairs with
  | [] => Some history
  | sync_pair :: rest =>
      history' ← history_of_pair fs file_path history sync_pair;
      history_loop fs file_path history' rest
  end.

(** [get_file_history] *)
Definition get_file_history (fs : FileSystem) (self : t) (file_path : string)
  : option (list history_dict) :=
  file_path ← resolve fs file_path;
  history_loop fs file_path [] (sync_pairs self).

End FFSConfigParser.

(** [ConfigParserFactory.create_parser]: by suffix, [None] when the suffix
    is not supported. *)
Definition create_parser (config_path : string) : option FFSConfigParser.t :=
  let suffix := PyStr.lower (PurePath.suffix (PurePath.Path config_path)) in
  if bool_decide (suffix = ".ffs_batch") then Some FFSConfigParser.init else None.

(** ** [sync_config_model.py]: the registry *)

Module SyncConfigModel.

Record t := {
  sync_config_paths : gset string;
  sync_pairs : list SyncPair
}.

Definition init : t := {| sync_config_paths := ∅; sync_pairs := [] |}.

(** The inner loop: a pair equal to a registered one is not appended. *)
Definition add_pairs (registered new : list SyncPair) : list SyncPair :=
  fold_left (fun acc sync_pair =>
               if SyncPair_in sync_pair acc then acc else acc ++ [sync_pair])
            new registered.

(** One turn of the outer loop: the registered pairs and [success[i]]. *)
Definition add_one (fs : FileSystem) (registered : list SyncPair)
    (config_path : string) : list SyncPair * bool :=
  match create_parser config_path with
  | Some parser =>
      match FFSConfigParser.parse_config fs parser config_path with
      | (parser', Some _) =>
          (add_pairs registered (FFSConfigParser.sync_pairs parser'), true)
      | (_, None) => (registered, false)
      end
  | None => (registered, false)
  end.

Fixpoint add_loop (fs : FileSystem) (registered : list SyncPair)
    (config_paths : list string) : list SyncPair * list bool :=
  match config_paths with
  | [] => (registered, [])
  | config_path :: rest =>
      let '(registered', ok) := add_one fs registered config_path in
      let '(registered'', oks) := add_loop fs registered' rest in
      (registered'', ok :: oks)
  end.

(** [add_configs]; a single path ([inl]) is a list of one. *)
Definition add_configs (fs : FileSystem) (self : t)
    (config_paths : string + list string) : t * list bool :=
  let config_paths :=
    match config_paths with
    | inl p => [p]
    | inr l => l
    end in
  let '(registered, success) := add_loop fs (sync_pairs self) config_paths in
  ({| sync_config_paths := sync_config_paths self ∪ list_to_set config_paths;
      sync_pairs := registered |}, success).

(** [remove_config] for the row of a model index ([None]: an invalid
    index). [list.pop] raises [IndexError] for a row past the end: the
    result is then [None] and the registry is as it was. *)
Definition remove_config (self : t) (index : option nat) : option t :=
  match index with
  | None => Some self
  | Some row =>
      match sync_pairs self with
      | [] => Some self
      | _ =>
          if (row <? length (sync_pairs self))%nat
          then Some {| sync_config_paths := sync_config_paths self;
                       sync_pairs := delete row (sync_pairs self) |}
          else None
      end
  end.

(** The registries the two operations can build from the empty one, the
    files on disk changing freely in between. *)
Inductive reachable : t → Prop :=
| reach_init : reachable init
| reach_add fs self config_paths :
    reachable self → reachable (add_configs fs self config_paths).1
| reach_remove self index self' :
    reachable self → remove_config self index = Some self' → reachable self'.

End SyncConfigModel.

(** ** [file_history_model.py]: the resolver and its cache *)

Record FileHistoryItem := {
  file_name : string;
  modified_time : Z;
  file_size : Z;
  version : string;
  file_path : string;
  folder_path : string;
  sync_pair : SyncPair;
  is_source : bool;
  is_synced : bool;
  file_hash : option string;
  remarks : option string
}.

#[global] Instance FileHistoryItem_eq_dec : EqDecision FileHistoryItem.
Proof. solve_decision. Defined.

Module FileHistory.

Definition VERSION_SOURCE : string := "源文件".
Definition VERSION_SYNCED : string := "同步文件".
Definition VERSION_HISTORY : string := "历史版本".

(** The two locals the loop of [load_file_history] updates. *)
Record locals := {
  history_data : list FileHistoryItem;
  has_matched : bool
}.

Inductive exn := ValueError | OSError | OverflowError.

(** A statement of the loop body: the locals after it, and either its
    value or the exception it left with. *)
Definition M (A : Type) : Type := locals → locals * (exn + A).

#[global] Instance M_ret : MRet M := λ A a st, (st, inr a).
#[global] Instance M_bind : MBind M := λ A B f m st,
  match m st with
  | (st', inr a) => f a st'
  | (st', inl e) => (st', inl e)
  end.

Definition raise {A : Type} (e : exn) : M A := λ st, (st, inl e).

Definition or_raise {A : Type} (e : exn) (o : option A) : M A :=
  match o with
  | Some a => mret a
  | None => raise e
  end.

(** [has_matched = True] *)
Definition set_has_matched : M unit :=
  λ st, ({| history_data := history_data st; has_matched := true |}, inr ()).

(** [history_data.append(item)] *)
Definition append (item : FileHistoryItem) : M unit :=
  λ st, ({| history_data := history_data st ++ [item];
            has_matched := has_matched st |}, inr ()).

Fixpoint for_each {A : Type} (l : list A) (body : A → M unit) : M unit :=
  match l with
  | [] => mret ()
  | x :: l' => body x ;; for_each l' body
  end.

(** [FileHistoryItem(...)] for the file at [path]: [getmtime] and
    [getsize] raise [OSError] when the file is not there, and
    [fromtimestamp] raises for a time out of range ([OverflowError] here;
    the handlers treat every exception alike). *)
Definition make_item (fs : FileSystem) (path version : string)
    (pair : SyncPair) (source synced : bool) : M FileHistoryItem :=
  mtime ← or_raise OSError (Os.getmtime fs path);
  modified_time ← or_raise OverflowError (Datetime.fromtimestamp fs mtime);
  size ← or_raise OSError (Os.getsize fs path);
  mret {| file_name := OsPath.basename path;
          modified_time := modified_time;
          file_size := size;
          version := version;
          file_path := path;
          folder_path := OsPath.dirname path;
          sync_pair := pair;
          is_source := source;
          is_synced := synced;
          file_hash := None;
          remarks := None |}.

Definition digits (n : nat) : string :=
  String.concat "" (replicate n "[0-9]").

(** The name of an archived copy: the whole file name, a space, the date,
    a space, the time, and the extension once more. *)
Definition timestamp_pattern (base_name ext : string) : string :=
  base_name +:+ " " +:+ digits 4 +:+ "-" +:+ digits 2 +:+ "-" +:+ digits 2
    +:+ " " +:+ digits 6 +:+ ext.

(** [list(folder.glob(pattern))] for a pattern of one component that has
    a wildcard: the entries of the folder whose name matches. A pattern
    with two stars in a row inside a component is refused with
    [ValueError]. *)
Definition glob (fs : FileSystem) (folder : PurePath.t) (pattern : string)
  : M (list PurePath.t) :=
  if PyStr.contains "**" pattern then raise ValueError
  else mret (PurePath.make_child_relpath folder <$>
               List.filter (λ entry, Fnmatch.fnmatch entry pattern)
                           (scandir fs (PurePath.str folder))).

(** The body of the loop over the pairs, inside its two [try] blocks. *)
Definition scan_pair (fs : FileSystem) (file_path : string) (pair : SyncPair)
  : M unit :=
  let file_path_obj := PurePath.Path file_path in
  let left_base_obj := PurePath.Path (left_path pair) in
  relative_path ←
    or_raise ValueError (PurePath.relative_to file_path_obj left_base_obj);
  (if bool_decide
        (file_path = PurePath.str (PurePath.joinpath left_base_obj relative_path))
   then
     set_has_matched ;;
     item ← make_item fs file_path VERSION_SOURCE pair true true;
     append item
   else mret ()) ;;
  let right_path :=
    PurePath.str (PurePath.joinpath (PurePath.Path (right_path pair)) relative_path) in
  (if Os.exists_ fs right_path then
     item ← make_item fs right_path VERSION_SYNCED pair false true;
     append item
   else mret ()) ;;
  if PyStr.truthy (versioning_folder pair) then
    let versioning_path_base_folder := PurePath.Path (versioning_folder pair) in
    let versioning_path_folder :=
      PurePath.parent (PurePath.joinpath versioning_path_base_folder relative_path) in
    let base_name := OsPath.basename (PurePath.str relative_path) in
    let ext := (OsPath.splitext base_name).2 in
    versioning_files ←
      glob fs versioning_path_folder (timestamp_pattern base_name ext);
    for_each versioning_files (λ versioning_file,
      let p := PurePath.str versioning_file in
      if Os.exists_ fs p then
        item ← make_item fs p VERSION_HISTORY pair false false;
        append item
      else mret ())
  else mret ().

(** Both handlers ([except ValueError] and [except Exception]) go on with
    the next pair, the locals as the exception left them. *)
Definition try_pair (fs : FileSystem) (file_path : string) (st : locals)
    (pair : SyncPair) : locals :=
  (scan_pair fs file_path pair st).1.

Definition scan (fs : FileSystem) (file_path : string) (pairs : list SyncPair)
  : locals :=
  fold_left (try_pair fs file_path) pairs
            {| history_data := []; has_matched := false |}.

(** [l.sort(key=lambda x: x.modified_time, reverse=True)]. Python's sort
    is stable, also with [reverse=True]: the result is the one arrangement
    that is descending and keeps items of equal time in their order
    ([stable_descending_unique] below). Insertion from the right computes
    it. *)
Fixpoint insert_desc (x : FileHistoryItem) (l : list FileHistoryItem)
  : list FileHistoryItem :=
  match l with
  | [] => [x]
  | y :: l' =>
      if modified_time x <? modified_time y then y :: insert_desc x l'
      else x :: l
  end.

Definition sort_by_time_desc (l : list FileHistoryItem) : list FileHistoryItem :=
  foldr insert_desc [] l.

(** [FILE_HISTORY_CACHE] *)
Abbreviation cache := (gmap string (list FileHistoryItem * bool)).

(** [clear_file_history_cache] *)
Definition clear_file_history_cache (c : cache) (file_path : option string)
  : cache :=
  match file_path with
  | None => ∅
  | Some p => delete p c
  end.

(** [load_file_history]: the pair returned and the cache after the call. *)
Definition load_file_history (fs : FileSystem) (c : cache)
    (file_path : string) (sync_pairs : list SyncPair)
  : (list FileHistoryItem * bool) * cache :=
  if negb (PathManager.is_valid fs file_path) then (([], false), c)
  else
    match c !! file_path with
    | Some hit => (hit, c)
    | None =>
        let st := scan fs file_path sync_pairs in
        let result := (sort_by_time_desc (history_data st), has_matched st) in
        (result, <[file_path := result]> c)
    end.

(** The caches the two functions can build from the empty one, files and
    pairs changing freely in between. *)
Inductive reachable : cache → Prop :=
| reach_empty : reachable ∅
| reach_load fs c file_path sync_pairs :
    reachable c → reachable (load_file_history fs c file_path sync_pairs).2
| reach_clear c file_path :
    reachable c → reachable (clear_file_history_cache c file_path).

End FileHistory.

(** ** [file_remarks_model.py]: the remarks table *)

(** What the methods of [FileRemarksManager] do to the table when the
    session of the call works: the statements of their [try] blocks. The
    methods with their handlers, for a session that may fail, follow in
    [FileRemarksManager]. *)
Module Remarks.

(** A row of the table [FileRemarks]. *)
Record FileRemarks := {
  id : nat;
  file_path : string;
  file_hash : string;
  remarks : string;
  created_at : Z;
  updated_at : Z
}.

#[global] Instance FileRemarks_eq_dec : EqDecision FileRemarks.
Proof. solve_decision. Defined.

(** The table, its rows in the order of their keys; [.first()] of a
    [select] is the first row of that order which satisfies the [where]. *)
Abbreviation table := (list FileRemarks).

Definition path_is (p : string) (r : FileRemarks) : bool :=
  bool_decide (file_path r = p).

Definition hash_is (h : string) (r : FileRemarks) : bool :=
  bool_decide (file_hash r = h).

(** Change the first row that satisfies [p]; [None] when there is none. *)
Fixpoint update_first (p : FileRemarks → bool) (f : FileRemarks → FileRemarks)
    (l : table) : option table :=
  match l with
  | [] => None
  | r :: l' =>
      if p r then Some (f r :: l')
      else (λ l'', r :: l'') <$> update_first p f l'
  end.

(** Delete the first row that satisfies [p]; [None] when there is none. *)
Fixpoint remove_first (p : FileRemarks → bool) (l : table) : option table :=
  match l with
  | [] => None
  | r :: l' =>
      if p r then Some l'
      else (λ l'', r :: l'') <$> remove_first p l'
  end.

(** The key of a new row: one more than the largest. *)
Definition next_id (l : table) : nat := S (foldr Nat.max 0%nat (id <$> l)).

(** [_normalize_path]; [None] when [resolve] raises. *)
Definition _normalize_path (fs : FileSystem) (file_path : string) : option string :=
  resolve fs file_path.

(** [get_remarks_record]: the row found by path, else the row found by
    hash, shown with the new path; [None] also when an exception is
    caught. *)
Definition get_remarks_record (fs : FileSystem) (db : table) (path : string)
  : option FileRemarks :=
  match _normalize_path fs path with
  | None => None
  | Some normalized_path =>
      match List.find (path_is normalized_path) db with
      | Some result => Some result
      | None =>
          let file_hash := sha256 fs path in
          if PyStr.truthy file_hash then
            match List.find (hash_is file_hash) db with
            | Some result =>
                Some {| id := id result;
                        file_path := normalized_path;
                        file_hash := Remarks.file_hash result;
                        remarks := remarks result;
                        created_at := created_at result;
                        updated_at := updated_at result |}
            | None => None
            end
          else None
      end
  end.

(** [get_remarks] *)
Definition get_remarks (fs : FileSystem) (db : table) (path : string) : string :=
  match get_remarks_record fs db path with
  | Some record => remarks record
  | None => ""
  end.

(** [delete_remarks]: the table after the call and the value returned. *)
Definition delete_remarks (fs : FileSystem) (db : table) (path : string)
  : table * bool :=
  match _normalize_path fs path with
  | None => (db, false)
  | Some normalized_path =>
      match remove_first (path_is normalized_path) db with
      | Some db' => (db', true)
      | None =>
          let file_hash := sha256 fs path in
          if PyStr.truthy file_hash then
            match remove_first (hash_is file_hash) db with
            | Some db' => (db', true)
            | None => (db, true)
            end
          else (db, false)
      end
  end.

Definition set_text (text : string) (now : Z) (r : FileRemarks) : FileRemarks :=
  {| id := id r; file_path := file_path r; file_hash := file_hash r;
     remarks := text; created_at := created_at r; updated_at := now |}.

Definition set_path_and_text (path text : string) (now : Z) (r : FileRemarks)
  : FileRemarks :=
  {| id := id r; file_path := path; file_hash := file_hash r;
     remarks := text; created_at := created_at r; updated_at := now |}.

(** [set_remarks] at the time [now]: the table after the call and the value
    returned. *)
Definition set_remarks (fs : FileSystem) (now : Z) (db : table)
    (path text : string) : table * bool :=
  let text := PyStr.strip text in
  if negb (PyStr.truthy text) then delete_remarks fs db path
  else
    match _normalize_path fs path with
    | None => (db, false)
    | Some normalized_path =>
        match update_first (path_is normalized_path) (set_text text now) db with
        | Some db' => (db', true)
        | None =>
            let file_hash := sha256 fs path in
            match (if PyStr.truthy file_hash
                   then update_first (hash_is file_hash)
                          (set_path_and_text normalized_path text now) db
                   else None) with
            | Some db' => (db', true)
            | None =>
                (db ++ [{| id := next_id db;
                           file_path := normalized_path;
                           file_hash := file_hash;
                           remarks := text;
                           created_at := now;
                           updated_at := now |}], true)
            end
        end
    end.

(** The tables the two writers can build from the empty one, the files
    changing freely in between. *)
Inductive reachable : table → Prop :=
| reach_nil : reachable []
| reach_set fs now db path text :
    reachable db → reachable (set_remarks fs now db path text).1
| reach_delete fs db path :
    reachable db → reachable (delete_remarks fs db path).1.

End Remarks.

(** The methods as they are called. The session of a call works, or an
    operation on it raises (the database cannot be opened, read or
    written): nothing is committed then, and [except Exception] returns
    [None] or [False]. *)
Module FileRemarksManager.

Inductive session := Working | Failing.

#[global] Instance session_eq_dec : EqDecision session.
Proof. solve_decision. Defined.

(** [get_remarks_record] *)
Definition get_remarks_record (s : session) (fs : FileSystem)
    (db : Remarks.table) (path : string) : option Remarks.FileRemarks :=
  match s with
  | Working => Remarks.get_remarks_record fs db path
  | Failing => None
  end.

(** [get_remarks] *)
Definition get_remarks (s : session) (fs : FileSystem) (db : Remarks.table)
    (path : string) : string :=
  match get_remarks_record s fs db path with
  | Some record => Remarks.remarks record
  | None => ""
  end.

(** [delete_remarks]: the table after the call and the value returned. *)
Definition delete_remarks (s : session) (fs : FileSystem) (db : Remarks.table)
    (path : string) : Remarks.table * bool :=
  match s with
  | Working => Remarks.delete_remarks fs db path
  | Failing => (db, false)
  end.

(** [set_remarks] at the time [now]: the table after the call and the
    value returned. A blank text hands over to [delete_remarks], which
    fails as the session does. *)
Definition set_remarks (s : session) (fs : FileSystem) (now : Z)
    (db : Remarks.table) (path text : string) : Remarks.table * bool :=
  match s with
  | Working => Remarks.set_remarks fs now db path text
  | Failing => (db, false)
  end.

End FileRemarksManager.

(** ** Notions the properties are stated with *)

Module Spec.

(** Membership of a path in a folder, as the path classifier of the
    specification has it: prefix and [relative_to] semantics. *)
Definition contains (folder path : string) : bool :=
  bool_decide (is_Some (PurePath.relative_to (PurePath.Path path)
                                             (PurePath.Path folder))).

(** The path relative to the folder, for a path strictly inside it. *)
Definition strictly_inside (folder path : string) (rel : PurePath.t) : Prop :=
  PurePath.relative_to (PurePath.Path path) (PurePath.Path folder) = Some rel
  ∧ PurePath.parts rel ≠ [].

(** A path string that is spelled the way [pathlib] prints it. *)
Definition canonical (path : string) : Prop :=
  path = PurePath.str (PurePath.Path path).

(** A path string with a root, as [Path.resolve] returns it. *)
Definition absolute (path : string) : Prop :=
  PyStr.truthy (PurePath.root (PurePath.Path path)) = true.

(** The three kinds of item, told apart by their flags. *)
Definition is_source_item (x : FileHistoryItem) : bool :=
  is_source x.
Definition is_mirror_item (x : FileHistoryItem) : bool :=
  negb (is_source x) && is_synced x.
Definition is_archived_item (x : FileHistoryItem) : bool :=
  negb (is_source x) && negb (is_synced x).

(** Descending by modification time. *)
Definition newer_or_equal (x y : FileHistoryItem) : Prop :=
  modified_time y ≤ modified_time x.

(** The items of a list that carry the modification time [t], in order. *)
Definition at_time (t : Z) (l : list FileHistoryItem) : list FileHistoryItem :=
  List.filter (λ x, bool_decide (modified_time x = t)) l.

(** A [Pair] entry keeps its place in the result when both children are
    there. *)
Definition has_both_sides (pair : Element) : bool :=
  bool_decide (is_Some (ET.find pair "Left"))
  && bool_decide (is_Some (ET.find pair "Right")).

(** A [Pair] entry whose [Left] or [Right] text is missing: the child is
    absent, or it has no text. *)
Definition side_text (pair : Element) (side : string) : option string :=
  e ← ET.find pair side;
  x ← ET.text e;
  if PyStr.truthy x then Some x else None.

Definition has_both_texts (pair : Element) : bool :=
  bool_decide (is_Some (side_text pair "Left"))
  && bool_decide (is_Some (side_text pair "Right")).

(** The path a kept [Pair] entry gives for a side: the text of the child,
    the empty string when it has none. *)
Definition side_or_empty (pair : Element) (side : string) : string :=
  from_option ET.text_or_empty "" (ET.find pair side).

(** The reading of the specification: the pairs returned are at most the
    [Pair] entries that have both texts. *)
Definition skips_pairs_without_text (fs : FileSystem) (config_path : string)
  : Prop :=
  ∀ root pairs,
    et_parse fs config_path = Some root →
    (FFSConfigParser.parse_config fs FFSConfigParser.init config_path).2
      = Some pairs →
    (length pairs
     ≤ length (List.filter has_both_texts
                 (ET.findall_below root "FolderPairs" "Pair")))%nat.

(** The text the hash fallback of [get_remarks] finds for a path that has
    no row of its own: that of the first row with the hash of the file. *)
Definition text_by_hash (fs : FileSystem) (db : Remarks.table) (path : string)
  : string :=
  if PyStr.truthy (sha256 fs path) then
    from_option Remarks.remarks ""
      (List.find (Remarks.hash_is (sha256 fs path)) db)
  else "".

(** No two rows for the same path. *)
Definition distinct_paths (db : Remarks.table) : Prop :=
  NoDup (Remarks.file_path <$> db).

(** The reading of the specification of [has_matched_pair]: true exactly
    when the left or the right side of some pair contains the path. *)
Definition matched_as_stated (fs : FileSystem) (path : string)
    (pairs : list SyncPair) : Prop :=
  (FileHistory.load_file_history fs ∅ path pairs).1.2 = true
  ↔ ∃ pair, pair ∈ pairs
            ∧ (contains (left_path pair) path = true
               ∨ contains (right_path pair) path = true).

(** The reading of the specification for a file strictly inside the left
    folder: exactly one source item. *)
Definition one_source_as_stated (fs : FileSystem) (path : string)
    (pair : SyncPair) : Prop :=
  ∀ rel,
    Os.exists_ fs path = true →
    strictly_inside (left_path pair) path rel →
    length (List.filter is_source_item
              (FileHistory.load_file_history fs ∅ path [pair]).1.1) = 1%nat.

(** The reading of the specification for a file of the versioning folder
    whose name is the archival name of [original]: exactly one archived
    item for it. *)
Definition one_archived_as_stated (fs : FileSystem) (path original : string)
    (pair : SyncPair) : Prop :=
  Os.exists_ fs path = true →
  contains (versioning_folder pair) path = true →
  Fnmatch.fnmatch (OsPath.basename path)
    (FileHistory.timestamp_pattern original (OsPath.splitext original).2) = true →
  length (List.filter (λ x, is_archived_item x && bool_decide (file_path x = path))
            (FileHistory.load_file_history fs ∅ path [pair]).1.1) = 1%nat.

(** No two registered pairs come from the same configuration file. *)
Definition distinct_config_paths (l : list SyncPair) : Prop :=
  NoDup (sync_config_path <$> l).

End Spec.

(** What the statements of the loop body do to the locals. *)
Module Effects.

Import FileHistory.

Definition fresh : locals := {| history_data := []; has_matched := false |}.

Definition after (st : locals) (items : list FileHistoryItem) (flag : bool)
  : locals :=
  {| history_data := history_data st ++ items;
     has_matched := has_matched st || flag |}.

(** The test of the source: the path is below the left folder and is
    spelled as [left / rel] prints. *)
Definition left_match (file_path : string) (pair : SyncPair) : bool :=
  match PurePath.relative_to (PurePath.Path file_path)
                             (PurePath.Path (left_path pair)) with
  | Some rel =>
      bool_decide (file_path =
        PurePath.str (PurePath.joinpath (PurePath.Path (left_path pair)) rel))
  | None => false
  end.

(** The item the source builds for a file with the given [stat]. *)
Definition new_item (path version : string) (pair : SyncPair)
    (source synced : bool) (s : Z * Z) : FileHistoryItem :=
  {| file_name := OsPath.basename path;
     modified_time := s.1;
     file_size := s.2;
     version := version;
     file_path := path;
     folder_path := OsPath.dirname path;
     sync_pair := pair;
     is_source := source;
     is_synced := synced;
     file_hash := None;
     remarks := None |}.

(** A part of the loop body: the items it appends, and whether the body
    goes on after it ([false]: it raised, and the rest of the body is
    skipped). *)
Definition stage : Type := list FileHistoryItem * bool.

Definition done_ : stage := ([], true).
Definition raised : stage := ([], false).

Definition and_then (a b : stage) : stage :=
  if a.2 then (a.1 ++ b.1, b.2) else a.

(** Building the item of [path] and appending it. *)
Definition item_stage (fs : FileSystem) (path version : string)
    (pair : SyncPair) (source synced : bool) : stage :=
  match stat fs path with
  | Some s =>
      if fromtimestamp_ok fs s.1
      then ([new_item path version pair source synced s], true)
      else raised
  | None => raised
  end.

(** The same under [if os.path.exists(path)]. *)
Definition item_if_exists (fs : FileSystem) (path version : string)
    (pair : SyncPair) (source synced : bool) : stage :=
  if Os.exists_ fs path then item_stage fs path version pair source synced
  else done_.

Definition source_stage (fs : FileSystem) (file_path : string)
    (pair : SyncPair) : stage :=
  if left_match file_path pair
  then item_stage fs file_path VERSION_SOURCE pair true true
  else done_.

(** The mirrored path of [rel] on the right side of the pair. *)
Definition mirrored_path (pair : SyncPair) (rel : PurePath.t) : string :=
  PurePath.str (PurePath.joinpath (PurePath.Path (right_path pair)) rel).

Definition mirror_stage (fs : FileSystem) (pair : SyncPair) (rel : PurePath.t)
  : stage :=
  item_if_exists fs (mirrored_path pair rel) VERSION_SYNCED pair false true.

(** The folder searched for archived copies of [rel], and the pattern. *)
Definition versioning_path_folder (pair : SyncPair) (rel : PurePath.t)
  : PurePath.t :=
  PurePath.parent
    (PurePath.joinpath (PurePath.Path (versioning_folder pair)) rel).

Definition archive_pattern (rel : PurePath.t) : string :=
  let base_name := OsPath.basename (PurePath.str rel) in
  timestamp_pattern base_name (OsPath.splitext base_name).2.

(** The entries of the versioning folder that the pattern matches. *)
Definition matched_entries (fs : FileSystem) (pair : SyncPair)
    (rel : PurePath.t) : list string :=
  List.filter (λ entry, Fnmatch.fnmatch entry (archive_pattern rel))
              (scandir fs (PurePath.str (versioning_path_folder pair rel))).

(** The path of an entry of the versioning folder. *)
Definition entry_path (pair : SyncPair) (rel : PurePath.t) (entry : string)
  : string :=
  PurePath.str (PurePath.make_child_relpath (versioning_path_folder pair rel)
                                            entry).

(** The loop over the matched files: the first item that cannot be built
    ends it. *)
Fixpoint entries_stage (fs : FileSystem) (pair : SyncPair)
    (paths : list string) : stage :=
  match paths with
  | [] => done_
  | p :: rest =>
      and_then (item_if_exists fs p VERSION_HISTORY pair false false)
               (entries_stage fs pair rest)
  end.

Definition archive_stage (fs : FileSystem) (pair : SyncPair)
    (rel : PurePath.t) : stage :=
  if PyStr.truthy (versioning_folder pair) then
    if PyStr.contains "**" (archive_pattern rel) then raised
    else entries_stage fs pair (entry_path pair rel <$> matched_entries fs pair rel)
  else done_.

(** The body for a path that [relative_to] accepts. *)
Definition pair_stage (fs : FileSystem) (file_path : string)
    (pair : SyncPair) (rel : PurePath.t) : stage :=
  and_then (source_stage fs file_path pair)
           (and_then (mirror_stage fs pair rel) (archive_stage fs pair rel)).

(** What one pair adds to [history_data]. *)
Definition emitted (fs : FileSystem) (file_path : string) (pair : SyncPair)
  : list FileHistoryItem :=
  match PurePath.relative_to (PurePath.Path file_path)
                             (PurePath.Path (left_path pair)) with
  | None => []
  | Some rel => (pair_stage fs file_path pair rel).1
  end.

(** A statement does what a stage says: it appends the items, raises the
    flag as given, and returns or raises. *)
Definition does (m : M unit) (g : stage) (flag : bool) : Prop :=
  ∀ st, (m st).1 = after st g.1 flag
        ∧ if g.2 then (m st).2 = inr () else ∃ e, (m st).2 = inl e.

End Effects.

(** ** Sample worlds *)

Module Examples.

Definition lookup_by {A : Type} (key : string) (l : list (string * A))
  : option A :=
  snd <$> List.find (λ kv, bool_decide (kv.1 = key)) l.

(** The times of the years 1 to 9999, which [datetime] represents. *)
Definition in_datetime_range (t : Z) : bool :=
  (-62135596800 <=? t) && (t <? 253402300800).

(** A spelling that asks for a directory: a regular file is not found
    under it. *)
Definition asks_for_directory (p : string) : bool :=
  PyStr.endswith p "/" || PyStr.endswith p "/.".

(** A disk without links: the regular files with their time and size, the
    listings of the folders, the hashes and the configuration trees. As on
    a real disk, a path names the same file however it is spelled, a
    spelling that asks for a directory apart. *)
Definition disk (files : list (string * (Z * Z)))
    (listings : list (string * list string))
    (hashes : list (string * string))
    (configs : list (string * Element)) : FileSystem :=
  let spell p := PurePath.str (PurePath.Path p) in
  let file {A} (p : string) (l : list (string * A)) : option A :=
    if asks_for_directory p then None else lookup_by (spell p) l in
  {| stat p := file p files;
     fromtimestamp_ok := in_datetime_range;
     scandir d := default [] (lookup_by (spell d) listings);
     resolve p := Some (spell p);
     sha256 p := default "" (file p hashes);
     et_parse p := file p configs |}.

(** The pair of the scenario: left [/A], right [/B], versions in [/V]. *)
Definition pair_AB : SyncPair :=
  {| name := "job";
     left_path := "/A";
     right_path := "/B";
     versioning_folder := "/V";
     sync_policy := [];
     include_patterns := [];
     exclude_patterns := [];
     sync_config_path := "/c/job.ffs_batch" |}.

Definition archived_name : string := "doc.txt 2024-01-01 120000.txt".

(** The disk of the scenario: the file, its mirror and one archived copy,
    each with its time and size. *)
Definition scenario_disk (a b v : Z * Z) : FileSystem :=
  disk [("/A/doc.txt", a); ("/B/doc.txt", b); ("/V/" +:+ archived_name, v)]
       [("/A", ["doc.txt"]); ("/B", ["doc.txt"]); ("/V", [archived_name])]
       [("/A/doc.txt", "h1"); ("/B/doc.txt", "h1");
        ("/V/" +:+ archived_name, "h0")]
       [].

Definition scenario_fs : FileSystem := scenario_disk (30, 5) (20, 5) (10, 4).

(** The three items of the scenario. *)
Definition scenario_items (a b v : Z * Z) : list FileHistoryItem :=
  [ Effects.new_item "/A/doc.txt" FileHistory.VERSION_SOURCE pair_AB true true a;
    Effects.new_item "/B/doc.txt" FileHistory.VERSION_SYNCED pair_AB false true b;
    Effects.new_item ("/V/" +:+ archived_name) FileHistory.VERSION_HISTORY
      pair_AB false false v ].

(** The same disk after the mirror has been deleted. *)
Definition scenario_fs_without_mirror : FileSystem :=
  disk [("/A/doc.txt", (30, 5)); ("/V/" +:+ archived_name, (10, 4))]
       [("/A", ["doc.txt"]); ("/B", []); ("/V", [archived_name])]
       [] [].

(** A batch configuration with three [Pair] entries: a complete one, one
    whose [Left] has no text, and one without [Right]. *)
Definition leaf (tag : string) (text : string) : Element :=
  mkElement tag [] (Some text) [].

Definition pair_without_left_text : Element :=
  mkElement "Pair" [] None [mkElement "Left" [] None []; leaf "Right" "/D"].

Definition pair_without_right : Element :=
  mkElement "Pair" [] None [leaf "Left" "/E"].

Definition job_tree : Element :=
  mkElement "FreeFileSync" [("XmlType", "BATCH")] None
    [ mkElement "Synchronize" [] None
        [ mkElement "Changes" [] None
            [ mkElement "Left" [("Create", "right"); ("Update", "right")] None [];
              mkElement "Right" [("Create", "none"); ("Delete", "none")] None [] ];
          leaf "DeletionPolicy" "Versioning";
          mkElement "VersioningFolder" [("Style", "TimeStamp-File")] (Some "/V") [] ];
      mkElement "Filter" [] None
        [ mkElement "Include" [] None [leaf "Item" "*"];
          mkElement "Exclude" [] None
            [leaf "Item" "*.tmp"; mkElement "Item" [] None []] ];
      mkElement "FolderPairs" [] None
        [ mkElement "Pair" [] None
            [ leaf "Left" "/A"; leaf "Right" "/B";
              mkElement "Filter" [] None
                [mkElement "Exclude" [] None [leaf "Item" "*.bak"]] ];
          pair_without_left_text;
          pair_without_right ] ].

Definition config_fs : FileSystem :=
  disk [] [] [] [("/c/job.ffs_batch", job_tree)].

(** Two annotated files with different contents, and the same disk after
    the second file has been overwritten with the contents of the first. *)
Definition remarks_fs : FileSystem :=
  disk [("/A/doc.txt", (30, 5)); ("/A/notes.txt", (40, 7))] []
       [("/A/doc.txt", "h1"); ("/A/notes.txt", "h2")] [].

Definition remarks_fs_overwritten : FileSystem :=
  disk [("/A/doc.txt", (30, 5)); ("/A/notes.txt", (50, 5))] []
       [("/A/doc.txt", "h1"); ("/A/notes.txt", "h1")] [].

Definition two_remarks : Remarks.table :=
  (Remarks.set_remarks remarks_fs 2
     (Remarks.set_remarks remarks_fs 1 [] "/A/doc.txt" "first draft").1
     "/A/notes.txt" " to do ").1.

(** A cache that holds an entry for a file which is gone since. *)
Definition stale_item : FileHistoryItem :=
  Effects.new_item "/A/gone.txt" FileHistory.VERSION_SOURCE pair_AB true true (5, 1).

Definition stale_cache : FileHistory.cache :=
  {[ "/A/gone.txt" := ([stale_item], true) ]}.

End Examples.

(** ** [file_history_model.py]: what the model tells the view *)

Module FileHistoryModel.

(** The fields of the model that the queries read. *)
Record t := {
  current_file : string;
  history_data : list FileHistoryItem;
  sync_pairs : list SyncPair
}.

(** [FileHistoryModel.get_file_history]: has the file a match, has it a
    synced copy, how many versions; and the cache after the call. *)
Definition get_file_history (fs : FileSystem) (c : FileHistory.cache)
    (self : t) (file_path : string) : (bool * bool * nat) * FileHistory.cache :=
  if negb (PathManager.is_valid fs file_path) then ((false, false, 0%nat), c)
  else
    let '((history_data, has_matched), c') :=
      FileHistory.load_file_history fs c file_path (sync_pairs self) in
    let version_count := length history_data in
    let has_sync := existsb is_synced history_data in
    ((has_matched, has_sync, version_count), c').

End FileHistoryModel.

(** ** [sync_config_model.py]: reading the registry *)

Module SyncConfigQueries.

(** [get_sync_pair] for the row of a model index ([None]: an invalid
    index); the [IndexError] of a row past the end is caught. *)
Definition get_sync_pair (self : SyncConfigModel.t) (index : option nat)
  : option SyncPair :=
  match index with
  | None => None
  | Some row =>
      match SyncConfigModel.sync_pairs self with
      | [] => None
      | _ => SyncConfigModel.sync_pairs self !! row
      end
  end.

(** [rowCount] *)
Definition rowCount (self : SyncConfigModel.t) : nat :=
  length (SyncConfigModel.sync_pairs self).

(** [get_all_sync_config_paths]: [list(self.sync_config_paths)], in the
    order the set gives them. *)
Definition get_all_sync_config_paths (self : SyncConfigModel.t) : list string :=
  elements (SyncConfigModel.sync_config_paths self).

End SyncConfigQueries.

(** ** [main_window.py]: the configurations from one run to the next *)

Module MainWindow.

(** [_save_config]: what is stored under [loaded_ffs_configs]. *)
Definition _save_config (sync_config_model : SyncConfigModel.t) : list string :=
  SyncConfigQueries.get_all_sync_config_paths sync_config_model.

(** [_load_config], called by [__init__] on the fresh model: the stored
    paths are added. *)
Definition _load_config (fs : FileSystem) (loaded_ffs_configs : list string)
  : SyncConfigModel.t :=
  (SyncConfigModel.add_configs fs SyncConfigModel.init
     (inr loaded_ffs_configs)).1.

End MainWindow.

(** ** [core_config.py]: attributes and the saved configuration *)

Module CoreConfig.

Section attributes.

Context {V : Type}.

(** [not attr.startswith('_')] *)
Definition is_public (attr : string) : bool := negb (PyStr.startswith attr "_").

(** [_attributes_to_config]: the instance dictionary without the names
    that start with an underscore. *)
Definition _attributes_to_config (self : gmap string V) : gmap string V :=
  filter (λ kv, is_public kv.1 = true) self.

(** [_config_to_attributes]: every key of the configuration is set on the
    object. *)
Definition _config_to_attributes (self config : gmap string V) : gmap string V :=
  config ∪ self.

End attributes.

End CoreConfig.

(** ** What an entry of the parser's history says *)

Module ParserHistory.

Import FFSConfigParser.

(** The entry is the one [_create_history_item] builds for its path. *)
Definition built_from_path (fs : FileSystem) (item : history_dict) : Prop :=
  Os.getmtime fs (d_file_path item) = Some (d_modified_time item)
  ∧ d_file_name item = OsPath.basename (d_file_path item)
  ∧ d_folder_path item = OsPath.dirname (d_file_path item).

(** The entry names the file below [other_base] that lies where
    [file_path] lies below [base]. *)
Definition mirrors (file_path base other_base : string) (item : history_dict)
  : Prop :=
  ∃ relative_path,
    PurePath.relative_to (PurePath.Path file_path) (PurePath.Path base)
      = Some relative_path
    ∧ d_file_path item
      = PurePath.str (PurePath.joinpath (PurePath.Path other_base) relative_path).

(** The three entries a pair can give for the resolved [file_path]. *)
Definition entry_of_pair (fs : FileSystem) (file_path : string)
    (sync_pair : SyncPair) (item : history_dict) : Prop :=
  built_from_path fs item
  ∧ ((d_version item = VERSION_ARCHIVE ∧ d_file_path item = file_path)
     ∨ ∃ left_base right_base,
         resolve fs (left_path sync_pair) = Some left_base
         ∧ resolve fs (right_path sync_pair) = Some right_base
         ∧ ((d_version item = VERSION_RIGHT
             ∧ mirrors file_path left_base right_base item)
            ∨ (d_version item = VERSION_LEFT
               ∧ mirrors file_path right_base left_base item))).

(** Every folder the pair names resolves. *)
Definition resolves (fs : FileSystem) (sync_pair : SyncPair) : Prop :=
  is_Some (resolve fs (left_path sync_pair))
  ∧ is_Some (resolve fs (right_path sync_pair))
  ∧ (PyStr.truthy (versioning_folder sync_pair) = true →
     is_Some (resolve fs (versioning_folder sync_pair))).

End ParserHistory.

(** ** The names of archived copies *)

Module ArchiveName.

(** A character of the set [[0-9]]. *)
Definition is_digit (c : ascii) : bool :=
  Fnmatch.in_range (Utf8.byte c) (48, 57)%N.

Fixpoint all_chars (p : ascii → bool) (s : string) : bool :=
  match s with
  | EmptyString => true
  | String c s' => p c && all_chars p s'
  end.

(** A character that stands for itself in a pattern. *)
Definition plain_char (c : ascii) : bool :=
  negb (Ascii.eqb c "*" || Ascii.eqb c "?" || Ascii.eqb c "[").

(** A string of [n] digits. *)
Definition digits_of (n : nat) (s : string) : Prop :=
  String.length s = n ∧ all_chars is_digit s = true.

(** The name is the file name, a space, the date as [YYYY-MM-DD], a
    space, the time as [hhmmss], and the extension. *)
Definition stamped (name base_name ext : string) : Prop :=
  ∃ date_y date_m date_d time,
    digits_of 4 date_y ∧ digits_of 2 date_m ∧ digits_of 2 date_d
    ∧ digits_of 6 time
    ∧ name = base_name +:+ " " +:+ date_y +:+ "-" +:+ date_m +:+ "-" +:+ date_d
               +:+ " " +:+ time +:+ ext.

(** A character whose code is in the set [[0-9]]. *)
Definition digit_char (c : Utf8.char) : bool := Fnmatch.in_range c.2 (48, 57)%N.

(** The part of the pattern between the file name and the extension. *)
Definition stamp_pattern : string :=
  " " +:+ FileHistory.digits 4 +:+ "-" +:+ FileHistory.digits 2 +:+ "-"
    +:+ FileHistory.digits 2 +:+ " " +:+ FileHistory.digits 6.

End ArchiveName.

(** ** More sample worlds *)

Module MoreExamples.

(** A share that the path manager does not probe: the pair mirrors it, the
    file asked for is not there. *)
Definition pair_share : SyncPair :=
  {| name := "share";
     left_path := "//srv/share";
     right_path := "/B";
     versioning_folder := "/V";
     sync_policy := [];
     include_patterns := [];
     exclude_patterns := [];
     sync_config_path := "/c/share.ffs_batch" |}.

(** A pair whose folders are elsewhere. *)
Definition pair_XY : SyncPair :=
  {| name := "other";
     left_path := "/X";
     right_path := "/Y";
     versioning_folder := "/W";
     sync_policy := [];
     include_patterns := [];
     exclude_patterns := [];
     sync_config_path := "/c/other.ffs_batch" |}.

(** The pairs read from the batch configuration of the examples. *)
Definition job_pairs : list SyncPair :=
  Eval vm_compute in
    default [] (FFSConfigParser.parse_config Examples.config_fs
                  FFSConfigParser.init "/c/job.ffs_batch").2.

Definition job_pair_1 : SyncPair :=
  Eval vm_compute in default Examples.pair_AB (job_pairs !! 0%nat).

Definition job_pair_2 : SyncPair :=
  Eval vm_compute in default Examples.pair_AB (job_pairs !! 1%nat).

(** The registry after the batch configuration of the examples is added. *)
Definition registry_with_job : SyncConfigModel.t :=
  (SyncConfigModel.add_configs Examples.config_fs SyncConfigModel.init
     (inl "/c/job.ffs_batch")).1.

(** The annotated file of the examples, found again under a new name. *)
Definition remarks_fs_moved : FileSystem :=
  Examples.disk [("/A/renamed.txt", (30, 5))] []
    [("/A/renamed.txt", "h1")] [].

Definition one_remark : Remarks.table :=
  (Remarks.set_remarks Examples.remarks_fs 1 [] "/A/doc.txt" "first draft").1.

(** A versioning folder whose listing names a copy that is gone. *)
Definition stale_listing_fs : FileSystem :=
  Examples.disk [("/A/doc.txt", (30, 5))]
    [("/V", [Examples.archived_name; "doc.txt 2023-05-05 101010.txt"])]
    [] [].

End MoreExamples.

(** * Properties *)

(** ** The library models on known values *)

Section library_models.

Example Path_str_values :
  PurePath.str (PurePath.Path "/A//doc.txt") = "/A/doc.txt"
  ∧ PurePath.str (PurePath.Path "//x/y") = "//x/y"
  ∧ PurePath.str (PurePath.Path "///x/./y/") = "/x/y"
  ∧ PurePath.str (PurePath.Path "") = "."
  ∧ PurePath.str (PurePath.parent (PurePath.Path "/V/sub/doc.txt")) = "/V/sub"
  ∧ PurePath.suffix (PurePath.Path "/c/Job.FFS_batch") = ".FFS_batch"
  ∧ PurePath.stem (PurePath.Path "/c/Job.FFS_batch") = "Job".
Proof. repeat split. Qed.

Example relative_to_values :
  PurePath.str <$> PurePath.relative_to (PurePath.Path "/A/sub/doc.txt")
                                        (PurePath.Path "/A") = Some "sub/doc.txt"
  ∧ PurePath.str <$> PurePath.relative_to (PurePath.Path "/A")
                                          (PurePath.Path "/A") = Some "."
  ∧ PurePath.relative_to (PurePath.Path "/A/doc.txt") (PurePath.Path "/B") = None
  ∧ PurePath.relative_to (PurePath.Path "/A/doc.txt") (PurePath.Path "A") = None
  ∧ PurePath.relative_to (PurePath.Path "/A/doc.txt") (PurePath.Path "") = None.
Proof. repeat split. Qed.

Example os_path_values :
  OsPath.basename "/A/doc.txt" = "doc.txt"
  ∧ OsPath.dirname "/A/doc.txt" = "/A"
  ∧ OsPath.dirname "/doc.txt" = "/"
  ∧ OsPath.dirname "doc.txt" = ""
  ∧ OsPath.splitext "doc.txt" = ("doc", ".txt")
  ∧ OsPath.splitext "archive.tar.gz" = ("archive.tar", ".gz")
  ∧ OsPath.splitext ".bashrc" = (".bashrc", "").
Proof. repeat split. Qed.

Example fnmatch_values :
  FileHistory.timestamp_pattern "doc.txt" ".txt"
  = "doc.txt [0-9][0-9][0-9][0-9]-[0-9][0-9]-[0-9][0-9] [0-9][0-9][0-9][0-9][0-9][0-9].txt"
  ∧ Fnmatch.fnmatch "doc.txt 2024-01-01 120000.txt"
      (FileHistory.timestamp_pattern "doc.txt" ".txt") = true
  ∧ Fnmatch.fnmatch "doc 2024-01-01 120000.txt"
      (FileHistory.timestamp_pattern "doc.txt" ".txt") = false
  ∧ Fnmatch.fnmatch "doc.txt 2024-01-01 1200.txt"
      (FileHistory.timestamp_pattern "doc.txt" ".txt") = false
  ∧ Fnmatch.fnmatch "a1c" "a[!a-z]?" = true
  ∧ Fnmatch.fnmatch "abc" "a*c" = true
  ∧ Fnmatch.fnmatch "a[c" "a[c" = true.
Proof. repeat split. Qed.

Example strip_values :
  PyStr.strip "  hello  " = "hello"
  ∧ PyStr.strip "   " = ""
  ∧ PyStr.strip "　" = ""
  ∧ PyStr.strip "　hello　 " = "hello"
  ∧ "　" = PyStr.bytes [227; 128; 128]%nat
  ∧ PyStr.lower ".FFS_Batch" = ".ffs_batch".
Proof. repeat split. Qed.

Example chars_values :
  Utf8.chars "é" = [("é", 233%N)]
  ∧ Utf8.chars "　" = [("　", 12288%N)]
  ∧ Utf8.chars (PyStr.bytes [97; 233; 98]%nat)
    = [("a", 97%N); (PyStr.bytes [233]%nat, 56553%N); ("b", 98%N)]
  ∧ Fnmatch.fnmatch "résumé.txt 2024-01-01 120000.txt" "r?sum*.txt" = true
  ∧ Fnmatch.fnmatch "résumé.txt" "r??sum*.txt" = false
  ∧ Fnmatch.fnmatch "résumé.txt" "r[à-ÿ]sum?.txt" = true.
Proof. repeat split. Qed.

End library_models.

(** ** What one pair emits *)

Section emission.

Import FileHistory Effects.

Lemma after_nil st : after st [] false = st.
Proof. destruct st. unfold after; simpl. by rewrite app_nil_r, orb_false_r. Qed.

Lemma after_after st l1 b1 l2 b2 :
  after (after st l1 b1) l2 b2 = after st (l1 ++ l2) (b1 || b2).
Proof. unfold after; simpl. by rewrite <-app_assoc, orb_assoc. Qed.

Lemma exists_stat fs path : Os.exists_ fs path = true ↔ is_Some (stat fs path).
Proof. unfold Os.exists_. by rewrite bool_decide_eq_true. Qed.

Lemma does_ret : does (mret ()) done_ false.
Proof. intros st. split; [|done]. simpl. by rewrite after_nil. Qed.

(** One statement after the other: the second runs when the first
    returns. *)
Lemma does_bind (m1 m2 : M unit) g1 g2 flag :
  does m1 g1 flag → does m2 g2 false →
  does (m1 ;; m2) (and_then g1 g2) flag.
Proof.
  intros H1 H2 st. unfold mbind, M_bind.
  destruct (H1 st) as [E1 R1]. destruct (m1 st) as [st1 r1]. simpl in *.
  destruct g1 as [l1 [|]]; unfold and_then; simpl in *.
  - subst r1. destruct (H2 st1) as [E2 R2]. split; [|done].
    by rewrite E2, E1, after_after, orb_false_r.
  - destruct R1 as [e ->]. simpl. split; [done | by exists e].
Qed.

(** Building an item and appending it. *)
Lemma does_item fs path v pair src syn :
  does (make_item fs path v pair src syn ≫= append)
       (item_stage fs path v pair src syn) false.
Proof.
  intros st. unfold item_stage, make_item, mbind, M_bind, or_raise,
    Os.getmtime, Os.getsize, Datetime.fromtimestamp.
  destruct (stat fs path) as [[mt sz]|]; simpl.
  - destruct (fromtimestamp_ok fs mt); simpl.
    + split; [|done]. unfold append, after, new_item. simpl.
      by rewrite orb_false_r.
    + split; [by rewrite after_nil | by eexists].
  - split; [by rewrite after_nil | by eexists].
Qed.

(** The same for a path that is probed first. *)
Lemma does_item_if_exists fs path v pair src syn :
  does (if Os.exists_ fs path
        then make_item fs path v pair src syn ≫= append else mret ())
       (item_if_exists fs path v pair src syn) false.
Proof.
  unfold item_if_exists. destruct (Os.exists_ fs path);
    [apply does_item | apply does_ret].
Qed.

Lemma does_for_each fs pair (files : list PurePath.t) :
  does (for_each files (λ versioning_file,
          let p := PurePath.str versioning_file in
          if Os.exists_ fs p then
            make_item fs p VERSION_HISTORY pair false false ≫= append
          else mret ()))
       (entries_stage fs pair (PurePath.str <$> files)) false.
Proof.
  induction files as [|f files IH]; simpl; [apply does_ret|].
  apply does_bind; [apply does_item_if_exists | exact IH].
Qed.

(** The search of the versioning folder. A refused pattern ends the
    body. *)
Lemma does_archive fs pair rel :
  does (if PyStr.truthy (versioning_folder pair) then
          glob fs (versioning_path_folder pair rel) (archive_pattern rel)
            ≫= λ versioning_files,
          for_each versioning_files (λ versioning_file,
            let p := PurePath.str versioning_file in
            if Os.exists_ fs p then
              make_item fs p VERSION_HISTORY pair false false ≫= append
            else mret ())
        else mret ())
       (archive_stage fs pair rel) false.
Proof.
  unfold archive_stage. destruct (PyStr.truthy (versioning_folder pair));
    [|apply does_ret].
  unfold glob. destruct (PyStr.contains "**" (archive_pattern rel)).
  - intros st. split; [by rewrite after_nil | by eexists].
  - intros st. unfold mbind at 1, M_bind at 1. unfold mret at 1, M_ret at 1.
    pose proof (does_for_each fs pair
                  (PurePath.make_child_relpath (versioning_path_folder pair rel)
                     <$> List.filter
                           (λ entry, Fnmatch.fnmatch entry (archive_pattern rel))
                           (scandir fs (PurePath.str
                                          (versioning_path_folder pair rel)))) st)
      as H.
    by rewrite <-list_fmap_compose in H.
Qed.

(** The effect of the loop body, exceptions handled: the items of the
    pair are appended, up to the first that cannot be built, and the flag
    is raised when the test succeeds. *)
Lemma try_pair_effect fs file_path st pair :
  try_pair fs file_path st pair
  = after st (emitted fs file_path pair) (left_match file_path pair).
Proof.
  unfold try_pair, scan_pair, emitted, left_match.
  destruct (PurePath.relative_to _ _) as [rel|] eqn:Hrel; simpl;
    [|by rewrite after_nil].
  unfold mbind at 1, M_bind at 1. unfold mret at 1, M_ret at 1.
  assert (Hsource :
    does (if bool_decide
               (file_path = PurePath.str
                  (PurePath.joinpath (PurePath.Path (left_path pair)) rel))
          then set_has_matched ;;
               (make_item fs file_path VERSION_SOURCE pair true true ≫= append)
          else mret ())
         (source_stage fs file_path pair)
         (bool_decide
            (file_path = PurePath.str
               (PurePath.joinpath (PurePath.Path (left_path pair)) rel)))).
  { unfold source_stage, left_match. rewrite Hrel.
    case_bool_decide; [|apply does_ret].
    intros st'. unfold mbind at 1, M_bind at 1, set_has_matched at 1.
    destruct (does_item fs file_path VERSION_SOURCE pair true true
                {| history_data := history_data st'; has_matched := true |})
      as [E R].
    split; [|exact R]. rewrite E. unfold after. simpl.
    by rewrite orb_true_r. }
  pose proof (does_bind _ _ _ _ _ Hsource
                (does_bind _ _ _ _ _
                   (does_item_if_exists fs (mirrored_path pair rel)
                      VERSION_SYNCED pair false true)
                   (does_archive fs pair rel)) st) as [E _].
  exact E.
Qed.

Lemma scan_from fs file_path pairs st :
  fold_left (try_pair fs file_path) pairs st
  = after st (flat_map (emitted fs file_path) pairs)
             (existsb (left_match file_path) pairs).
Proof.
  revert st. induction pairs as [|p pairs IH]; intros st; simpl.
  - by rewrite after_nil.
  - by rewrite IH, try_pair_effect, after_after.
Qed.

(** The emission order of a scan: pair after pair. *)
Lemma history_data_scan fs file_path pairs :
  history_data (scan fs file_path pairs)
  = flat_map (emitted fs file_path) pairs.
Proof. unfold scan. by rewrite scan_from. Qed.

Lemma has_matched_scan fs file_path pairs :
  has_matched (scan fs file_path pairs) = existsb (left_match file_path) pairs.
Proof. unfold scan. by rewrite scan_from. Qed.

End emission.

(** ** The sort *)

Section sorting.

Import FileHistory.

Lemma insert_desc_perm x l : insert_desc x l ≡ₚ x :: l.
Proof.
  induction l as [|y l IH]; simpl; [done|].
  case_match; [|done]. by rewrite IH, Permutation_swap.
Qed.

Lemma sort_by_time_desc_perm l : sort_by_time_desc l ≡ₚ l.
Proof.
  induction l as [|x l IH]; simpl; [done|].
  by rewrite insert_desc_perm, IH.
Qed.

Lemma insert_desc_sorted x l :
  StronglySorted Spec.newer_or_equal l →
  StronglySorted Spec.newer_or_equal (insert_desc x l).
Proof.
  induction 1 as [|y l Hl IH Hy]; simpl.
  - repeat constructor.
  - destruct (modified_time x <? modified_time y) eqn:Hlt.
    + apply Z.ltb_lt in Hlt. constructor; [done|].
      rewrite insert_desc_perm. constructor; [|done].
      unfold Spec.newer_or_equal. lia.
    + apply Z.ltb_ge in Hlt. constructor; [by constructor|].
      constructor; [done|].
      eapply Forall_impl; [exact Hy|]. unfold Spec.newer_or_equal. lia.
Qed.

Lemma sort_by_time_desc_sorted l :
  StronglySorted Spec.newer_or_equal (sort_by_time_desc l).
Proof.
  induction l as [|x l IH]; simpl; [constructor|].
  by apply insert_desc_sorted.
Qed.

(** Items of one time keep their order: the sort is stable. *)
Lemma at_time_insert_desc t x l :
  Spec.at_time t (insert_desc x l) = Spec.at_time t (x :: l).
Proof.
  induction l as [|y l IH]; simpl; [done|].
  destruct (modified_time x <? modified_time y) eqn:Hlt; [|done].
  apply Z.ltb_lt in Hlt. unfold Spec.at_time in *. simpl in *. rewrite IH.
  repeat case_bool_decide; try done; lia.
Qed.

Lemma at_time_sort_by_time_desc t l :
  Spec.at_time t (sort_by_time_desc l) = Spec.at_time t l.
Proof.
  induction l as [|x l IH]; simpl; [done|].
  rewrite at_time_insert_desc. unfold Spec.at_time in *. simpl.
  by rewrite IH.
Qed.

Lemma at_time_head x l : Spec.at_time (modified_time x) (x :: l)
  = x :: Spec.at_time (modified_time x) l.
Proof. unfold Spec.at_time. simpl. by rewrite bool_decide_eq_true_2. Qed.

Lemma at_time_elem t x l : x ∈ Spec.at_time t l → x ∈ l.
Proof.
  unfold Spec.at_time. intros H. apply list_elem_of_In, filter_In in H as [H _].
  by apply list_elem_of_In.
Qed.

(** Descending order and stability leave no choice: two descending lists
    with the same items at every time, in the same order, are the same
    list. Any stable sort returns what [sort_by_time_desc] returns. *)
Lemma stable_descending_unique l1 l2 :
  StronglySorted Spec.newer_or_equal l1 →
  StronglySorted Spec.newer_or_equal l2 →
  (∀ t, Spec.at_time t l1 = Spec.at_time t l2) →
  l1 = l2.
Proof.
  intros H1. revert l2. induction H1 as [|x l1 Hs1 IH Hx]; intros l2 H2 Heq.
  - destruct l2 as [|y l2]; [done|].
    specialize (Heq (modified_time y)). by rewrite at_time_head in Heq.
  - destruct H2 as [|y l2 Hs2 Hy].
    { specialize (Heq (modified_time x)). by rewrite at_time_head in Heq. }
    assert (modified_time x = modified_time y) as Ht.
    { assert (x ∈ y :: l2) as Hxin.
      { apply (at_time_elem (modified_time x)). rewrite <-Heq, at_time_head.
        by left. }
      assert (y ∈ x :: l1) as Hyin.
      { apply (at_time_elem (modified_time y)). rewrite Heq, at_time_head.
        by left. }
      apply elem_of_cons in Hxin as [->|Hxin]; [done|].
      apply elem_of_cons in Hyin as [->|Hyin]; [done|].
      rewrite Forall_forall in Hx, Hy.
      pose proof (Hx y Hyin). pose proof (Hy x Hxin).
      unfold Spec.newer_or_equal in *. lia. }
    assert (x = y) as ->.
    { pose proof (Heq (modified_time x)) as H.
      rewrite at_time_head, Ht, at_time_head in H. by injection H. }
    f_equal. apply IH; [done|]. intros t. specialize (Heq t).
    unfold Spec.at_time in *. simpl in Heq.
    destruct (bool_decide (modified_time y = t)); [by injection Heq | done].
Qed.

End sorting.

(** ** The cache *)

Section cache.

Import FileHistory.

(** What a call returns when the path is valid and not cached. *)
Lemma load_file_history_miss fs (c : cache) file_path sync_pairs :
  PathManager.is_valid fs file_path = true →
  c !! file_path = None →
  load_file_history fs c file_path sync_pairs
  = let result :=
      (sort_by_time_desc (flat_map (Effects.emitted fs file_path) sync_pairs),
       existsb (Effects.left_match file_path) sync_pairs) in
    (result, <[file_path := result]> c).
Proof.
  intros Hv Hc. unfold load_file_history.
  by rewrite Hv, Hc, history_data_scan, has_matched_scan.
Qed.

Lemma load_file_history_hit fs (c : cache) file_path sync_pairs hit :
  PathManager.is_valid fs file_path = true →
  c !! file_path = Some hit →
  load_file_history fs c file_path sync_pairs = (hit, c).
Proof. intros Hv Hc. unfold load_file_history. by rewrite Hv, Hc. Qed.

(** Every cached entry is the result of a scan of its own path. *)
Lemma reachable_entries (c : cache) :
  reachable c →
  ∀ file_path hit, c !! file_path = Some hit →
    ∃ fs sync_pairs,
      hit = (sort_by_time_desc (flat_map (Effects.emitted fs file_path) sync_pairs),
             existsb (Effects.left_match file_path) sync_pairs).
Proof.
  induction 1 as [|fs c p pairs Hc IH|c p Hc IH]; intros k hit Hk.
  - by rewrite lookup_empty in Hk.
  - unfold load_file_history in Hk.
    destruct (PathManager.is_valid fs p) eqn:Hv; simpl in Hk; [|eauto].
    destruct (c !! p) as [h|] eqn:Hp; simpl in Hk; [eauto|].
    destruct (decide (p = k)) as [->|Hne].
    + rewrite lookup_insert_eq in Hk. inversion Hk; subst.
      rewrite history_data_scan, has_matched_scan. eauto.
    + rewrite lookup_insert_ne in Hk by done. eauto.
  - destruct p as [p|]; simpl in Hk.
    + apply lookup_delete_Some in Hk as [_ Hk]. eauto.
    + by rewrite lookup_empty in Hk.
Qed.

End cache.

(** ** The resolver: missing paths, cache, order *)

Section resolver.

Import FileHistory.

(** C10. A path for which the validity probe of the path manager fails
    gets the empty list and [has_matched = False] at once: the cache is
    neither read (an entry for the path is ignored) nor written, and the
    pairs are not looked at, also when the path is below the left folder of
    one of them. *)
Theorem load_file_history_invalid_path fs (c : cache) file_path sync_pairs :
  PathManager.is_valid fs file_path = false →
  load_file_history fs c file_path sync_pairs = (([], false), c).
Proof. intros Hv. unfold load_file_history. by rewrite Hv. Qed.

Lemma load_file_history_invalid_path_witness :
  PathManager.is_valid Examples.scenario_fs "/A/gone.txt" = false
  ∧ Spec.contains (left_path Examples.pair_AB) "/A/gone.txt" = true
  ∧ Examples.stale_cache !! "/A/gone.txt" = Some ([Examples.stale_item], true)
  ∧ load_file_history Examples.scenario_fs Examples.stale_cache "/A/gone.txt"
      [Examples.pair_AB]
    = (([], false), Examples.stale_cache).
Proof.
  split; [reflexivity|]. split; [reflexivity|]. split; [reflexivity|].
  apply (load_file_history_invalid_path Examples.scenario_fs Examples.stale_cache
           "/A/gone.txt" [Examples.pair_AB]).
  reflexivity.
Defined.

(** C9. The cache memoizes by path. After a call for a path, a second call
    for it returns the same pair and leaves the cache as it is, whatever the
    pairs and the folders have become meanwhile, as long as the path itself
    is as valid as before: the answer comes from the cache, no pair is
    scanned. Clearing the cache for the path removes that entry and no
    other, and the next call for a valid path scans again; clearing it
    without a path empties it. *)
Theorem history_cache_memoizes fs (c : cache) file_path sync_pairs :
  let r1 := (load_file_history fs c file_path sync_pairs).1 in
  let c1 := (load_file_history fs c file_path sync_pairs).2 in
  (∀ fs' sync_pairs',
     PathManager.is_valid fs' file_path = PathManager.is_valid fs file_path →
     load_file_history fs' c1 file_path sync_pairs' = (r1, c1))
  ∧ (∀ q, clear_file_history_cache c1 (Some file_path) !! q
          = if decide (q = file_path) then None else c1 !! q)
  ∧ (∀ fs' sync_pairs',
       PathManager.is_valid fs' file_path = true →
       (load_file_history fs' (clear_file_history_cache c1 (Some file_path))
          file_path sync_pairs').1
       = (sort_by_time_desc (history_data (scan fs' file_path sync_pairs')),
          has_matched (scan fs' file_path sync_pairs')))
  ∧ clear_file_history_cache c1 None = ∅.
Proof.
  simpl. repeat split.
  - intros fs' pairs' Hv. unfold load_file_history. rewrite Hv.
    destruct (PathManager.is_valid fs file_path); simpl; [|done].
    destruct (c !! file_path) as [hit|] eqn:Hc; simpl.
    + by rewrite Hc.
    + by rewrite lookup_insert_eq.
  - intros q. simpl. case_decide as Hq.
    + subst q. apply lookup_delete_eq.
    + by apply lookup_delete_ne.
  - intros fs' pairs' Hv. unfold load_file_history at 1. rewrite Hv. simpl.
    by rewrite lookup_delete_eq.
Qed.

Lemma history_cache_memoizes_witness :
  let first := load_file_history Examples.scenario_fs ∅ "/A/doc.txt"
                 [Examples.pair_AB] in
  PathManager.is_valid Examples.scenario_fs_without_mirror "/A/doc.txt"
  = PathManager.is_valid Examples.scenario_fs "/A/doc.txt"
  ∧ load_file_history Examples.scenario_fs_without_mirror first.2 "/A/doc.txt" []
    = (first.1, first.2).
Proof.
  split; [reflexivity|].
  apply (history_cache_memoizes Examples.scenario_fs ∅ "/A/doc.txt"
           [Examples.pair_AB]).
  reflexivity.
Defined.

(** C4. The list a call returns is in descending order of modification
    time, and it is the stable arrangement of what the scan emitted, pair
    after pair: the same items, those of one time in their emission order,
    and no other list is descending and keeps that order. The scan is the
    one of this call when the path is not cached, and the one of the call
    that filled the entry otherwise. *)
Theorem load_file_history_sorted_stable fs (c : cache) file_path sync_pairs :
  reachable c →
  let items := (load_file_history fs c file_path sync_pairs).1.1 in
  ∃ fs' sync_pairs',
    let emitted :=
      if PathManager.is_valid fs file_path
      then flat_map (Effects.emitted fs' file_path) sync_pairs' else [] in
    (c !! file_path = None → fs' = fs ∧ sync_pairs' = sync_pairs)
    ∧ StronglySorted Spec.newer_or_equal items
    ∧ items ≡ₚ emitted
    ∧ (∀ t, Spec.at_time t items = Spec.at_time t emitted)
    ∧ ∀ l, StronglySorted Spec.newer_or_equal l →
           (∀ t, Spec.at_time t l = Spec.at_time t emitted) → l = items.
Proof.
  intros Hreach. simpl.
  assert (Hsort : ∀ emitted,
    StronglySorted Spec.newer_or_equal (sort_by_time_desc emitted)
    ∧ sort_by_time_desc emitted ≡ₚ emitted
    ∧ (∀ t, Spec.at_time t (sort_by_time_desc emitted) = Spec.at_time t emitted)
    ∧ ∀ l, StronglySorted Spec.newer_or_equal l →
           (∀ t, Spec.at_time t l = Spec.at_time t emitted) →
           l = sort_by_time_desc emitted).
  { intros emitted. split; [apply sort_by_time_desc_sorted|].
    split; [apply sort_by_time_desc_perm|].
    split; [intros t; apply at_time_sort_by_time_desc|].
    intros l Hl Heq. apply stable_descending_unique;
      [done | apply sort_by_time_desc_sorted |].
    intros t. by rewrite Heq, at_time_sort_by_time_desc. }
  destruct (PathManager.is_valid fs file_path) eqn:Hv.
  - destruct (c !! file_path) as [hit|] eqn:Hc.
    + rewrite (load_file_history_hit fs c file_path sync_pairs hit Hv Hc).
      destruct (reachable_entries c Hreach file_path hit Hc)
        as (fs' & pairs' & ->).
      exists fs', pairs'. simpl. split; [done|]. apply Hsort.
    + rewrite (load_file_history_miss fs c file_path sync_pairs Hv Hc).
      exists fs, sync_pairs. simpl. split; [done|]. apply Hsort.
  - unfold load_file_history. rewrite Hv.
    exists fs, sync_pairs. simpl. split; [done|]. apply (Hsort []).
Qed.

Lemma load_file_history_sorted_stable_witness :
  reachable ∅
  ∧ ∃ fs' sync_pairs',
      let items := (load_file_history Examples.scenario_fs ∅ "/A/doc.txt"
                      [Examples.pair_AB]).1.1 in
      let emitted :=
        if PathManager.is_valid Examples.scenario_fs "/A/doc.txt"
        then flat_map (Effects.emitted fs' "/A/doc.txt") sync_pairs' else [] in
      ((∅ : cache) !! "/A/doc.txt" = None
         → fs' = Examples.scenario_fs ∧ sync_pairs' = [Examples.pair_AB])
      ∧ StronglySorted Spec.newer_or_equal items
      ∧ items ≡ₚ emitted
      ∧ (∀ t, Spec.at_time t items = Spec.at_time t emitted)
      ∧ ∀ l, StronglySorted Spec.newer_or_equal l →
             (∀ t, Spec.at_time t l = Spec.at_time t emitted) → l = items.
Proof.
  split; [constructor|].
  apply (load_file_history_sorted_stable Examples.scenario_fs ∅ "/A/doc.txt"
           [Examples.pair_AB]).
  constructor.
Defined.

End resolver.

(** ** The registry *)

Section registry.

Import SyncConfigModel.

Lemma SyncPair_eq_spec a b :
  SyncPair_eq a b = true ↔ sync_config_path a = sync_config_path b.
Proof. unfold SyncPair_eq. by rewrite bool_decide_eq_true. Qed.

Lemma SyncPair_in_spec x l :
  SyncPair_in x l = true ↔ sync_config_path x ∈ sync_config_path <$> l.
Proof.
  unfold SyncPair_in. rewrite existsb_exists, list_elem_of_fmap. split.
  - intros (y & Hy & Heq). apply SyncPair_eq_spec in Heq.
    exists y. split; [done|]. by apply list_elem_of_In.
  - intros (y & Heq & Hy). exists y. split; [by apply list_elem_of_In|].
    by apply SyncPair_eq_spec.
Qed.

Lemma SyncPair_in_false x l :
  SyncPair_in x l = false ↔ sync_config_path x ∉ sync_config_path <$> l.
Proof.
  rewrite <-SyncPair_in_spec. destruct (SyncPair_in x l); naive_solver.
Qed.

(** The inner loop keeps the config paths distinct. *)
Lemma add_pairs_distinct registered new :
  Spec.distinct_config_paths registered →
  Spec.distinct_config_paths (add_pairs registered new).
Proof.
  unfold add_pairs, Spec.distinct_config_paths.
  revert registered. induction new as [|x new IH]; intros reg Hreg; simpl; [done|].
  apply IH. destruct (SyncPair_in x reg) eqn:Hin; [done|].
  apply SyncPair_in_false in Hin.
  rewrite fmap_app. simpl. apply NoDup_app. split; [done|].
  split; [|apply NoDup_singleton].
  intros p Hp Hp'. apply list_elem_of_singleton in Hp'. by subst.
Qed.

(** It only appends. *)
Lemma add_pairs_grows registered new :
  ∃ added, add_pairs registered new = registered ++ added.
Proof.
  unfold add_pairs. revert registered.
  induction new as [|x new IH]; intros reg; simpl.
  - exists []. by rewrite app_nil_r.
  - destruct (SyncPair_in x reg).
    + apply IH.
    + destruct (IH (reg ++ [x])) as [added ->].
      exists (x :: added). by rewrite <-app_assoc.
Qed.

(** Pairs whose config paths are all registered change nothing. *)
Lemma add_pairs_covered registered new :
  (∀ x, x ∈ new → sync_config_path x ∈ sync_config_path <$> registered) →
  add_pairs registered new = registered.
Proof.
  unfold add_pairs. induction new as [|x new IH]; intros Hcov; simpl; [done|].
  assert (SyncPair_in x registered = true) as ->.
  { apply SyncPair_in_spec, Hcov. by left. }
  apply IH. intros y Hy. apply Hcov. by right.
Qed.

(** After the loop, the config path of every pair offered is registered. *)
Lemma add_pairs_covers registered new x :
  x ∈ new →
  sync_config_path x ∈ sync_config_path <$> add_pairs registered new.
Proof.
  unfold add_pairs. revert registered.
  induction new as [|y new IH]; intros reg Hx; [by apply elem_of_nil in Hx|].
  simpl. apply elem_of_cons in Hx as [->|Hx]; [|by apply IH].
  destruct (add_pairs_grows (if SyncPair_in y reg then reg else reg ++ [y]) new)
    as [added Hadd].
  unfold add_pairs in Hadd. rewrite Hadd, fmap_app. apply elem_of_app. left.
  destruct (SyncPair_in y reg) eqn:Hin.
  - by apply SyncPair_in_spec.
  - rewrite fmap_app. apply elem_of_app. right. simpl. by left.
Qed.

(** Every pair read from a file carries the path of that file. *)
Lemma pairs_of_tree_config_path config_path root x :
  x ∈ FFSConfigParser.pairs_of_tree config_path root →
  sync_config_path x = config_path.
Proof.
  unfold FFSConfigParser.pairs_of_tree. intros Hx.
  apply list_elem_of_omap in Hx as (pair & _ & Hx).
  repeat case_match; by simplify_eq.
Qed.

(** One turn of the outer loop, spelled out. *)
Lemma add_one_spec fs registered config_path :
  add_one fs registered config_path
  = match create_parser config_path, et_parse fs config_path with
    | Some _, Some root =>
        (add_pairs registered (FFSConfigParser.pairs_of_tree config_path root),
         true)
    | _, _ => (registered, false)
    end.
Proof.
  unfold add_one, FFSConfigParser.parse_config.
  destruct (create_parser config_path); [|done].
  by destruct (et_parse fs config_path).
Qed.

Lemma add_one_distinct fs registered config_path :
  Spec.distinct_config_paths registered →
  Spec.distinct_config_paths (add_one fs registered config_path).1.
Proof.
  intros H. rewrite add_one_spec. repeat case_match; simpl; try done.
  by apply add_pairs_distinct.
Qed.

Lemma add_one_grows fs registered config_path :
  ∃ added, (add_one fs registered config_path).1 = registered ++ added.
Proof.
  rewrite add_one_spec. repeat case_match; simpl;
    try (exists []; by rewrite app_nil_r).
  apply add_pairs_grows.
Qed.

(** Once a file has been added, adding it again to the registry, or to a
    larger one, changes nothing and reports the same. *)
Lemma add_one_again fs registered config_path larger :
  (∀ p, p ∈ sync_config_path <$> (add_one fs registered config_path).1 →
        p ∈ sync_config_path <$> larger) →
  add_one fs larger config_path
  = (larger, (add_one fs registered config_path).2).
Proof.
  rewrite !add_one_spec. intros Hsub.
  destruct (create_parser config_path); [|done].
  destruct (et_parse fs config_path) as [root|]; [|done]. simpl in *.
  f_equal. apply add_pairs_covered. intros x Hx.
  apply Hsub. by apply add_pairs_covers.
Qed.

Lemma add_loop_distinct fs registered config_paths :
  Spec.distinct_config_paths registered →
  Spec.distinct_config_paths (add_loop fs registered config_paths).1.
Proof.
  revert registered. induction config_paths as [|p l IH]; intros reg H; [done|].
  simpl. pose proof (add_one_distinct fs reg p H) as H1.
  destruct (add_one fs reg p) as [reg1 ok]. simpl in H1.
  specialize (IH reg1 H1). by destruct (add_loop fs reg1 l).
Qed.

Lemma add_loop_grows fs registered config_paths :
  ∃ added, (add_loop fs registered config_paths).1 = registered ++ added.
Proof.
  revert registered. induction config_paths as [|p l IH]; intros reg; simpl.
  - exists []. by rewrite app_nil_r.
  - destruct (add_one_grows fs reg p) as [a1 H1].
    destruct (add_one fs reg p) as [reg1 ok]. simpl in H1. subst reg1.
    destruct (IH (reg ++ a1)) as [a2 H2].
    destruct (add_loop fs (reg ++ a1) l) as [reg2 oks]. simpl in *. subst.
    exists (a1 ++ a2). by rewrite app_assoc.
Qed.

Lemma add_loop_again fs registered config_paths larger :
  (∀ p, p ∈ sync_config_path <$> (add_loop fs registered config_paths).1 →
        p ∈ sync_config_path <$> larger) →
  add_loop fs larger config_paths
  = (larger, (add_loop fs registered config_paths).2).
Proof.
  revert registered. induction config_paths as [|p l IH]; intros reg Hsub; [done|].
  simpl in *.
  destruct (add_one fs reg p) as [reg1 ok] eqn:H1.
  destruct (add_loop_grows fs reg1 l) as [a2 H2].
  destruct (add_loop fs reg1 l) as [reg2 oks] eqn:Hl. simpl in *. subst reg2.
  rewrite (add_one_again fs reg p larger).
  - rewrite H1. simpl. rewrite (IH reg1).
    + by rewrite Hl.
    + rewrite Hl. simpl. done.
  - rewrite H1. simpl. intros q Hq. apply Hsub.
    rewrite fmap_app. apply elem_of_app. by left.
Qed.

Lemma reachable_distinct self :
  reachable self → Spec.distinct_config_paths (sync_pairs self).
Proof.
  induction 1 as [|fs self paths _ IH|self index self' _ IH Hrm].
  - apply NoDup_nil_2.
  - unfold add_configs.
    pose proof (add_loop_distinct fs (sync_pairs self)
                  (match paths with inl p => [p] | inr l => l end) IH) as H.
    by destruct (add_loop fs _ _).
  - unfold remove_config in Hrm. destruct index as [row|]; [|by simplify_eq].
    destruct (sync_pairs self) as [|x l] eqn:Hl; [by simplify_eq; rewrite Hl|].
    case_match; [|done]. simplify_eq. simpl.
    unfold Spec.distinct_config_paths in *.
    eapply sublist_NoDup; [exact IH|].
    apply fmap_sublist. apply sublist_delete.
Qed.

(** C6. Adding the same configuration paths a second time changes nothing:
    the registry after the second call is the registry after the first,
    and the same paths are reported as read. Equality of sync pairs is
    equality of their config paths, a pair equal to a registered one is not
    appended, and so no registry that the model can reach holds two pairs
    with the same config path. *)
Theorem add_configs_idempotent fs self config_paths :
  reachable self →
  let once := add_configs fs self config_paths in
  add_configs fs once.1 config_paths = once
  ∧ Spec.distinct_config_paths (sync_pairs self)
  ∧ Spec.distinct_config_paths (sync_pairs once.1)
  ∧ (∀ a b, SyncPair_eq a b = true ↔ sync_config_path a = sync_config_path b)
  ∧ (∀ x registered, SyncPair_in x registered = true →
                     add_pairs registered [x] = registered).
Proof.
  intros Hreach. simpl. split; [|split; [|split; [|split]]].
  - unfold add_configs.
    set (l := match config_paths with inl p => [p] | inr l => l end).
    destruct (add_loop fs (sync_pairs self) l) as [reg oks] eqn:Hl. simpl.
    rewrite (add_loop_again fs (sync_pairs self) l reg) by (by rewrite Hl).
    rewrite Hl. simpl. f_equal.
    f_equal. by rewrite <-(assoc_L (∪)), (idemp_L (∪)).
  - by apply reachable_distinct.
  - apply reachable_distinct. by constructor.
  - apply SyncPair_eq_spec.
  - intros x reg Hin. unfold add_pairs. simpl. by rewrite Hin.
Qed.

End registry.

Lemma add_configs_idempotent_witness :
  SyncConfigModel.reachable SyncConfigModel.init
  ∧ let once := SyncConfigModel.add_configs Examples.config_fs
                  SyncConfigModel.init (inl "/c/job.ffs_batch") in
    SyncConfigModel.add_configs Examples.config_fs once.1
      (inl "/c/job.ffs_batch") = once
    ∧ Spec.distinct_config_paths
        (SyncConfigModel.sync_pairs SyncConfigModel.init)
    ∧ Spec.distinct_config_paths (SyncConfigModel.sync_pairs once.1)
    ∧ (∀ a b, SyncPair_eq a b = true ↔ sync_config_path a = sync_config_path b)
    ∧ (∀ x registered, SyncPair_in x registered = true →
                       SyncConfigModel.add_pairs registered [x] = registered).
Proof.
  split; [constructor|].
  apply (add_configs_idempotent Examples.config_fs SyncConfigModel.init
           (inl "/c/job.ffs_batch")).
  constructor.
Defined.

(** ** Reading a configuration *)

Section parsing.

Import FFSConfigParser.

Lemma kept_pairs_sides (f : Element → option SyncPair) (l : list Element) :
  (∀ e, match ET.find e "Left", ET.find e "Right" with
        | Some a, Some b =>
            ∃ p, f e = Some p ∧ left_path p = ET.text_or_empty a
                 ∧ right_path p = ET.text_or_empty b
        | _, _ => f e = None
        end) →
  (λ p, (left_path p, right_path p)) <$> omap f l
  = (λ e, (Spec.side_or_empty e "Left", Spec.side_or_empty e "Right"))
      <$> List.filter Spec.has_both_sides l.
Proof.
  intros Hf. induction l as [|e l IH]; [done|]. cbn [omap list_omap List.filter].
  specialize (Hf e). unfold Spec.has_both_sides at 1.
  destruct (ET.find e "Left") as [a|] eqn:Ha, (ET.find e "Right") as [b|] eqn:Hb;
    simpl.
  - destruct Hf as (p & -> & Hl & Hr). simpl.
    unfold Spec.side_or_empty at 1 2. rewrite Ha, Hb. simpl.
    f_equal; [by rewrite Hl, Hr | apply IH].
  - rewrite Hf. apply IH.
  - rewrite Hf. apply IH.
  - rewrite Hf. apply IH.
Qed.

(** C5, as the code has it. A [Pair] entry is skipped, without error,
    when its [Left] or its [Right] child is missing; an entry that has both
    children is kept, a child without text giving the empty path. A file
    that cannot be read or is not well-formed makes [parse_config] return
    [None]: no exception leaves it, and the parser object is as before. *)
Theorem parse_config_skips_and_fails_softly fs self config_path :
  match et_parse fs config_path with
  | None => parse_config fs self config_path = (self, None)
  | Some root =>
      ∃ pairs,
        parse_config fs self config_path
          = ({| sync_pairs := pairs |}, Some pairs)
        ∧ (λ p, (left_path p, right_path p)) <$> pairs
          = (λ e, (Spec.side_or_empty e "Left", Spec.side_or_empty e "Right"))
              <$> List.filter Spec.has_both_sides
                    (ET.findall_below root "FolderPairs" "Pair")
  end.
Proof.
  unfold parse_config. destruct (et_parse fs config_path) as [root|]; [|done].
  eexists. split; [done|]. unfold pairs_of_tree.
  apply kept_pairs_sides. intros e.
  destruct (ET.find e "Left") as [a|], (ET.find e "Right") as [b|]; eauto.
Qed.

(** C5, as stated, fails: the entry whose [Left] has no text is not
    skipped, it becomes a pair with the empty left path. *)
Lemma parse_config_keeps_pair_without_text :
  Spec.side_text Examples.pair_without_left_text "Left" = None
  ∧ (left_path <$>
       default [] (parse_config Examples.config_fs init "/c/job.ffs_batch").2)
    = ["/A"; ""]
  ∧ ¬ Spec.skips_pairs_without_text Examples.config_fs "/c/job.ffs_batch".
Proof.
  split; [reflexivity|]. split; [reflexivity|].
  intros H. specialize (H Examples.job_tree _ eq_refl eq_refl).
  vm_compute in H. lia.
Qed.

End parsing.

(** ** The remarks table *)

Section remarks_table.

Import Remarks.

Lemma update_first_None p f (l : table) :
  update_first p f l = None ↔ List.find p l = None.
Proof.
  induction l as [|r l IH]; simpl; [done|].
  destruct (p r); [done|]. rewrite fmap_None. done.
Qed.

Lemma remove_first_None p (l : table) :
  remove_first p l = None ↔ List.find p l = None.
Proof.
  induction l as [|r l IH]; simpl; [done|].
  destruct (p r); [done|]. rewrite fmap_None. done.
Qed.

(** The row changed is the first that satisfies the test. *)
Lemma update_first_Some p f (l l' : table) :
  update_first p f l = Some l' →
  ∃ l1 r l2, l = l1 ++ r :: l2 ∧ l' = l1 ++ f r :: l2
             ∧ p r = true ∧ List.find p l1 = None ∧ List.find p l = Some r.
Proof.
  revert l'. induction l as [|x l IH]; intros l' H; simpl in *; [done|].
  destruct (p x) eqn:Hx.
  - injection H as <-. exists [], x, l. simpl. by rewrite Hx.
  - apply fmap_Some in H as (l'' & H & ->).
    destruct (IH _ H) as (l1 & r & l2 & -> & -> & Hr & Hn & Hf).
    exists (x :: l1), r, l2. simpl. by rewrite Hx.
Qed.

Lemma remove_first_Some p (l l' : table) :
  remove_first p l = Some l' →
  ∃ l1 r l2, l = l1 ++ r :: l2 ∧ l' = l1 ++ l2
             ∧ p r = true ∧ List.find p l1 = None.
Proof.
  revert l'. induction l as [|x l IH]; intros l' H; simpl in *; [done|].
  destruct (p x) eqn:Hx.
  - injection H as <-. by exists [], x, l.
  - apply fmap_Some in H as (l'' & H & ->).
    destruct (IH _ H) as (l1 & r & l2 & -> & -> & Hr & Hn).
    exists (x :: l1), r, l2. simpl. by rewrite Hx.
Qed.

Lemma find_app_None {A} (p : A → bool) l1 l2 :
  List.find p l1 = None → List.find p (l1 ++ l2) = List.find p l2.
Proof.
  induction l1 as [|x l1 IH]; simpl; [done|]. by destruct (p x).
Qed.

Lemma find_path_None np (l : table) :
  List.find (path_is np) l = None ↔ np ∉ file_path <$> l.
Proof.
  induction l as [|r l IH]; simpl.
  - split; [intros _ H; by apply elem_of_nil in H | done].
  - unfold path_is at 1. rewrite not_elem_of_cons, <-IH.
    case_bool_decide as Hr.
    + split; [done | by intros [Hne _]].
    + split; [by intros H; split; [congruence|] | by intros [_ H]].
Qed.

(** The writers keep the paths of the rows distinct. *)
Lemma set_remarks_distinct fs now db path text :
  Spec.distinct_paths db →
  Spec.distinct_paths (set_remarks fs now db path text).1.
Proof.
  unfold Spec.distinct_paths. intros Hnd.
  assert (Hdel : NoDup (file_path <$> (delete_remarks fs db path).1)).
  { unfold delete_remarks. destruct (_normalize_path fs path) as [np|]; [|done].
    assert (∀ p l', remove_first p db = Some l' → NoDup (file_path <$> l')) as Hrm.
    { intros p l' (l1 & r & l2 & -> & -> & _)%remove_first_Some.
      eapply sublist_NoDup; [exact Hnd|].
      apply fmap_sublist, sublist_app; [done|]. by apply sublist_cons. }
    destruct (remove_first (path_is np) db) eqn:H1; simpl; [eauto|].
    case_match; [|done].
    destruct (remove_first (hash_is _) db) eqn:H2; simpl; eauto. }
  unfold set_remarks. case_match; [done|].
  destruct (_normalize_path fs path) as [np|]; [|done].
  destruct (update_first (path_is np) _ db) as [db'|] eqn:H1; simpl.
  { apply update_first_Some in H1 as (l1 & r & l2 & -> & -> & _).
    by rewrite fmap_app in *. }
  apply update_first_None, find_path_None in H1.
  destruct (if PyStr.truthy (sha256 fs path) then _ else None)
    as [db'|] eqn:H2; simpl.
  - case_match; [|done].
    apply update_first_Some in H2 as (l1 & r & l2 & -> & -> & _).
    rewrite fmap_app in *. simpl in *.
    apply NoDup_app in Hnd as (Hl1 & Hdisj & Hl2).
    apply NoDup_cons in Hl2 as [Hr Hl2].
    rewrite elem_of_app, elem_of_cons in H1.
    apply NoDup_app. split; [done|]. split.
    + intros q Hq [->|Hq']%elem_of_cons; [naive_solver|].
      apply (Hdisj q Hq). by right.
    + apply NoDup_cons. naive_solver.
  - rewrite fmap_app. simpl. apply NoDup_app. split; [done|].
    split; [|apply NoDup_singleton].
    intros q Hq ->%list_elem_of_singleton. done.
Qed.

Lemma delete_remarks_distinct fs db path :
  Spec.distinct_paths db → Spec.distinct_paths (delete_remarks fs db path).1.
Proof.
  intros H. pose proof (set_remarks_distinct fs 0 db path "" H) as H'.
  exact H'.
Qed.

Lemma reachable_distinct_paths db : reachable db → Spec.distinct_paths db.
Proof.
  induction 1.
  - apply NoDup_nil_2.
  - by apply set_remarks_distinct.
  - by apply delete_remarks_distinct.
Qed.

End remarks_table.

Section remarks_claims.

Import Remarks.

Lemma find_app_None_inv {A} (p : A → bool) l1 l2 :
  List.find p (l1 ++ l2) = None → List.find p l1 = None ∧ List.find p l2 = None.
Proof.
  induction l1 as [|x l1 IH]; simpl; [done|]. by destruct (p x).
Qed.

(** After a successful [set_remarks] with a text that is not blank, the
    row found by path carries the trimmed text. *)
Lemma find_after_set fs now db path text np :
  _normalize_path fs path = Some np →
  PyStr.truthy (PyStr.strip text) = true →
  remarks <$> List.find (path_is np) (set_remarks fs now db path text).1
  = Some (PyStr.strip text).
Proof.
  intros Hnp Htext. unfold set_remarks. rewrite Htext, Hnp. simpl.
  destruct (update_first (path_is np) _ db) as [db'|] eqn:H1; simpl.
  { apply update_first_Some in H1 as (l1 & r & l2 & Hdb & Hdb' & Hr & Hn & _).
    subst. rewrite find_app_None by done. simpl.
    unfold path_is in *. simpl. by rewrite Hr. }
  apply update_first_None in H1.
  destruct (if PyStr.truthy (sha256 fs path) then _ else None)
    as [db'|] eqn:H2; simpl.
  - case_match; [|done].
    apply update_first_Some in H2 as (l1 & r & l2 & Hdb & Hdb' & _).
    subst. apply find_app_None_inv in H1 as [H1 _].
    rewrite find_app_None by done. simpl.
    unfold path_is. simpl. by rewrite bool_decide_eq_true_2.
  - rewrite find_app_None by done. simpl.
    unfold path_is. simpl. by rewrite bool_decide_eq_true_2.
Qed.

Lemma get_remarks_by_path fs db path np r :
  _normalize_path fs path = Some np →
  List.find (path_is np) db = Some r →
  get_remarks fs db path = remarks r.
Proof.
  intros Hnp Hr. unfold get_remarks, get_remarks_record. by rewrite Hnp, Hr.
Qed.

Lemma get_remarks_by_hash fs db path np :
  _normalize_path fs path = Some np →
  List.find (path_is np) db = None →
  get_remarks fs db path = Spec.text_by_hash fs db path.
Proof.
  intros Hnp Hr. unfold get_remarks, get_remarks_record, Spec.text_by_hash.
  rewrite Hnp, Hr. destruct (PyStr.truthy (sha256 fs path)); [|done].
  by destruct (List.find (hash_is _) db).
Qed.

(** After [delete_remarks] no row has the path, if no two rows had it. *)
Lemma no_path_after_delete fs db path np :
  Spec.distinct_paths db →
  _normalize_path fs path = Some np →
  np ∉ file_path <$> (delete_remarks fs db path).1.
Proof.
  unfold Spec.distinct_paths, delete_remarks. intros Hnd ->.
  destruct (remove_first (path_is np) db) as [db'|] eqn:H1; simpl.
  - apply remove_first_Some in H1 as (l1 & r & l2 & Hdb & Hdb' & Hr & _).
    subst. unfold path_is in Hr. apply bool_decide_eq_true in Hr.
    rewrite fmap_app in *. simpl in Hnd.
    apply NoDup_app in Hnd as (_ & Hdisj & Hl2).
    apply NoDup_cons in Hl2 as [Hnr _].
    rewrite elem_of_app. intros [H|H]; [|by rewrite <-Hr in H].
    apply (Hdisj _ H). rewrite Hr. by left.
  - apply remove_first_None, find_path_None in H1.
    case_match; [|done].
    destruct (remove_first (hash_is _) db) as [db'|] eqn:H2; simpl; [|done].
    apply remove_first_Some in H2 as (l1 & r & l2 & Hdb & Hdb' & _). subst.
    rewrite fmap_app in *. simpl in H1.
    rewrite elem_of_app, elem_of_cons in H1. rewrite elem_of_app. tauto.
Qed.

(** The value [delete_remarks] returns: [True] when a row has the path,
    and also whenever the file can be hashed. *)
Lemma delete_remarks_value fs db path np :
  _normalize_path fs path = Some np →
  (delete_remarks fs db path).2
  = bool_decide (is_Some (List.find (path_is np) db))
    || PyStr.truthy (sha256 fs path).
Proof.
  intros Hnp. unfold delete_remarks. rewrite Hnp.
  destruct (remove_first (path_is np) db) as [db'|] eqn:H1; simpl.
  - destruct (List.find (path_is np) db) eqn:Hf; [done|].
    apply remove_first_None in Hf. congruence.
  - apply remove_first_None in H1. rewrite H1. simpl.
    destruct (PyStr.truthy (sha256 fs path)); [|done].
    by destruct (remove_first (hash_is _) db).
Qed.

(** C7, where the code departs from it. When no row has the path of the
    file and no row has its hash, and the file can be hashed,
    [delete_remarks] removes nothing and returns [True]: the value
    returned does not tell whether a row was removed. *)
Theorem delete_remarks_true_without_removal fs db path np :
  _normalize_path fs path = Some np →
  List.find (path_is np) db = None →
  PyStr.truthy (sha256 fs path) = true →
  List.find (hash_is (sha256 fs path)) db = None →
  delete_remarks fs db path = (db, true).
Proof.
  intros Hnp Hpath Hhash Hrow. unfold delete_remarks. rewrite Hnp, Hhash.
  apply remove_first_None in Hpath. apply remove_first_None in Hrow.
  by rewrite Hpath, Hrow.
Qed.

Lemma delete_remarks_true_without_removal_witness :
  delete_remarks Examples.remarks_fs [] "/A/doc.txt" = ([], true).
Proof.
  apply (delete_remarks_true_without_removal Examples.remarks_fs []
           "/A/doc.txt" "/A/doc.txt"); reflexivity.
Defined.

Lemma get_remarks_working fs db path :
  FileRemarksManager.get_remarks FileRemarksManager.Working fs db path
  = get_remarks fs db path.
Proof. reflexivity. Qed.

(** C8, as the code has it. When [set_remarks] with ["hello"] returns
    [True], a [get_remarks] whose session works returns ["hello"]; a text
    that is blank once trimmed makes [set_remarks] the same as
    [delete_remarks]; when [set_remarks] with [""] returns [True], no row
    has the path, and [get_remarks] returns what its hash fallback finds,
    the text of the first row with the hash of the file, the empty string
    when there is none. *)
Theorem remarks_set_then_get s fs now db path :
  reachable db →
  ((FileRemarksManager.set_remarks s fs now db path "hello").2 = true →
   FileRemarksManager.get_remarks FileRemarksManager.Working fs
     (FileRemarksManager.set_remarks s fs now db path "hello").1 path
   = "hello")
  ∧ (∀ text, PyStr.strip text = "" →
       FileRemarksManager.set_remarks s fs now db path text
       = FileRemarksManager.delete_remarks s fs db path)
  ∧ ((FileRemarksManager.set_remarks s fs now db path "").2 = true →
     ∃ np,
       _normalize_path fs path = Some np
       ∧ (np ∉ file_path
                 <$> (FileRemarksManager.set_remarks s fs now db path "").1)
       ∧ FileRemarksManager.get_remarks FileRemarksManager.Working fs
           (FileRemarksManager.set_remarks s fs now db path "").1 path
         = Spec.text_by_hash fs
             (FileRemarksManager.set_remarks s fs now db path "").1 path).
Proof.
  intros Hreach. rewrite !get_remarks_working.
  destruct s; unfold FileRemarksManager.set_remarks,
    FileRemarksManager.delete_remarks; [|by repeat split].
  split; [|split].
  - destruct (_normalize_path fs path) as [np|] eqn:Hnp.
    + intros _.
      pose proof (find_after_set fs now db path "hello" np Hnp eq_refl) as H.
      apply fmap_Some in H as (r & Hr & Hhello).
      rewrite (get_remarks_by_path fs _ path np r Hnp Hr). done.
    + unfold set_remarks at 1. by rewrite Hnp.
  - intros text Htext. unfold set_remarks. by rewrite Htext.
  - change (set_remarks fs now db path "") with (delete_remarks fs db path).
    destruct (_normalize_path fs path) as [np|] eqn:Hnp.
    + intros _. exists np. split; [done|].
      assert (np ∉ file_path <$> (delete_remarks fs db path).1) as Hgone.
      { apply no_path_after_delete; [|done]. by apply reachable_distinct_paths. }
      split; [done|].
      apply (get_remarks_by_hash fs _ path np Hnp). by apply find_path_None.
    + unfold delete_remarks at 1. by rewrite Hnp.
Qed.

Lemma remarks_set_then_get_witness :
  reachable Examples.two_remarks
  ∧ (FileRemarksManager.set_remarks FileRemarksManager.Working
       Examples.remarks_fs_overwritten 3 Examples.two_remarks
       "/A/notes.txt" "hello").2 = true
  ∧ FileRemarksManager.get_remarks FileRemarksManager.Working
      Examples.remarks_fs_overwritten
      (FileRemarksManager.set_remarks FileRemarksManager.Working
         Examples.remarks_fs_overwritten 3 Examples.two_remarks
         "/A/notes.txt" "hello").1 "/A/notes.txt" = "hello".
Proof.
  assert (H : reachable Examples.two_remarks) by (repeat constructor).
  split; [exact H|]. split; [reflexivity|].
  exact (proj1 (remarks_set_then_get FileRemarksManager.Working
                  Examples.remarks_fs_overwritten 3 Examples.two_remarks
                  "/A/notes.txt" H) eq_refl).
Defined.

(** C8, as stated, fails: the file has been overwritten with the
    contents of another annotated file; clearing its remarks deletes its
    row, and [get_remarks] then answers with the remarks of the other
    file. *)
Lemma remarks_cleared_but_not_empty :
  reachable Examples.two_remarks
  ∧ get_remarks Examples.remarks_fs_overwritten
      (set_remarks Examples.remarks_fs_overwritten 3 Examples.two_remarks
         "/A/notes.txt" "").1 "/A/notes.txt" = "first draft"
  ∧ get_remarks Examples.remarks_fs_overwritten
      (set_remarks Examples.remarks_fs_overwritten 3 Examples.two_remarks
         "/A/notes.txt" "").1 "/A/notes.txt" ≠ "".
Proof.
  split; [repeat constructor|]. split; [reflexivity|]. discriminate.
Qed.

End remarks_claims.

(** ** Paths *)

Section paths.

Import PurePath.

Lemma truthy_false s : PyStr.truthy s = false ↔ s = "".
Proof. unfold PyStr.truthy. rewrite negb_false_iff. apply bool_decide_eq_true. Qed.

Lemma truthy_true s : PyStr.truthy s = true ↔ s ≠ "".
Proof. unfold PyStr.truthy. rewrite negb_true_iff. apply bool_decide_eq_false. Qed.

(** A parsed path has no empty name. *)
Lemma Path_no_empty_name s : "" ∉ parts (Path s).
Proof.
  unfold Path. destruct (splitroot s) as [r rel]. simpl.
  intros H. apply list_elem_of_In, filter_In in H as [_ H].
  by vm_compute in H.
Qed.

(** On parsed paths, [relative_to] undoes [joinpath]: the folder joined
    with the relative path is the path. *)
Lemma relative_to_joinpath f l rel :
  relative_to (Path f) (Path l) = Some rel →
  joinpath (Path l) rel = Path f.
Proof.
  pose proof (Path_no_empty_name f) as Hf.
  pose proof (Path_no_empty_name l) as Hl.
  destruct (Path f) as [rs ps], (Path l) as [ro po]. simpl in *.
  unfold relative_to, joinpath, abs_parts. simpl.
  destruct (PyStr.truthy ro) eqn:Hro, (PyStr.truthy rs) eqn:Hrs; simpl.
  - case_bool_decide as Heq; [|done]. simpl. intros [= <-]. simpl.
    injection Heq as -> Heq. f_equal.
    rewrite <-Heq at 1. apply take_drop.
  - case_bool_decide as Heq; [|done]. exfalso.
    destruct ps as [|p ps]; [done|]. injection Heq as -> _.
    apply Hf. by left.
  - destruct po as [|p po]; simpl; [done|].
    case_bool_decide as Heq; [|done]. exfalso.
    injection Heq as <- _. apply Hl. by left.
  - apply truthy_false in Hro as ->. apply truthy_false in Hrs as ->.
    destruct po as [|p po]; simpl.
    + by intros [= <-].
    + case_bool_decide as Heq; [|done]. simpl. intros [= <-]. simpl.
      f_equal. change (p :: po ++ ?x) with ((p :: po) ++ x).
      rewrite <-Heq. apply take_drop.
Qed.

(** The test of the source, read off the path: the left folder contains
    the path, and the path is spelled canonically. *)
Lemma left_match_spec file_path pair :
  Effects.left_match file_path pair = true
  ↔ Spec.contains (left_path pair) file_path = true ∧ Spec.canonical file_path.
Proof.
  unfold Effects.left_match, Spec.contains, Spec.canonical.
  destruct (relative_to _ _) as [rel|] eqn:Hrel.
  - rewrite (relative_to_joinpath _ _ _ Hrel), !bool_decide_eq_true.
    split; [eauto|]. by intros [_ ?].
  - rewrite bool_decide_eq_true. split; [done|]. by intros [[? [=]] _].
Qed.

End paths.

(** ** The resolver: what is matched and what is reported *)

Section matching.

Import FileHistory Effects.

(** C1, as the code has it. On a call that scans (the path is valid and
    not cached) for a path spelled the way [pathlib] prints it,
    [has_matched] is true exactly when the left side of some pair contains
    the path. The right side plays no part. *)
Theorem has_matched_iff_left_contains fs (c : cache) path sync_pairs :
  PathManager.is_valid fs path = true →
  c !! path = None →
  Spec.canonical path →
  (load_file_history fs c path sync_pairs).1.2 = true
  ↔ ∃ pair, pair ∈ sync_pairs ∧ Spec.contains (left_path pair) path = true.
Proof.
  intros Hv Hc Hcan. rewrite (load_file_history_miss fs c path sync_pairs Hv Hc).
  simpl. rewrite existsb_exists. split.
  - intros (pair & Hin & Hm). apply left_match_spec in Hm as [Hcont _].
    exists pair. split; [by apply list_elem_of_In | done].
  - intros (pair & Hin & Hcont). exists pair.
    split; [by apply list_elem_of_In|]. by apply left_match_spec.
Qed.

Lemma has_matched_iff_left_contains_witness :
  PathManager.is_valid Examples.scenario_fs "/A/doc.txt" = true
  ∧ (∅ : cache) !! "/A/doc.txt" = None
  ∧ Spec.canonical "/A/doc.txt"
  ∧ ((load_file_history Examples.scenario_fs ∅ "/A/doc.txt"
        [Examples.pair_AB]).1.2 = true
     ↔ ∃ pair, pair ∈ [Examples.pair_AB]
               ∧ Spec.contains (left_path pair) "/A/doc.txt" = true).
Proof.
  split; [reflexivity|]. split; [reflexivity|]. split; [reflexivity|].
  apply (has_matched_iff_left_contains Examples.scenario_fs ∅ "/A/doc.txt"
           [Examples.pair_AB]); reflexivity.
Defined.

(** C1, as stated, fails: the mirror [/B/doc.txt] lies in the right side
    of the pair, and [has_matched] is false. *)
Lemma right_side_is_not_matched :
  ¬ Spec.matched_as_stated Examples.scenario_fs "/B/doc.txt" [Examples.pair_AB].
Proof.
  intros [_ H].
  assert ((load_file_history Examples.scenario_fs ∅ "/B/doc.txt"
             [Examples.pair_AB]).1.2 = true) as Habs; [|by vm_compute in Habs].
  apply H. exists Examples.pair_AB. split; [by left|]. right. reflexivity.
Qed.

End matching.

(** ** The items of a file of the left folder *)

Section left_file.

Import FileHistory Effects.

Lemma and_then_elem (a b : stage) x :
  x ∈ (and_then a b).1 → x ∈ a.1 ∨ x ∈ b.1.
Proof.
  unfold and_then. destruct (a.2); simpl; [|by left].
  by intros ?%elem_of_app.
Qed.

Lemma and_then_first (a b : stage) x : x ∈ a.1 → x ∈ (and_then a b).1.
Proof.
  unfold and_then. destruct (a.2); simpl; [|done].
  intros H. apply elem_of_app. by left.
Qed.

Lemma and_then_second (a b : stage) x :
  a.2 = true → x ∈ b.1 → x ∈ (and_then a b).1.
Proof.
  unfold and_then. intros -> H. simpl. apply elem_of_app. by right.
Qed.

Lemma item_stage_elem fs p v pair a b x :
  x ∈ (item_stage fs p v pair a b).1 →
  ∃ s, stat fs p = Some s ∧ fromtimestamp_ok fs s.1 = true
       ∧ x = new_item p v pair a b s.
Proof.
  unfold item_stage. destruct (stat fs p) as [s|]; [|by intros ?%elem_of_nil].
  destruct (fromtimestamp_ok fs s.1) eqn:Hok; [|by intros ?%elem_of_nil].
  intros ->%list_elem_of_singleton. eauto.
Qed.

Lemma item_stage_built fs p v pair a b s :
  stat fs p = Some s → fromtimestamp_ok fs s.1 = true →
  item_stage fs p v pair a b = ([new_item p v pair a b s], true).
Proof. intros Hs Hok. unfold item_stage. by rewrite Hs, Hok. Qed.

Lemma item_if_exists_elem fs p v pair a b x :
  x ∈ (item_if_exists fs p v pair a b).1 →
  ∃ s, stat fs p = Some s ∧ fromtimestamp_ok fs s.1 = true
       ∧ x = new_item p v pair a b s.
Proof.
  unfold item_if_exists. destruct (Os.exists_ fs p);
    [apply item_stage_elem | by intros ?%elem_of_nil].
Qed.

Lemma item_if_exists_built fs p v pair a b s :
  stat fs p = Some s → fromtimestamp_ok fs s.1 = true →
  item_if_exists fs p v pair a b = ([new_item p v pair a b s], true).
Proof.
  intros Hs Hok. unfold item_if_exists.
  assert (Os.exists_ fs p = true) as -> by (apply exists_stat; eauto).
  by apply item_stage_built.
Qed.

Lemma mirror_stage_elem fs pair rel x :
  x ∈ (mirror_stage fs pair rel).1 →
  ∃ s, stat fs (mirrored_path pair rel) = Some s
       ∧ fromtimestamp_ok fs s.1 = true
       ∧ x = new_item (mirrored_path pair rel) VERSION_SYNCED pair false true s.
Proof. apply item_if_exists_elem. Qed.

Lemma entries_stage_elem fs pair paths x :
  x ∈ (entries_stage fs pair paths).1 →
  ∃ p s, p ∈ paths ∧ stat fs p = Some s ∧ fromtimestamp_ok fs s.1 = true
         ∧ x = new_item p VERSION_HISTORY pair false false s.
Proof.
  induction paths as [|p paths IH]; simpl; [by intros ?%elem_of_nil|].
  intros [H|H]%and_then_elem.
  - apply item_if_exists_elem in H as (s & Hs & Hok & ->).
    exists p, s. split; [by left | done].
  - destruct (IH H) as (q & s & Hq & Hrest). exists q, s.
    split; [by right | done].
Qed.

(** An archived copy is an entry of the versioning folder that the
    pattern matches. *)
Lemma archive_stage_elem fs pair rel x :
  x ∈ (archive_stage fs pair rel).1 →
  PyStr.truthy (versioning_folder pair) = true
  ∧ ∃ entry s,
      entry ∈ scandir fs (PurePath.str (versioning_path_folder pair rel))
      ∧ Fnmatch.fnmatch entry (archive_pattern rel) = true
      ∧ stat fs (entry_path pair rel entry) = Some s
      ∧ fromtimestamp_ok fs s.1 = true
      ∧ x = new_item (entry_path pair rel entry) VERSION_HISTORY pair
                     false false s.
Proof.
  unfold archive_stage.
  destruct (PyStr.truthy (versioning_folder pair)); [|by intros ?%elem_of_nil].
  destruct (PyStr.contains "**" (archive_pattern rel));
    [by intros ?%elem_of_nil|].
  intros (p & s & Hp & Hs & Hok & ->)%entries_stage_elem. split; [done|].
  apply list_elem_of_fmap in Hp as (entry & -> & Hentry).
  apply list_elem_of_In, filter_In in Hentry as [Hentry Hmatch].
  exists entry, s. split; [by apply list_elem_of_In | done].
Qed.

(** The items of a pair, one by one. *)
Lemma emitted_item fs path pair x :
  x ∈ emitted fs path pair →
  ∃ rel,
    PurePath.relative_to (PurePath.Path path) (PurePath.Path (left_path pair))
      = Some rel
    ∧ ((left_match path pair = true
        ∧ ∃ s, stat fs path = Some s ∧ fromtimestamp_ok fs s.1 = true
               ∧ x = new_item path VERSION_SOURCE pair true true s)
       ∨ x ∈ (mirror_stage fs pair rel).1
       ∨ x ∈ (archive_stage fs pair rel).1).
Proof.
  unfold emitted. destruct (PurePath.relative_to _ _) as [rel|];
    [|by intros ?%elem_of_nil].
  intros Hx. exists rel. split; [done|]. unfold pair_stage in Hx.
  apply and_then_elem in Hx as [Hx|Hx].
  - left. unfold source_stage in Hx.
    destruct (left_match path pair); [|by apply elem_of_nil in Hx].
    split; [done|]. by apply item_stage_elem in Hx.
  - apply and_then_elem in Hx as [Hx|Hx]; auto.
Qed.

Lemma elem_of_scan_result fs path sync_pairs x :
  x ∈ sort_by_time_desc (flat_map (emitted fs path) sync_pairs)
  ↔ ∃ pair, pair ∈ sync_pairs ∧ x ∈ emitted fs path pair.
Proof.
  rewrite sort_by_time_desc_perm, list_elem_of_In, in_flat_map.
  split; intros (pair & H1 & H2); exists pair.
  - split; by apply list_elem_of_In.
  - split; by apply list_elem_of_In.
Qed.

Lemma filter_none {A} (p : A → bool) l :
  (∀ x, x ∈ l → p x = false) → List.filter p l = [].
Proof.
  induction l as [|x l IH]; intros H; simpl; [done|].
  rewrite (H x) by (by left). apply IH. intros y Hy. apply H. by right.
Qed.

(** Neither the mirror nor an archived copy is a source item. *)
Lemma no_source_besides fs pair rel :
  List.filter Spec.is_source_item
    (and_then (mirror_stage fs pair rel) (archive_stage fs pair rel)).1 = [].
Proof.
  apply filter_none. intros x [H|H]%and_then_elem.
  - by apply mirror_stage_elem in H as (s & _ & _ & ->).
  - by apply archive_stage_elem in H as (_ & entry & s & _ & _ & _ & _ & ->).
Qed.

(** The source items a pair emits for a file that is there, with a time
    that [datetime] takes: one when the test of the source succeeds, none
    otherwise. *)
Lemma emitted_sources fs path pair s :
  stat fs path = Some s →
  fromtimestamp_ok fs s.1 = true →
  List.filter Spec.is_source_item (emitted fs path pair)
  = if left_match path pair
    then [new_item path VERSION_SOURCE pair true true s] else [].
Proof.
  intros Hs Hok. unfold emitted.
  destruct (PurePath.relative_to _ _) as [rel|] eqn:Hrel.
  - unfold pair_stage, source_stage. destruct (left_match path pair).
    + rewrite (item_stage_built _ _ _ _ _ _ s Hs Hok). unfold and_then at 1.
      simpl. by rewrite no_source_besides.
    + unfold and_then at 1. simpl. apply no_source_besides.
  - unfold left_match. by rewrite Hrel.
Qed.

Lemma sources_of_scan fs path pairs s :
  stat fs path = Some s →
  fromtimestamp_ok fs s.1 = true →
  List.filter Spec.is_source_item (flat_map (emitted fs path) pairs)
  = (λ pair, new_item path VERSION_SOURCE pair true true s)
      <$> List.filter (left_match path) pairs.
Proof.
  intros Hs Hok. induction pairs as [|p pairs IH]; [done|]. simpl.
  rewrite List.filter_app, (emitted_sources fs path p s Hs Hok), IH.
  by destruct (left_match path p).
Qed.

(** The source item is emitted when the test succeeds and the item can be
    built. *)
Lemma source_item_emitted fs path pair s :
  left_match path pair = true →
  stat fs path = Some s →
  fromtimestamp_ok fs s.1 = true →
  new_item path VERSION_SOURCE pair true true s ∈ emitted fs path pair.
Proof.
  intros Hm Hs Hok. unfold emitted. pose proof Hm as Hm'.
  unfold left_match in Hm'.
  destruct (PurePath.relative_to _ _) as [rel|] eqn:Hrel; [|done].
  unfold pair_stage. apply and_then_first. unfold source_stage.
  rewrite Hm, (item_stage_built _ _ _ _ _ _ s Hs Hok). by left.
Qed.

(** The source part goes on when the file asked for can be made an item
    of, and when the test fails. *)
Lemma source_stage_goes_on fs path pair :
  (left_match path pair = true →
   ∃ s, stat fs path = Some s ∧ fromtimestamp_ok fs s.1 = true) →
  (source_stage fs path pair).2 = true.
Proof.
  unfold source_stage. destruct (left_match path pair); [|done].
  intros H. destruct (H eq_refl) as (s & Hs & Hok).
  by rewrite (item_stage_built _ _ _ _ _ _ s Hs Hok).
Qed.

Lemma mirror_emitted fs path pair rel m :
  PurePath.relative_to (PurePath.Path path) (PurePath.Path (left_path pair))
    = Some rel →
  (source_stage fs path pair).2 = true →
  stat fs (mirrored_path pair rel) = Some m →
  fromtimestamp_ok fs m.1 = true →
  new_item (mirrored_path pair rel) VERSION_SYNCED pair false true m
  ∈ emitted fs path pair.
Proof.
  intros Hrel Hgo Hm Hok. unfold emitted. rewrite Hrel. unfold pair_stage.
  apply and_then_second; [done|]. apply and_then_first.
  unfold mirror_stage. rewrite (item_if_exists_built _ _ _ _ _ _ m Hm Hok).
  by left.
Qed.

Lemma filter_length_perm {A} (p : A → bool) (l1 l2 : list A) :
  l1 ≡ₚ l2 → length (List.filter p l1) = length (List.filter p l2).
Proof.
  induction 1 as [|x l1 l2 _ IH|x y l|l1 l2 l3 _ IH1 _ IH2]; simpl.
  - done.
  - destruct (p x); simpl; by rewrite IH.
  - by destruct (p x), (p y).
  - by rewrite IH1.
Qed.

End left_file.

Section left_file_claims.

Import FileHistory Effects.

Lemma exists_is_valid fs path :
  Os.exists_ fs path = true → PathManager.is_valid fs path = true.
Proof.
  intros H. unfold PathManager.is_valid, PathManager.get_handler.
  repeat case_match; by simplify_eq.
Qed.

Lemma left_match_canonical path pair :
  Spec.canonical path →
  left_match path pair = Spec.contains (left_path pair) path.
Proof.
  intros Hcan. pose proof (left_match_spec path pair) as H.
  destruct (left_match path pair), (Spec.contains (left_path pair) path);
    [done| | |done].
  - by destruct H as [H _]; destruct (H eq_refl).
  - by apply H.
Qed.

Lemma left_match_misspelled path pair :
  ¬ Spec.canonical path → left_match path pair = false.
Proof.
  intros Hcan. destruct (left_match path pair) eqn:Hm; [|done].
  by apply left_match_spec in Hm as [_ ?].
Qed.

(** C3, where the code departs from it. The test that guards the source
    item compares the path, as a string, with [left / rel] as [pathlib]
    prints it. For a path that names a file of the left folder in another
    spelling, on a call that scans, no pair sets [has_matched] and no item
    is a source item, while the file is taken as a file of the pair all
    the same: the copy at [right / rel] is reported whenever an item can
    be made of it. *)
Theorem misspelled_path_has_no_source fs (c : cache) path sync_pairs :
  PathManager.is_valid fs path = true →
  c !! path = None →
  ¬ Spec.canonical path →
  let result := (load_file_history fs c path sync_pairs).1 in
  result.2 = false
  ∧ (∀ x, x ∈ result.1 → is_source x = false)
  ∧ ∀ pair rel m,
      pair ∈ sync_pairs →
      PurePath.relative_to (PurePath.Path path)
        (PurePath.Path (left_path pair)) = Some rel →
      stat fs (mirrored_path pair rel) = Some m →
      fromtimestamp_ok fs m.1 = true →
      new_item (mirrored_path pair rel) VERSION_SYNCED pair false true m
      ∈ result.1.
Proof.
  intros Hv Hc Hcan. rewrite (load_file_history_miss fs c path sync_pairs Hv Hc).
  simpl. split; [|split].
  - induction sync_pairs as [|p l IH]; [done|]. simpl.
    by rewrite (left_match_misspelled path p Hcan).
  - intros x (pair & _ & Hx)%elem_of_scan_result.
    apply emitted_item in Hx as (rel & _ & [(Hm & _)|[Hx|Hx]]).
    + by rewrite (left_match_misspelled path pair Hcan) in Hm.
    + by apply mirror_stage_elem in Hx as (s & _ & _ & ->).
    + by apply archive_stage_elem in Hx as (_ & e & s & _ & _ & _ & _ & ->).
  - intros pair rel m Hin Hrel Hm Hok. apply elem_of_scan_result.
    exists pair. split; [done|]. apply (mirror_emitted fs path pair rel m);
      [done| |done..].
    apply source_stage_goes_on.
    by rewrite (left_match_misspelled path pair Hcan).
Qed.

Lemma misspelled_path_has_no_source_witness :
  Spec.strictly_inside (left_path Examples.pair_AB) "/A//doc.txt"
    {| PurePath.root := ""; PurePath.parts := ["doc.txt"] |}
  ∧ Os.exists_ Examples.scenario_fs "/A//doc.txt" = true
  ∧ (load_file_history Examples.scenario_fs ∅ "/A//doc.txt"
       [Examples.pair_AB]).1
    = ([new_item "/B/doc.txt" VERSION_SYNCED Examples.pair_AB false true (20, 5);
        new_item ("/V/" +:+ Examples.archived_name) VERSION_HISTORY
          Examples.pair_AB false false (10, 4)], false)
  ∧ (∀ x, x ∈ (load_file_history Examples.scenario_fs ∅ "/A//doc.txt"
                 [Examples.pair_AB]).1.1 → is_source x = false)
  ∧ ¬ Spec.one_source_as_stated Examples.scenario_fs "/A//doc.txt"
        Examples.pair_AB.
Proof.
  assert (Hrel : Spec.strictly_inside (left_path Examples.pair_AB) "/A//doc.txt"
                   {| PurePath.root := ""; PurePath.parts := ["doc.txt"] |})
    by (split; [reflexivity | discriminate]).
  assert (Hcan : ¬ Spec.canonical "/A//doc.txt") by discriminate.
  split; [exact Hrel|]. split; [reflexivity|]. split; [reflexivity|].
  split.
  - exact (proj1 (proj2 (misspelled_path_has_no_source Examples.scenario_fs ∅
                           "/A//doc.txt" [Examples.pair_AB] eq_refl
                           (lookup_empty _) Hcan))).
  - intros H. specialize (H _ eq_refl Hrel). discriminate H.
Defined.

Lemma string_prefix_app s t : String.prefix s (s +:+ t) = true.
Proof.
  induction s as [|a s IH]; [by destruct t|]. simpl.
  by destruct (ascii_dec a a).
Qed.

Lemma string_prefix_refl s : String.prefix s s = true.
Proof. induction s as [|a s IH]; [done|]. simpl. by destruct (ascii_dec a a). Qed.

Lemma string_prefix_app_l s t u :
  String.prefix t u = true → String.prefix (s +:+ t) (s +:+ u) = true.
Proof.
  intros H. induction s as [|a s IH]; [done|]. simpl.
  by destruct (ascii_dec a a).
Qed.

Lemma join_app_prefix sep l q :
  String.prefix (PyStr.join sep l) (PyStr.join sep (l ++ q)) = true.
Proof.
  induction l as [|x l IH];
    [simpl; by destruct (PyStr.join sep q)|].
  destruct l as [|y l].
  - simpl. destruct q as [|z q]; [apply string_prefix_refl|].
    apply string_prefix_app.
  - change (PyStr.join sep (x :: y :: l))
      with (x +:+ sep +:+ PyStr.join sep (y :: l)).
    change (PyStr.join sep ((x :: y :: l) ++ q))
      with (x +:+ sep +:+ PyStr.join sep ((y :: l) ++ q)).
    by do 2 apply string_prefix_app_l.
Qed.

(** A folder spelled as [Path.resolve] prints it is a prefix, as a
    string, of every path so spelled that it contains. *)
Lemma contains_startswith folder path :
  Spec.absolute folder → Spec.canonical folder → Spec.canonical path →
  Spec.contains folder path = true →
  PyStr.startswith path folder = true.
Proof.
  unfold Spec.absolute, Spec.canonical, Spec.contains, PyStr.startswith.
  intros Habs Hf Hp [rel Hrel]%bool_decide_eq_true.
  rewrite Hf, Hp. clear Hf Hp.
  pose proof (Path_no_empty_name path) as Hne.
  destruct (PurePath.Path path) as [r ps], (PurePath.Path folder) as [rb pb].
  simpl in *. unfold PurePath.relative_to, PurePath.abs_parts in Hrel.
  simpl in Hrel. rewrite Habs in Hrel. simpl in Hrel.
  case_bool_decide as Heq; [|done]. clear Hrel.
  unfold PurePath.str. simpl. rewrite Habs.
  destruct (PyStr.truthy r) eqn:Hr.
  - injection Heq as -> Heq. apply string_prefix_app_l.
    rewrite <-(take_drop (length pb) ps), Heq. apply join_app_prefix.
  - destruct ps as [|p ps]; [done|]. injection Heq as -> _.
    exfalso. apply Hne. by left.
Qed.

(** C2, as the code has it. In [get_file_history] of the parser, a file
    that is there, with a time that [datetime] takes, and that lies in the
    versioning folder of the pair gets exactly one archived item from that
    pair, and neither side of the pair is compared with it; with that pair
    alone the function returns this one item. [load_file_history] has no
    such case: a pair whose left folder does not contain the path adds no
    item and leaves the flag alone, wherever the path lies. *)
Theorem versioning_file_short_circuit fs path history pair
    left_base right_base versioning_base s st :
  resolve fs (left_path pair) = Some left_base →
  resolve fs (right_path pair) = Some right_base →
  PyStr.truthy (versioning_folder pair) = true →
  resolve fs (versioning_folder pair) = Some versioning_base →
  Spec.absolute versioning_base →
  Spec.canonical versioning_base →
  Spec.canonical path →
  Spec.contains versioning_base path = true →
  stat fs path = Some s →
  fromtimestamp_ok fs s.1 = true →
  FFSConfigParser.history_of_pair fs path history pair
  = Some (history ++
          [{| FFSConfigParser.d_file_name := OsPath.basename path;
              FFSConfigParser.d_modified_time := s.1;
              FFSConfigParser.d_version := FFSConfigParser.VERSION_ARCHIVE;
              FFSConfigParser.d_file_path := path;
              FFSConfigParser.d_folder_path := OsPath.dirname path |}])
  ∧ (∀ raw, resolve fs raw = Some path →
       FFSConfigParser.get_file_history fs
         {| FFSConfigParser.sync_pairs := [pair] |} raw
       = Some [{| FFSConfigParser.d_file_name := OsPath.basename path;
                  FFSConfigParser.d_modified_time := s.1;
                  FFSConfigParser.d_version := FFSConfigParser.VERSION_ARCHIVE;
                  FFSConfigParser.d_file_path := path;
                  FFSConfigParser.d_folder_path := OsPath.dirname path |}])
  ∧ (PurePath.relative_to (PurePath.Path path)
       (PurePath.Path (left_path pair)) = None →
     try_pair fs path st pair = st).
Proof.
  intros Hl Hr Hvf Hv Habs Hcanv Hcan Hin Hs Hok.
  pose proof (contains_startswith versioning_base path Habs Hcanv Hcan Hin)
    as Hpre.
  assert (Hvb : PyStr.truthy versioning_base = true).
  { apply truthy_true. intros ->. by vm_compute in Habs. }
  assert (Hbody : ∀ history,
    FFSConfigParser.history_of_pair fs path history pair
    = Some (history ++
            [{| FFSConfigParser.d_file_name := OsPath.basename path;
                FFSConfigParser.d_modified_time := s.1;
                FFSConfigParser.d_version := FFSConfigParser.VERSION_ARCHIVE;
                FFSConfigParser.d_file_path := path;
                FFSConfigParser.d_folder_path := OsPath.dirname path |}])).
  { intros h. unfold FFSConfigParser.history_of_pair.
    rewrite Hl, Hr, Hvf, Hv. simpl. rewrite Hvb, Hpre. simpl.
    unfold FFSConfigParser._create_history_item, Os.getmtime,
      Datetime.fromtimestamp.
    rewrite Hs. simpl. by rewrite Hok. }
  split; [apply Hbody|]. split.
  - intros raw Hraw. unfold FFSConfigParser.get_file_history. rewrite Hraw.
    simpl. by rewrite Hbody.
  - intros Hrel. rewrite try_pair_effect. unfold emitted, left_match.
    rewrite Hrel. apply after_nil.
Qed.

Lemma versioning_file_short_circuit_witness :
  let path := "/V/" +:+ Examples.archived_name in
  FFSConfigParser.history_of_pair Examples.scenario_fs path [] Examples.pair_AB
  = Some [{| FFSConfigParser.d_file_name := Examples.archived_name;
             FFSConfigParser.d_modified_time := 10;
             FFSConfigParser.d_version := FFSConfigParser.VERSION_ARCHIVE;
             FFSConfigParser.d_file_path := path;
             FFSConfigParser.d_folder_path := "/V" |}]
  ∧ try_pair Examples.scenario_fs path fresh Examples.pair_AB = fresh.
Proof.
  pose proof (versioning_file_short_circuit Examples.scenario_fs
                ("/V/" +:+ Examples.archived_name) [] Examples.pair_AB
                "/A" "/B" "/V" (10, 4) fresh
                eq_refl eq_refl eq_refl eq_refl eq_refl eq_refl eq_refl
                eq_refl eq_refl eq_refl)
    as (H1 & _ & H2).
  split; [exact H1 | exact (H2 eq_refl)].
Defined.

(** C2, as stated for the resolver, fails: the archived copy of the
    scenario, queried itself, gets no item at all. *)
Lemma versioning_file_is_not_reported :
  (load_file_history Examples.scenario_fs ∅ ("/V/" +:+ Examples.archived_name)
     [Examples.pair_AB]).1 = ([], false)
  ∧ ¬ Spec.one_archived_as_stated Examples.scenario_fs
        ("/V/" +:+ Examples.archived_name) "doc.txt" Examples.pair_AB.
Proof.
  split; [reflexivity|]. intros H. specialize (H eq_refl eq_refl eq_refl).
  by vm_compute in H.
Qed.

End left_file_claims.

(** * Further properties of the code *)

(** ** Reading a configuration, continued *)

Section parsing_more.

Import FFSConfigParser.

Lemma item_texts_not_empty e : "" ∉ item_texts e.
Proof.
  unfold item_texts. intros H. apply list_elem_of_omap in H as (item & _ & H).
  destruct (ET.text item) as [x|]; [|done].
  destruct (PyStr.truthy x) eqn:Hx; [|done]. by simplify_eq.
Qed.

Lemma filter_patterns_not_empty f which : "" ∉ filter_patterns f which.
Proof.
  unfold filter_patterns. destruct f as [f|]; [|apply not_elem_of_nil].
  destruct (ET.find f which); [apply item_texts_not_empty | apply not_elem_of_nil].
Qed.

(** X1. All the pairs read from one file carry the path of the file as
    their config path and its stem as their name, and share the versioning
    folder and the sync policy: any two of them are equal for [__eq__]. *)
Theorem parse_config_pairs_share fs self config_path pairs x y :
  (parse_config fs self config_path).2 = Some pairs →
  x ∈ pairs → y ∈ pairs →
  sync_config_path x = config_path
  ∧ name x = PurePath.stem (PurePath.Path config_path)
  ∧ versioning_folder x = versioning_folder y
  ∧ sync_policy x = sync_policy y
  ∧ SyncPair_eq x y = true.
Proof.
  unfold parse_config. destruct (et_parse fs config_path) as [root|]; [|done].
  simpl. intros [= <-] Hx Hy. unfold pairs_of_tree in *.
  apply list_elem_of_omap in Hx as (ex & _ & Hx).
  apply list_elem_of_omap in Hy as (ey & _ & Hy).
  destruct (ET.find ex "Left"), (ET.find ex "Right"); try done.
  destruct (ET.find ey "Left"), (ET.find ey "Right"); try done.
  simplify_eq. simpl. repeat split; try done.
  unfold SyncPair_eq. simpl. by apply bool_decide_eq_true.
Qed.

Lemma parse_config_pairs_share_witness :
  MoreExamples.job_pairs = [MoreExamples.job_pair_1; MoreExamples.job_pair_2]
  ∧ left_path MoreExamples.job_pair_2 = ""
  ∧ versioning_folder MoreExamples.job_pair_1
    = versioning_folder MoreExamples.job_pair_2
  ∧ SyncPair_eq MoreExamples.job_pair_1 MoreExamples.job_pair_2 = true.
Proof.
  split; [reflexivity|]. split; [reflexivity|].
  assert (H1 : MoreExamples.job_pair_1 ∈ MoreExamples.job_pairs) by (by left).
  assert (H2 : MoreExamples.job_pair_2 ∈ MoreExamples.job_pairs)
    by (right; by left).
  pose proof (parse_config_pairs_share Examples.config_fs init
                "/c/job.ffs_batch" MoreExamples.job_pairs
                MoreExamples.job_pair_1 MoreExamples.job_pair_2 eq_refl H1 H2)
    as (_ & _ & Hv & _ & Heq).
  by split.
Defined.

(** X2. The filter of a pair adds to the global filter and never
    replaces it: the include (exclude) patterns of the first [Filter]
    below the root are a prefix of the include (exclude) patterns of every
    pair read, and no pattern of a pair is the empty string. *)
Theorem parse_config_filters_append fs self config_path root pairs x :
  et_parse fs config_path = Some root →
  (parse_config fs self config_path).2 = Some pairs →
  x ∈ pairs →
  filter_patterns (ET.find_below root "Filter") "Include"
    `prefix_of` include_patterns x
  ∧ filter_patterns (ET.find_below root "Filter") "Exclude"
    `prefix_of` exclude_patterns x
  ∧ "" ∉ include_patterns x ++ exclude_patterns x.
Proof.
  unfold parse_config. intros ->. simpl. intros [= <-] Hx.
  unfold pairs_of_tree in Hx. apply list_elem_of_omap in Hx as (ex & _ & Hx).
  destruct (ET.find ex "Left"), (ET.find ex "Right"); try done.
  simplify_eq. simpl. split; [by eexists|]. split; [by eexists|].
  rewrite !not_elem_of_app. repeat split; apply filter_patterns_not_empty.
Qed.

Lemma parse_config_filters_append_witness :
  ["*"] `prefix_of` include_patterns MoreExamples.job_pair_1
  ∧ ["*.tmp"] `prefix_of` exclude_patterns MoreExamples.job_pair_1
  ∧ exclude_patterns MoreExamples.job_pair_1 = ["*.tmp"; "*.bak"]
  ∧ "" ∉ include_patterns MoreExamples.job_pair_1
         ++ exclude_patterns MoreExamples.job_pair_1.
Proof.
  assert (H1 : MoreExamples.job_pair_1 ∈ MoreExamples.job_pairs) by (by left).
  pose proof (parse_config_filters_append Examples.config_fs init
                "/c/job.ffs_batch" Examples.job_tree MoreExamples.job_pairs
                MoreExamples.job_pair_1 eq_refl eq_refl H1) as (Hi & He & Hn).
  split; [exact Hi|]. split; [exact He|]. split; [reflexivity | exact Hn].
Defined.

End parsing_more.

(** ** The registry, continued *)

Section registry_more.

Import SyncConfigModel.

(** Pairs that all carry one config path: the first of them is appended
    when that path is new, none is otherwise. *)
Lemma add_pairs_same_path registered new p :
  (∀ x, x ∈ new → sync_config_path x = p) →
  add_pairs registered new
  = if decide (p ∈ sync_config_path <$> registered) then registered
    else registered ++ take 1 new.
Proof.
  intros Hp. destruct new as [|x new]; simpl.
  { case_decide; [done | by rewrite app_nil_r]. }
  assert (sync_config_path x = p) as Hx by (apply Hp; by left).
  unfold add_pairs. simpl. fold (add_pairs (if SyncPair_in x registered
    then registered else registered ++ [x]) new).
  case_decide as Hin.
  - assert (SyncPair_in x registered = true) as ->.
    { apply SyncPair_in_spec. by rewrite Hx. }
    apply add_pairs_covered. intros y Hy. rewrite (Hp y); [done | by right].
  - assert (SyncPair_in x registered = false) as ->.
    { apply SyncPair_in_false. by rewrite Hx. }
    apply add_pairs_covered. intros y Hy. rewrite (Hp y) by (by right).
    rewrite fmap_app. apply elem_of_app. right. simpl. rewrite Hx. by left.
Qed.

(** X3. Of a configuration file with several pairs only the first is
    registered, since all of them are equal for [__eq__]; and none is when
    a pair of that file is registered already. *)
Theorem add_configs_registers_first_pair fs self config_path parser root :
  create_parser config_path = Some parser →
  et_parse fs config_path = Some root →
  sync_pairs (add_configs fs self (inl config_path)).1
  = if decide (config_path ∈ sync_config_path <$> sync_pairs self)
    then sync_pairs self
    else sync_pairs self
           ++ take 1 (FFSConfigParser.pairs_of_tree config_path root).
Proof.
  intros Hparser Hroot. unfold add_configs. simpl.
  rewrite add_one_spec, Hparser, Hroot. simpl.
  apply add_pairs_same_path. intros x Hx.
  by apply pairs_of_tree_config_path in Hx.
Qed.

Lemma add_configs_registers_first_pair_witness :
  length (FFSConfigParser.pairs_of_tree "/c/job.ffs_batch" Examples.job_tree)
  = 2%nat
  ∧ sync_pairs (add_configs Examples.config_fs init (inl "/c/job.ffs_batch")).1
    = [MoreExamples.job_pair_1].
Proof.
  split; [reflexivity|].
  by rewrite (add_configs_registers_first_pair Examples.config_fs init
                "/c/job.ffs_batch" FFSConfigParser.init Examples.job_tree
                eq_refl eq_refl).
Defined.

Lemma add_loop_flags fs registered config_paths :
  (add_loop fs registered config_paths).2
  = (λ p, bool_decide (is_Some (create_parser p))
          && bool_decide (is_Some (et_parse fs p))) <$> config_paths.
Proof.
  revert registered. induction config_paths as [|p l IH]; intros reg; [done|].
  simpl. rewrite add_one_spec.
  destruct (create_parser p) eqn:Hp, (et_parse fs p) eqn:Hr; simpl;
    match goal with
    | |- context [add_loop fs ?r l] =>
        specialize (IH r); destruct (add_loop fs r l)
    end; simpl in *; by rewrite IH.
Qed.

Lemma add_one_added_paths fs registered config_path :
  ∃ added, (add_one fs registered config_path).1 = registered ++ added
           ∧ ∀ x, x ∈ added → sync_config_path x = config_path.
Proof.
  rewrite add_one_spec.
  destruct (create_parser config_path), (et_parse fs config_path) as [root|];
    simpl; try (exists []; split; [by rewrite app_nil_r | by intros ? ?%elem_of_nil]).
  rewrite (add_pairs_same_path registered _ config_path)
    by (intros x Hx; by apply pairs_of_tree_config_path in Hx).
  case_decide.
  - exists []. split; [by rewrite app_nil_r | by intros ? ?%elem_of_nil].
  - eexists. split; [done|]. intros x Hx.
    apply (pairs_of_tree_config_path config_path root).
    eapply elem_of_sublist; [exact Hx | apply sublist_take].
Qed.

Lemma add_loop_added_paths fs registered config_paths :
  ∃ added, (add_loop fs registered config_paths).1 = registered ++ added
           ∧ ∀ x, x ∈ added → sync_config_path x ∈ config_paths.
Proof.
  revert registered. induction config_paths as [|p l IH]; intros reg; simpl.
  - exists []. split; [by rewrite app_nil_r | by intros ? ?%elem_of_nil].
  - destruct (add_one_added_paths fs reg p) as (a1 & H1 & Hp1).
    destruct (add_one fs reg p) as [reg1 ok]. simpl in H1. subst reg1.
    destruct (IH (reg ++ a1)) as (a2 & H2 & Hp2).
    destruct (add_loop fs (reg ++ a1) l) as [reg2 oks]. simpl in *. subst.
    exists (a1 ++ a2). split; [by rewrite app_assoc|].
    intros x [Hx|Hx]%elem_of_app.
    + rewrite (Hp1 x Hx). by left.
    + right. by apply Hp2.
Qed.

(** X4. [add_configs] only appends: the pairs registered before keep
    their rows, and every pair appended comes from one of the paths given.
    It reports one flag per path, true exactly for the paths that have the
    supported suffix and can be parsed, and it records every path given in
    [sync_config_paths], the ones it could not read as well. *)
Theorem add_configs_appends_and_reports fs self config_paths :
  let l := match config_paths with inl p => [p] | inr l => l end in
  (∃ added,
     sync_pairs (add_configs fs self config_paths).1 = sync_pairs self ++ added
     ∧ ∀ x, x ∈ added → sync_config_path x ∈ l)
  ∧ (add_configs fs self config_paths).2
    = (λ p, bool_decide (is_Some (create_parser p))
            && bool_decide (is_Some (et_parse fs p))) <$> l
  ∧ ∀ p, p ∈ sync_config_paths (add_configs fs self config_paths).1
         ↔ p ∈ sync_config_paths self ∨ p ∈ l.
Proof.
  simpl. unfold add_configs.
  set (l := match config_paths with inl p => [p] | inr l => l end).
  pose proof (add_loop_added_paths fs (sync_pairs self) l) as Hadd.
  pose proof (add_loop_flags fs (sync_pairs self) l) as Hflags.
  destruct (add_loop fs (sync_pairs self) l) as [reg oks]. simpl in *.
  split; [exact Hadd|]. split; [exact Hflags|].
  intros p. rewrite elem_of_union, elem_of_list_to_set. done.
Qed.

Lemma add_configs_appends_and_reports_witness :
  (add_configs Examples.config_fs MoreExamples.registry_with_job
     (inr ["/c/job.ffs_batch"; "/c/job.xml"; "/c/gone.ffs_batch"])).2
  = [true; false; false]
  ∧ "/c/gone.ffs_batch"
    ∈ sync_config_paths
        (add_configs Examples.config_fs MoreExamples.registry_with_job
           (inr ["/c/job.ffs_batch"; "/c/job.xml"; "/c/gone.ffs_batch"])).1.
Proof.
  pose proof (add_configs_appends_and_reports Examples.config_fs
                MoreExamples.registry_with_job
                (inr ["/c/job.ffs_batch"; "/c/job.xml"; "/c/gone.ffs_batch"]))
    as (_ & Hflags & Hpaths).
  split; [exact Hflags|]. apply Hpaths. right. right. right. by left.
Defined.

Lemma get_sync_pair_lookup self row :
  SyncConfigQueries.get_sync_pair self (Some row) = sync_pairs self !! row.
Proof.
  unfold SyncConfigQueries.get_sync_pair. by destruct (sync_pairs self).
Qed.

Lemma NoDup_delete_notin {A} (l : list A) i a :
  NoDup l → l !! i = Some a → a ∉ delete i l.
Proof.
  intros Hnd Hi. rewrite (delete_Permutation l i a Hi) in Hnd.
  by apply NoDup_cons in Hnd as [? _].
Qed.

(** X5. Removing a row that exists takes one pair out and moves the rows
    after it up by one, the rows before it staying; the set of config
    paths the model has seen is not touched, so it still lists the file of
    the pair removed. Removing a row past the end of a registry that is
    not empty raises [IndexError]. *)
Theorem remove_config_rows self row :
  (row < length (sync_pairs self))%nat →
  ∃ self',
    remove_config self (Some row) = Some self'
    ∧ S (SyncConfigQueries.rowCount self') = SyncConfigQueries.rowCount self
    ∧ sync_config_paths self' = sync_config_paths self
    ∧ (∀ i, (i < row)%nat →
         SyncConfigQueries.get_sync_pair self' (Some i)
         = SyncConfigQueries.get_sync_pair self (Some i))
    ∧ (∀ i, (row ≤ i)%nat →
         SyncConfigQueries.get_sync_pair self' (Some i)
         = SyncConfigQueries.get_sync_pair self (Some (S i)))
    ∧ ∀ far, (length (sync_pairs self) ≤ far)%nat →
             remove_config self (Some far) = None.
Proof.
  intros Hrow. unfold remove_config.
  destruct (sync_pairs self) as [|x l] eqn:Hl; [simpl in Hrow; lia|].
  rewrite <-Hl in *. apply Nat.ltb_lt in Hrow as Hrow'. rewrite Hrow'.
  eexists. split; [done|]. unfold SyncConfigQueries.rowCount.
  rewrite !Hl. simpl sync_pairs. rewrite <-Hl.
  split; [rewrite length_delete; [lia | by apply lookup_lt_is_Some_2]|].
  split; [done|]. split; [|split].
  - intros i Hi. rewrite !get_sync_pair_lookup. simpl.
    by apply list_lookup_delete_lt.
  - intros i Hi. rewrite !get_sync_pair_lookup. simpl.
    by apply list_lookup_delete_ge.
  - intros far Hfar. rewrite Hl. rewrite <-Hl.
    by apply Nat.ltb_ge in Hfar as ->.
Qed.

Lemma remove_config_rows_witness :
  ∃ self',
    remove_config MoreExamples.registry_with_job (Some 0%nat) = Some self'
    ∧ SyncConfigQueries.rowCount self' = 0%nat
    ∧ "/c/job.ffs_batch" ∈ sync_config_paths self'
    ∧ remove_config MoreExamples.registry_with_job (Some 1%nat) = None.
Proof.
  assert (Hlt : (0 < length (sync_pairs MoreExamples.registry_with_job))%nat)
    by (vm_compute; lia).
  destruct (remove_config_rows MoreExamples.registry_with_job 0 Hlt)
    as (self' & Hrm & Hcount & Hpaths & _ & _ & Hfar).
  exists self'. split; [exact Hrm|]. split; [|split].
  - change (SyncConfigQueries.rowCount MoreExamples.registry_with_job)
      with 1%nat in Hcount. by injection Hcount.
  - rewrite Hpaths. by vm_compute.
  - apply Hfar. vm_compute. lia.
Defined.

(** X6. A pair that was removed comes back, as the last row, when its
    configuration file is added again: the registry is then the one
    without the row, followed by the first pair of the file as it reads
    now. *)
Theorem remove_then_add_again fs self row x config_path parser root self' :
  reachable self →
  sync_pairs self !! row = Some x →
  sync_config_path x = config_path →
  create_parser config_path = Some parser →
  et_parse fs config_path = Some root →
  remove_config self (Some row) = Some self' →
  sync_pairs (add_configs fs self' (inl config_path)).1
  = delete row (sync_pairs self)
    ++ take 1 (FFSConfigParser.pairs_of_tree config_path root).
Proof.
  intros Hreach Hx Hpath Hparser Hroot Hrm.
  apply reachable_distinct in Hreach. unfold Spec.distinct_config_paths in Hreach.
  assert (sync_pairs self' = delete row (sync_pairs self)) as Hself'.
  { unfold remove_config in Hrm.
    destruct (sync_pairs self) as [|y l] eqn:Hl; [done|]. rewrite <-Hl in *.
    case_match; [|done]. by simplify_eq. }
  unfold add_configs. simpl. rewrite add_one_spec, Hparser, Hroot. simpl.
  rewrite (add_pairs_same_path _ _ config_path)
    by (intros y Hy; by apply pairs_of_tree_config_path in Hy).
  rewrite Hself'. case_decide as Hin; [|done]. exfalso.
  rewrite list_fmap_delete in Hin.
  apply (NoDup_delete_notin _ row config_path Hreach); [|done].
  by rewrite list_lookup_fmap, Hx; simpl; rewrite Hpath.
Qed.

Lemma remove_then_add_again_witness :
  reachable MoreExamples.registry_with_job
  ∧ ∃ self',
      remove_config MoreExamples.registry_with_job (Some 0%nat) = Some self'
      ∧ sync_pairs (add_configs Examples.config_fs self'
                      (inl "/c/job.ffs_batch")).1 = [MoreExamples.job_pair_1].
Proof.
  assert (Hreach : reachable MoreExamples.registry_with_job)
    by (repeat constructor).
  split; [exact Hreach|]. eexists. split; [reflexivity|].
  exact (remove_then_add_again Examples.config_fs
           MoreExamples.registry_with_job 0 MoreExamples.job_pair_1
           "/c/job.ffs_batch" FFSConfigParser.init Examples.job_tree _
           Hreach eq_refl eq_refl eq_refl eq_refl eq_refl).
Defined.

End registry_more.

(** ** The resolver, continued *)

Section resolver_more.

Import FileHistory Effects.

(** X7. What a scanning call returns is real: every item is the item of a
    file that [stat] finds, with the time and the size [stat] gives, the
    name and the folder of its own path, a pair of the list given, and no
    hash and no remarks yet. A name in a folder listing whose file is gone
    gives no item. *)
Theorem scanned_items_exist fs (c : cache) path sync_pairs x :
  PathManager.is_valid fs path = true →
  c !! path = None →
  x ∈ (load_file_history fs c path sync_pairs).1.1 →
  stat fs (file_path x) = Some (modified_time x, file_size x)
  ∧ sync_pair x ∈ sync_pairs
  ∧ file_name x = OsPath.basename (file_path x)
  ∧ folder_path x = OsPath.dirname (file_path x)
  ∧ file_hash x = None
  ∧ remarks x = None.
Proof.
  intros Hv Hc. rewrite (load_file_history_miss fs c path sync_pairs Hv Hc).
  simpl. intros (pair & Hpair & Hx)%elem_of_scan_result.
  assert (∃ p v a b s, stat fs p = Some s ∧ x = new_item p v pair a b s)
    as (p & v & a & b & [mt sz] & Hs & ->).
  { apply emitted_item in Hx as (rel & _ & [(_ & s & Hs & _ & ->)|[Hx|Hx]]).
    - eauto 10.
    - apply mirror_stage_elem in Hx as (s & Hs & _ & ->). eauto 10.
    - apply archive_stage_elem in Hx as (_ & entry & s & _ & _ & Hs & _ & ->).
      eauto 10. }
  simpl. by rewrite Hs.
Qed.

Lemma scanned_items_exist_witness :
  length (scandir MoreExamples.stale_listing_fs "/V") = 2%nat
  ∧ (load_file_history MoreExamples.stale_listing_fs ∅ "/A/doc.txt"
       [Examples.pair_AB]).1.1
    = [new_item "/A/doc.txt" VERSION_SOURCE Examples.pair_AB true true (30, 5)]
  ∧ stat MoreExamples.stale_listing_fs "/A/doc.txt" = Some (30, 5).
Proof.
  split; [reflexivity|]. split; [reflexivity|].
  assert (Hin : new_item "/A/doc.txt" VERSION_SOURCE Examples.pair_AB true true
                  (30, 5)
                ∈ (load_file_history MoreExamples.stale_listing_fs ∅
                     "/A/doc.txt" [Examples.pair_AB]).1.1) by (by left).
  exact (proj1 (scanned_items_exist MoreExamples.stale_listing_fs ∅ "/A/doc.txt"
                  [Examples.pair_AB] _ eq_refl (lookup_empty _) Hin)).
Defined.

(** X8. Every item that is not marked synced is an archived copy: for one
    of the pairs, with a versioning folder, whose left folder contains the
    path, it is an entry of the versioning folder joined with the folder
    part of the relative path, its name matches the pattern made of the
    file name, the date, the time and the extension, and it is labelled as
    a history version and not as a source. *)
Theorem archived_items_match_pattern fs (c : cache) path sync_pairs x :
  PathManager.is_valid fs path = true →
  c !! path = None →
  x ∈ (load_file_history fs c path sync_pairs).1.1 →
  is_synced x = false →
  ∃ pair rel entry,
    pair ∈ sync_pairs
    ∧ PurePath.relative_to (PurePath.Path path) (PurePath.Path (left_path pair))
      = Some rel
    ∧ PyStr.truthy (versioning_folder pair) = true
    ∧ entry ∈ scandir fs (PurePath.str (versioning_path_folder pair rel))
    ∧ Fnmatch.fnmatch entry (archive_pattern rel) = true
    ∧ file_path x
      = PurePath.str (PurePath.make_child_relpath
                        (versioning_path_folder pair rel) entry)
    ∧ version x = VERSION_HISTORY
    ∧ is_source x = false.
Proof.
  intros Hv Hc. rewrite (load_file_history_miss fs c path sync_pairs Hv Hc).
  simpl. intros (pair & Hpair & Hx)%elem_of_scan_result Hsync.
  apply emitted_item in Hx as (rel & Hrel & [(_ & s & _ & _ & ->)|[Hx|Hx]]).
  - done.
  - by apply mirror_stage_elem in Hx as (s & _ & _ & ->).
  - apply archive_stage_elem in Hx
      as (Hvf & entry & s & He & Hm & _ & _ & ->).
    exists pair, rel, entry. done.
Qed.

Lemma archived_items_match_pattern_witness :
  let x := new_item ("/V/" +:+ Examples.archived_name) VERSION_HISTORY
             Examples.pair_AB false false (10, 4) in
  x ∈ (load_file_history Examples.scenario_fs ∅ "/A/doc.txt"
         [Examples.pair_AB]).1.1
  ∧ ∃ pair rel entry,
      pair ∈ [Examples.pair_AB]
      ∧ PurePath.relative_to (PurePath.Path "/A/doc.txt")
          (PurePath.Path (left_path pair)) = Some rel
      ∧ PyStr.truthy (versioning_folder pair) = true
      ∧ entry ∈ scandir Examples.scenario_fs
                  (PurePath.str (versioning_path_folder pair rel))
      ∧ Fnmatch.fnmatch entry (archive_pattern rel) = true
      ∧ file_path x
        = PurePath.str (PurePath.make_child_relpath
                          (versioning_path_folder pair rel) entry)
      ∧ version x = VERSION_HISTORY
      ∧ is_source x = false.
Proof.
  assert (Hin : new_item ("/V/" +:+ Examples.archived_name) VERSION_HISTORY
                  Examples.pair_AB false false (10, 4)
                ∈ (load_file_history Examples.scenario_fs ∅ "/A/doc.txt"
                     [Examples.pair_AB]).1.1) by (right; right; by left).
  split; [exact Hin|].
  exact (archived_items_match_pattern Examples.scenario_fs ∅ "/A/doc.txt"
           [Examples.pair_AB] _ eq_refl (lookup_empty _) Hin eq_refl).
Defined.

Lemma emitted_unrelated fs path pair :
  Spec.contains (left_path pair) path = false →
  emitted fs path pair = [] ∧ left_match path pair = false.
Proof.
  unfold Spec.contains, emitted, left_match. intros H.
  apply bool_decide_eq_false in H.
  destruct (PurePath.relative_to _ _); [|done]. destruct H. eauto.
Qed.

Lemma scan_without_unrelated fs path sync_pairs :
  flat_map (emitted fs path) sync_pairs
  = flat_map (emitted fs path)
      (List.filter (λ p, Spec.contains (left_path p) path) sync_pairs)
  ∧ existsb (left_match path) sync_pairs
    = existsb (left_match path)
        (List.filter (λ p, Spec.contains (left_path p) path) sync_pairs).
Proof.
  induction sync_pairs as [|p l [IH1 IH2]]; [done|]. simpl.
  destruct (Spec.contains (left_path p) path) eqn:Hp; simpl.
  - by rewrite IH1, IH2.
  - destruct (emitted_unrelated fs path p Hp) as [-> ->]. done.
Qed.

(** X9. Pairs whose left folder does not contain the path play no part:
    a call returns what it returns for the list without them. *)
Theorem unrelated_pairs_are_ignored fs (c : cache) path sync_pairs :
  (load_file_history fs c path sync_pairs).1
  = (load_file_history fs c path
       (List.filter (λ p, Spec.contains (left_path p) path) sync_pairs)).1.
Proof.
  unfold load_file_history.
  destruct (PathManager.is_valid fs path); simpl; [|done].
  destruct (c !! path); simpl; [done|].
  rewrite !history_data_scan, !has_matched_scan.
  by destruct (scan_without_unrelated fs path sync_pairs) as [<- <-].
Qed.

(** X10. A call touches the cache at its own path only, and only to fill
    a gap: the entries of other paths stay, an entry that is there is never
    replaced, and after a call for a valid path the entry of the path is
    the pair the call returned. A call for a path that is not valid leaves
    the cache as it is. *)
Theorem load_file_history_cache_frame fs (c : cache) path sync_pairs :
  let r := (load_file_history fs c path sync_pairs).1 in
  let c' := (load_file_history fs c path sync_pairs).2 in
  (∀ q, q ≠ path → c' !! q = c !! q)
  ∧ (is_Some (c !! path) → c' = c)
  ∧ c' !! path = (if PathManager.is_valid fs path then Some r else c !! path).
Proof.
  simpl. unfold load_file_history.
  destruct (PathManager.is_valid fs path); simpl; [|done].
  destruct (c !! path) as [hit|] eqn:Hc; simpl; [done|].
  split; [|split].
  - intros q Hq. by apply lookup_insert_ne.
  - by intros [? [=]].
  - apply lookup_insert_eq.
Qed.

(** X11. A path that counts as valid without being probed (a share,
    spelled with two leading slashes) and that [stat] does not find: the
    pairs whose left folder contains it set the flag, and the list is
    empty, the copy on the right side and the archived copies included,
    because the failure of the source item ends the work on the pair. *)
Theorem unreadable_file_matches_without_items fs (c : cache) path sync_pairs :
  PathManager.is_valid fs path = true →
  c !! path = None →
  stat fs path = None →
  Spec.canonical path →
  (load_file_history fs c path sync_pairs).1
  = ([], existsb (λ p, Spec.contains (left_path p) path) sync_pairs).
Proof.
  intros Hv Hc Hs Hcan.
  rewrite (load_file_history_miss fs c path sync_pairs Hv Hc). simpl.
  assert (Hnone : flat_map (emitted fs path) sync_pairs = []).
  { induction sync_pairs as [|p l IH]; [done|]. simpl. rewrite IH, app_nil_r.
    unfold emitted. destruct (PurePath.relative_to _ _) as [rel|] eqn:Hrel;
      [|done].
    unfold pair_stage, source_stage, item_stage.
    rewrite (left_match_canonical path p Hcan). unfold Spec.contains.
    rewrite Hrel, bool_decide_eq_true_2 by eauto. by rewrite Hs. }
  assert (Hflag : existsb (left_match path) sync_pairs
                  = existsb (λ p, Spec.contains (left_path p) path) sync_pairs).
  { clear Hnone. induction sync_pairs as [|p l IH]; [done|].
    simpl. by rewrite IH, (left_match_canonical path p Hcan). }
  by rewrite Hnone, Hflag.
Qed.

Lemma unreadable_file_matches_without_items_witness :
  stat Examples.scenario_fs "/B/doc.txt" = Some (20, 5)
  ∧ (load_file_history Examples.scenario_fs ∅ "//srv/share/doc.txt"
       [MoreExamples.pair_share]).1
    = ([], true).
Proof.
  split; [reflexivity|].
  exact (unreadable_file_matches_without_items Examples.scenario_fs ∅
           "//srv/share/doc.txt" [MoreExamples.pair_share]
           eq_refl (lookup_empty _) eq_refl eq_refl).
Defined.

(** X12. What the model tells the view about a file: nothing for a path
    that is not valid, with the cache untouched; otherwise the flag of the
    resolver, whether some version is marked synced, and the number of
    versions, so that no version means no synced version. For a file that
    exists, with a time that [datetime] takes, and that is not cached, a
    match means that there is a version and that one is marked synced, the
    file itself. *)
Theorem model_get_file_history_summary fs (c : cache) self path :
  let r := FileHistoryModel.get_file_history fs c self path in
  let loaded := load_file_history fs c path (FileHistoryModel.sync_pairs self) in
  r.2 = loaded.2
  ∧ r.1.1.1 = loaded.1.2
  ∧ r.1.2 = length loaded.1.1
  ∧ (r.1.1.2 = true ↔ ∃ x, x ∈ loaded.1.1 ∧ is_synced x = true)
  ∧ (PathManager.is_valid fs path = false → r = ((false, false, 0%nat), c))
  ∧ (r.1.2 = 0%nat → r.1.1.2 = false)
  ∧ (∀ s, stat fs path = Some s → fromtimestamp_ok fs s.1 = true →
          c !! path = None → r.1.1.1 = true →
          r.1.1.2 = true ∧ (1 ≤ r.1.2)%nat).
Proof.
  simpl. unfold FileHistoryModel.get_file_history.
  destruct (PathManager.is_valid fs path) eqn:Hv; simpl.
  - destruct (load_file_history fs c path (FileHistoryModel.sync_pairs self))
      as [[items matched] c'] eqn:Hload. simpl.
    split; [done|]. split; [done|]. split; [done|].
    assert (Hsync : existsb is_synced items = true
                    ↔ ∃ x, x ∈ items ∧ is_synced x = true).
    { rewrite existsb_exists. split; intros (x & H1 & H2); exists x.
      - split; [by apply list_elem_of_In | done].
      - split; [by apply list_elem_of_In | done]. }
    split; [done|]. split; [done|]. split.
    + intros Hlen. by destruct items.
    + intros s Hs Hok Hc Hm.
      rewrite (load_file_history_miss fs c path _ Hv Hc) in Hload.
      simpl in Hload. injection Hload as Hitems Hmatched _.
      rewrite <-Hmatched in Hm.
      apply existsb_exists in Hm as (pair & Hpair & Hm).
      assert (Hx : new_item path VERSION_SOURCE pair true true s ∈ items).
      { rewrite <-Hitems. apply elem_of_scan_result. exists pair.
        split; [by apply list_elem_of_In|]. by apply source_item_emitted. }
      split.
      * apply Hsync. by eexists.
      * destruct items; [by apply elem_of_nil in Hx | simpl; lia].
  - unfold load_file_history. rewrite Hv. simpl.
    split; [done|]. split; [done|]. split; [done|]. split; [|done].
    split; [done|]. by intros (x & ?%elem_of_nil & _).
Qed.

Lemma model_get_file_history_summary_witness :
  let self := {| FileHistoryModel.current_file := "";
                 FileHistoryModel.history_data := [];
                 FileHistoryModel.sync_pairs := [Examples.pair_AB] |} in
  (FileHistoryModel.get_file_history Examples.scenario_fs ∅ self "/A/doc.txt").1
  = (true, true, 3%nat)
  ∧ (FileHistoryModel.get_file_history Examples.scenario_fs ∅ self
       "/A/gone.txt").1
    = (false, false, 0%nat).
Proof.
  split; [reflexivity|].
  exact (f_equal fst
           (proj1 (proj2 (proj2 (proj2 (proj2
              (model_get_file_history_summary Examples.scenario_fs ∅
                 {| FileHistoryModel.current_file := "";
                    FileHistoryModel.history_data := [];
                    FileHistoryModel.sync_pairs := [Examples.pair_AB] |}
                 "/A/gone.txt"))))) eq_refl)).
Defined.

End resolver_more.

(** ** The history of the parser *)

Section parser_history.

Import FFSConfigParser ParserHistory.

Lemma create_history_item_Some fs file_path version item :
  _create_history_item fs file_path version = Some item →
  ∃ mtime,
    Os.getmtime fs file_path = Some mtime
    ∧ fromtimestamp_ok fs mtime = true
    ∧ item = {| d_file_name := OsPath.basename file_path;
                d_modified_time := mtime;
                d_version := version;
                d_file_path := file_path;
                d_folder_path := OsPath.dirname file_path |}.
Proof.
  unfold _create_history_item, Datetime.fromtimestamp.
  destruct (Os.getmtime fs file_path) as [mtime|]; [|done]. simpl.
  destruct (fromtimestamp_ok fs mtime) eqn:Hok; [|done]. simpl.
  intros [= <-]. by exists mtime.
Qed.

Lemma counterpart_step fs history file_path base other_base version :
  ∃ extra,
    counterpart fs history file_path base other_base version = history ++ extra
    ∧ (length extra ≤ 1)%nat
    ∧ ∀ item, item ∈ extra →
        built_from_path fs item
        ∧ d_version item = version
        ∧ mirrors file_path base other_base item.
Proof.
  unfold counterpart.
  destruct (PurePath.relative_to _ _) as [rel|] eqn:Hrel.
  - destruct (Os.exists_ fs _).
    + destruct (_create_history_item fs _ version) as [item|] eqn:Hitem.
      * exists [item]. split; [done|]. split; [done|].
        intros ? ->%list_elem_of_singleton.
        apply create_history_item_Some in Hitem as (mtime & Hm & _ & ->).
        unfold built_from_path, mirrors. simpl.
        split; [done|]. split; [done|]. by exists rel.
      * exists []. rewrite app_nil_r. split; [done|]. split; [simpl; lia|].
        by intros ? ?%elem_of_nil.
    + exists []. rewrite app_nil_r. split; [done|]. split; [simpl; lia|].
      by intros ? ?%elem_of_nil.
  - exists []. rewrite app_nil_r. split; [done|]. split; [simpl; lia|].
    by intros ? ?%elem_of_nil.
Qed.

Lemma history_of_pair_step fs file_path history sync_pair history' :
  history_of_pair fs file_path history sync_pair = Some history' →
  ∃ extra,
    history' = history ++ extra
    ∧ (length extra ≤ 1)%nat
    ∧ ∀ item, item ∈ extra → entry_of_pair fs file_path sync_pair item.
Proof.
  unfold history_of_pair.
  destruct (resolve fs (left_path sync_pair)) as [lb|] eqn:Hl; [|done].
  destruct (resolve fs (right_path sync_pair)) as [rb|] eqn:Hr; [|done].
  simpl.
  destruct (if PyStr.truthy (versioning_folder sync_pair)
            then resolve fs (versioning_folder sync_pair) else Some "")
    as [vb|]; [|done].
  simpl.
  destruct (PyStr.truthy vb && PyStr.startswith file_path vb).
  - destruct (_create_history_item fs file_path VERSION_ARCHIVE)
      as [item|] eqn:Hitem; [|done].
    simpl. intros [= <-]. exists [item]. split; [done|]. split; [done|].
    intros ? ->%list_elem_of_singleton.
    apply create_history_item_Some in Hitem as (mtime & Hm & _ & ->).
    split; [done|]. by left.
  - destruct (PyStr.startswith file_path lb).
    { intros [= <-].
      destruct (counterpart_step fs history file_path lb rb VERSION_RIGHT)
        as (extra & -> & Hlen & Hex).
      exists extra. split; [done|]. split; [done|].
      intros item Hitem. destruct (Hex item Hitem) as (Hb & Hv & Hm).
      split; [done|]. right. exists lb, rb. auto. }
    destruct (PyStr.startswith file_path rb).
    { intros [= <-].
      destruct (counterpart_step fs history file_path rb lb VERSION_LEFT)
        as (extra & -> & Hlen & Hex).
      exists extra. split; [done|]. split; [done|].
      intros item Hitem. destruct (Hex item Hitem) as (Hb & Hv & Hm).
      split; [done|]. right. exists lb, rb. auto. }
    intros [= <-]. exists []. rewrite app_nil_r. split; [done|].
    split; [simpl; lia|]. by intros ? ?%elem_of_nil.
Qed.

Lemma history_loop_steps fs file_path pairs : ∀ history history',
  history_loop fs file_path history pairs = Some history' →
  ∃ extra,
    history' = history ++ extra
    ∧ (length extra ≤ length pairs)%nat
    ∧ ∀ item, item ∈ extra →
        ∃ sync_pair, sync_pair ∈ pairs
                     ∧ entry_of_pair fs file_path sync_pair item.
Proof.
  induction pairs as [|pair rest IH]; intros history history'; simpl.
  - intros [= <-]. exists []. rewrite app_nil_r. split; [done|].
    split; [done|]. by intros ? ?%elem_of_nil.
  - destruct (history_of_pair fs file_path history pair) as [h1|] eqn:H1;
      [|done].
    simpl. intros H2.
    apply history_of_pair_step in H1 as (e1 & -> & Hlen1 & He1).
    apply IH in H2 as (e2 & -> & Hlen2 & He2).
    exists (e1 ++ e2). rewrite <-(assoc_L (++)). split; [done|].
    split; [rewrite length_app; lia|].
    intros item [Hi|Hi]%elem_of_app.
    + exists pair. split; [by left | auto].
    + destruct (He2 item Hi) as (sp & Hsp & Hentry).
      exists sp. split; [by right | done].
Qed.

(** Whether a turn of the loop raises does not depend on the list so far. *)
Lemma history_of_pair_raises fs file_path h1 h2 sync_pair :
  history_of_pair fs file_path h1 sync_pair = None →
  history_of_pair fs file_path h2 sync_pair = None.
Proof.
  unfold history_of_pair.
  destruct (resolve fs (left_path sync_pair)); [|done].
  destruct (resolve fs (right_path sync_pair)); [|done]. simpl.
  destruct (if PyStr.truthy (versioning_folder sync_pair)
            then resolve fs (versioning_folder sync_pair) else Some "");
    [|done].
  simpl. destruct (PyStr.truthy _ && PyStr.startswith file_path _).
  - by destruct (_create_history_item fs file_path VERSION_ARCHIVE).
  - by repeat destruct (PyStr.startswith file_path _).
Qed.

Lemma history_loop_raises fs file_path pairs sync_pair : ∀ history,
  sync_pair ∈ pairs →
  history_of_pair fs file_path [] sync_pair = None →
  history_loop fs file_path history pairs = None.
Proof.
  induction pairs as [|pair rest IH]; intros history Hin Hnone.
  - by apply elem_of_nil in Hin.
  - simpl. apply elem_of_cons in Hin as [<-|Hin].
    + by rewrite (history_of_pair_raises fs file_path [] history sync_pair Hnone).
    + destruct (history_of_pair fs file_path history pair); [|done].
      simpl. by apply IH.
Qed.

(** X13. The list the parser returns has at most one entry for each pair,
    in the order of the pairs. An entry is built from its own path, whose
    time [getmtime] gives; it is either the file asked for itself, labelled
    as a history version (the file lies below the versioning folder of
    the pair), or the file at the same relative place on the other side of
    the pair, labelled with that side. *)
Theorem parser_history_entries fs self file_path history :
  get_file_history fs self file_path = Some history →
  ∃ resolved,
    resolve fs file_path = Some resolved
    ∧ (length history ≤ length (sync_pairs self))%nat
    ∧ ∀ item, item ∈ history →
        ∃ sync_pair, sync_pair ∈ sync_pairs self
                     ∧ entry_of_pair fs resolved sync_pair item.
Proof.
  unfold get_file_history.
  destruct (resolve fs file_path) as [resolved|]; [|done]. simpl.
  intros (extra & -> & Hlen & Hex)%history_loop_steps.
  exists resolved. split; [done|]. split; [done|]. exact Hex.
Qed.

Lemma parser_history_entries_witness :
  let self := {| sync_pairs := [Examples.pair_AB; MoreExamples.pair_XY] |} in
  let item := {| d_file_name := "doc.txt"; d_modified_time := 20;
                 d_version := VERSION_RIGHT; d_file_path := "/B/doc.txt";
                 d_folder_path := "/B" |} in
  get_file_history Examples.scenario_fs self "/A/doc.txt" = Some [item]
  ∧ ∃ resolved,
      resolve Examples.scenario_fs "/A/doc.txt" = Some resolved
      ∧ (length [item] ≤ length (sync_pairs self))%nat
      ∧ ∀ x, x ∈ [item] →
          ∃ sync_pair, sync_pair ∈ sync_pairs self
                       ∧ entry_of_pair Examples.scenario_fs resolved sync_pair x.
Proof.
  split; [reflexivity|].
  exact (parser_history_entries Examples.scenario_fs
           {| sync_pairs := [Examples.pair_AB; MoreExamples.pair_XY] |}
           "/A/doc.txt" _ eq_refl).
Defined.

(** X14. When the path and the folders of every pair resolve and the file
    exists, with a time that [datetime] takes, the parser returns a list:
    nothing raises. *)
Theorem parser_history_returns fs self file_path resolved s :
  resolve fs file_path = Some resolved →
  (∀ sync_pair, sync_pair ∈ sync_pairs self → resolves fs sync_pair) →
  stat fs resolved = Some s →
  fromtimestamp_ok fs s.1 = true →
  is_Some (get_file_history fs self file_path).
Proof.
  intros Hres Hpairs Hs Hok. unfold get_file_history. rewrite Hres. simpl.
  generalize (@nil history_dict).
  induction (sync_pairs self) as [|pair rest IH]; intros history; simpl.
  - by eexists.
  - destruct (Hpairs pair) as ([lb Hl] & [rb Hr] & Hv); [by left|].
    assert (is_Some (history_of_pair fs resolved history pair)) as [h1 H1].
    { unfold history_of_pair. rewrite Hl, Hr. simpl.
      assert (is_Some (if PyStr.truthy (versioning_folder pair)
                       then resolve fs (versioning_folder pair) else Some ""))
        as [vb ->].
      { destruct (PyStr.truthy (versioning_folder pair)); [auto | by eexists]. }
      simpl. unfold _create_history_item, Os.getmtime, Datetime.fromtimestamp.
      rewrite Hs. simpl. rewrite Hok. simpl.
      destruct (PyStr.truthy vb && PyStr.startswith resolved vb); [by eexists|].
      repeat destruct (PyStr.startswith resolved _); by eexists. }
    rewrite H1. simpl. apply IH. intros sp Hsp. apply Hpairs. by right.
Qed.

Lemma parser_history_returns_witness :
  is_Some (get_file_history Examples.scenario_fs
             {| sync_pairs := [Examples.pair_AB; MoreExamples.pair_XY] |}
             ("/V/" +:+ Examples.archived_name)).
Proof.
  apply (parser_history_returns Examples.scenario_fs
           {| sync_pairs := [Examples.pair_AB; MoreExamples.pair_XY] |}
           ("/V/" +:+ Examples.archived_name)
           ("/V/" +:+ Examples.archived_name) (10, 4) eq_refl).
  - intros sp Hsp. unfold resolves. simpl. repeat split; by eexists.
  - reflexivity.
  - reflexivity.
Defined.

(** X15. A file that cannot be read and whose resolved path begins with
    the resolved versioning folder of some pair makes the call raise,
    whatever the other pairs are: the entry is built outside the [try]
    that guards the two sides. *)
Theorem parser_history_raises_for_missing_archive
    fs self file_path resolved sync_pair versioning_base :
  resolve fs file_path = Some resolved →
  sync_pair ∈ sync_pairs self →
  PyStr.truthy (versioning_folder sync_pair) = true →
  resolve fs (versioning_folder sync_pair) = Some versioning_base →
  PyStr.truthy versioning_base = true →
  PyStr.startswith resolved versioning_base = true →
  stat fs resolved = None →
  get_file_history fs self file_path = None.
Proof.
  intros Hres Hin Hvf Hvb Htruthy Hstarts Hstat.
  unfold get_file_history. rewrite Hres. simpl.
  apply (history_loop_raises fs resolved (sync_pairs self) sync_pair [] Hin).
  unfold history_of_pair.
  destruct (resolve fs (left_path sync_pair)); [|done].
  destruct (resolve fs (right_path sync_pair)); [|done]. simpl.
  rewrite Hvf, Hvb. simpl. rewrite Htruthy, Hstarts. simpl.
  unfold _create_history_item, Os.getmtime. by rewrite Hstat.
Qed.

Lemma parser_history_raises_for_missing_archive_witness :
  get_file_history Examples.scenario_fs
    {| sync_pairs := [MoreExamples.pair_XY; Examples.pair_AB] |} "/V/gone.txt"
  = None
  ∧ get_file_history Examples.scenario_fs
      {| sync_pairs := [MoreExamples.pair_XY; Examples.pair_AB] |} "/A/gone.txt"
    = Some [].
Proof.
  split; [|reflexivity].
  apply (parser_history_raises_for_missing_archive Examples.scenario_fs
           {| sync_pairs := [MoreExamples.pair_XY; Examples.pair_AB] |}
           "/V/gone.txt" "/V/gone.txt" Examples.pair_AB "/V" eq_refl).
  - right. by left.
  - reflexivity.
  - reflexivity.
  - reflexivity.
  - reflexivity.
  - reflexivity.
Defined.

End parser_history.

(** ** The table of remarks, continued *)

Section remarks_more.

Import Remarks.

Lemma find_app_split {A} (p : A → bool) l1 l2 :
  List.find p (l1 ++ l2)
  = match List.find p l1 with Some x => Some x | None => List.find p l2 end.
Proof. induction l1 as [|x l1 IH]; simpl; [done|]. by destruct (p x). Qed.

Lemma update_first_first p f (l1 l2 : table) r :
  List.find p l1 = None → p r = true →
  update_first p f (l1 ++ r :: l2) = Some (l1 ++ f r :: l2).
Proof.
  intros Hn Hr. induction l1 as [|x l1 IH]; simpl in *; [by rewrite Hr|].
  destruct (p x); [done|]. by rewrite IH.
Qed.

Lemma remove_first_first p (l1 l2 : table) r :
  List.find p l1 = None → p r = true →
  remove_first p (l1 ++ r :: l2) = Some (l1 ++ l2).
Proof.
  intros Hn Hr. induction l1 as [|x l1 IH]; simpl in *; [by rewrite Hr|].
  destruct (p x); [done|]. by rewrite IH.
Qed.

(** The three ways of [set_remarks] with a text that is not blank: the
    row of the path, else the first row with the hash of the file, else a
    new row at the end. *)
Lemma set_remarks_cases fs now db path text np :
  _normalize_path fs path = Some np →
  PyStr.truthy (PyStr.strip text) = true →
  (∃ l1 r l2,
      db = l1 ++ r :: l2 ∧ List.find (path_is np) l1 = None
      ∧ path_is np r = true
      ∧ set_remarks fs now db path text
        = (l1 ++ set_text (PyStr.strip text) now r :: l2, true))
  ∨ (List.find (path_is np) db = None
     ∧ PyStr.truthy (sha256 fs path) = true
     ∧ ∃ l1 r l2,
         db = l1 ++ r :: l2 ∧ List.find (hash_is (sha256 fs path)) l1 = None
         ∧ hash_is (sha256 fs path) r = true
         ∧ set_remarks fs now db path text
           = (l1 ++ set_path_and_text np (PyStr.strip text) now r :: l2, true))
  ∨ (List.find (path_is np) db = None
     ∧ (PyStr.truthy (sha256 fs path) = true →
        List.find (hash_is (sha256 fs path)) db = None)
     ∧ set_remarks fs now db path text
       = (db ++ [{| id := next_id db;
                    file_path := np;
                    file_hash := sha256 fs path;
                    remarks := PyStr.strip text;
                    created_at := now;
                    updated_at := now |}], true)).
Proof.
  intros Hnp Htext. unfold set_remarks. rewrite Htext, Hnp. simpl.
  destruct (update_first (path_is np) _ db) as [db'|] eqn:H1.
  { apply update_first_Some in H1 as (l1 & r & l2 & -> & -> & Hr & Hn & _).
    left. by exists l1, r, l2. }
  apply update_first_None in H1. right.
  destruct (PyStr.truthy (sha256 fs path)) eqn:Hh.
  - destruct (update_first (hash_is _) _ db) as [db'|] eqn:H2.
    + apply update_first_Some in H2 as (l1 & r & l2 & -> & -> & Hr & Hn & _).
      left. split; [done|]. split; [done|]. by exists l1, r, l2.
    + apply update_first_None in H2. right. done.
  - right. done.
Qed.

(** The ways of [delete_remarks]. *)
Lemma delete_remarks_cases fs db path np :
  _normalize_path fs path = Some np →
  (∃ l1 r l2,
      db = l1 ++ r :: l2 ∧ List.find (path_is np) l1 = None
      ∧ path_is np r = true
      ∧ delete_remarks fs db path = (l1 ++ l2, true))
  ∨ (List.find (path_is np) db = None
     ∧ PyStr.truthy (sha256 fs path) = true
     ∧ ∃ l1 r l2,
         db = l1 ++ r :: l2 ∧ List.find (hash_is (sha256 fs path)) l1 = None
         ∧ hash_is (sha256 fs path) r = true
         ∧ delete_remarks fs db path = (l1 ++ l2, true))
  ∨ (List.find (path_is np) db = None
     ∧ delete_remarks fs db path = (db, PyStr.truthy (sha256 fs path))).
Proof.
  intros Hnp. unfold delete_remarks. rewrite Hnp.
  destruct (remove_first (path_is np) db) as [db'|] eqn:H1.
  { apply remove_first_Some in H1 as (l1 & r & l2 & -> & -> & Hr & Hn).
    left. by exists l1, r, l2. }
  apply remove_first_None in H1. right.
  destruct (PyStr.truthy (sha256 fs path)) eqn:Hh; [|by right].
  destruct (remove_first (hash_is _) db) as [db'|] eqn:H2.
  - apply remove_first_Some in H2 as (l1 & r & l2 & -> & -> & Hr & Hn).
    left. split; [done|]. split; [done|]. by exists l1, r, l2.
  - by right.
Qed.

Lemma foldr_max_ge (l : list nat) n : n ∈ l → (n ≤ foldr Nat.max 0 l)%nat.
Proof.
  induction l as [|x l IH]; [by intros ?%elem_of_nil|].
  intros [->|H]%elem_of_cons; simpl; [lia|]. specialize (IH H). lia.
Qed.

Lemma increasing_snoc (l : list nat) n :
  StronglySorted lt l → (∀ x, x ∈ l → (x < n)%nat) →
  StronglySorted lt (l ++ [n]).
Proof.
  induction 1 as [|x l Hl IH Hx]; intros Hn; simpl.
  - repeat constructor.
  - constructor.
    + apply IH. intros y Hy. apply Hn. by right.
    + apply Forall_app. split; [done|]. constructor; [|done].
      apply Hn. by left.
Qed.

Lemma increasing_without (l1 l2 : list nat) n :
  StronglySorted lt (l1 ++ n :: l2) → StronglySorted lt (l1 ++ l2).
Proof.
  induction l1 as [|x l1 IH]; simpl; intros H.
  - by apply StronglySorted_inv in H as [? _].
  - apply StronglySorted_inv in H as [H Hx]. constructor; [by apply IH|].
    rewrite Forall_app in *. destruct Hx as [H1 H2].
    split; [done|]. by apply Forall_cons in H2 as [_ ?].
Qed.

(** X16. The keys of the rows increase along the table, whatever the two
    writers have done to it: a new row gets a key above all present ones,
    and a changed row keeps its key. So no two rows share a key. *)
Theorem remarks_ids_increasing db :
  reachable db → StronglySorted lt (id <$> db) ∧ NoDup (id <$> db).
Proof.
  intros Hreach.
  assert (Hsorted : StronglySorted lt (id <$> db)).
  { induction Hreach as [|fs now db path text _ IH|fs db path _ IH].
    - constructor.
    - assert (Hdel : StronglySorted lt (id <$> (delete_remarks fs db path).1)).
      { destruct (_normalize_path fs path) as [np|] eqn:Hnp;
          [|by unfold delete_remarks; rewrite Hnp].
        destruct (delete_remarks_cases fs db path np Hnp)
          as [(l1 & r & l2 & -> & _ & _ & ->)
             |[(_ & _ & l1 & r & l2 & -> & _ & _ & ->)|[_ ->]]]; simpl.
        - rewrite fmap_app in *. by eapply increasing_without.
        - rewrite fmap_app in *. by eapply increasing_without.
        - done. }
      destruct (PyStr.truthy (PyStr.strip text)) eqn:Htext;
        [|by unfold set_remarks; rewrite Htext].
      destruct (_normalize_path fs path) as [np|] eqn:Hnp;
        [|by unfold set_remarks; rewrite Htext, Hnp].
      destruct (set_remarks_cases fs now db path text np Hnp Htext)
        as [(l1 & r & l2 & -> & _ & _ & ->)
           |[(_ & _ & l1 & r & l2 & -> & _ & _ & ->)|(_ & _ & ->)]]; simpl.
      + by rewrite fmap_app in *.
      + by rewrite fmap_app in *.
      + rewrite fmap_app. simpl. apply increasing_snoc; [done|].
        intros x Hx. apply foldr_max_ge in Hx. unfold next_id. lia.
    - destruct (_normalize_path fs path) as [np|] eqn:Hnp;
        [|by unfold delete_remarks; rewrite Hnp].
      destruct (delete_remarks_cases fs db path np Hnp)
        as [(l1 & r & l2 & -> & _ & _ & ->)
           |[(_ & _ & l1 & r & l2 & -> & _ & _ & ->)|[_ ->]]]; simpl.
      + rewrite fmap_app in *. by eapply increasing_without.
      + rewrite fmap_app in *. by eapply increasing_without.
      + done. }
  split; [done|].
  clear Hreach. induction Hsorted as [|x l Hl IH Hx]; constructor; [|done].
  intros Hin. rewrite Forall_forall in Hx. specialize (Hx x Hin). lia.
Qed.

Lemma remarks_ids_increasing_witness :
  id <$> Examples.two_remarks = [1%nat; 2%nat]
  ∧ StronglySorted lt (id <$> Examples.two_remarks)
  ∧ NoDup (id <$> Examples.two_remarks).
Proof.
  split; [reflexivity|].
  apply (remarks_ids_increasing Examples.two_remarks).
  apply (reach_set Examples.remarks_fs 2 _ "/A/notes.txt" " to do ").
  apply (reach_set Examples.remarks_fs 1 [] "/A/doc.txt" "first draft").
  apply reach_nil.
Defined.

(** X17. [set_remarks] with a text that is not blank removes no row and
    adds at most one; it leaves the key, the hash and the creation time of
    every row as they were, also when the file has new contents. It
    returns [True] exactly when the session works and the path can be
    normalized, and otherwise leaves the table as it was. *)
Theorem set_remarks_keeps_identity s fs now db path text :
  PyStr.truthy (PyStr.strip text) = true →
  let result := FileRemarksManager.set_remarks s fs now db path text in
  id <$> db `prefix_of` id <$> result.1
  ∧ file_hash <$> db `prefix_of` file_hash <$> result.1
  ∧ created_at <$> db `prefix_of` created_at <$> result.1
  ∧ (length result.1 ≤ S (length db))%nat
  ∧ result.2 = bool_decide (s = FileRemarksManager.Working
                            ∧ is_Some (_normalize_path fs path))
  ∧ (result.2 = false → result.1 = db).
Proof.
  intros Htext. simpl. destruct s; unfold FileRemarksManager.set_remarks.
  - destruct (_normalize_path fs path) as [np|] eqn:Hnp.
    + rewrite bool_decide_eq_true_2 by (split; [done | by eexists]).
      destruct (set_remarks_cases fs now db path text np Hnp Htext)
        as [(l1 & r & l2 & -> & _ & _ & ->)
           |[(_ & _ & l1 & r & l2 & -> & _ & _ & ->)|(_ & _ & ->)]]; simpl.
      * rewrite !fmap_app, !length_app. simpl. repeat split; try done. lia.
      * rewrite !fmap_app, !length_app. simpl. repeat split; try done. lia.
      * rewrite !fmap_app, !length_app. simpl.
        repeat split; try done; try (by eexists). lia.
    + rewrite bool_decide_eq_false_2 by (by intros [_ [? ?]]).
      unfold set_remarks. rewrite Htext, Hnp. simpl.
      repeat split; try done. lia.
  - rewrite bool_decide_eq_false_2 by (by intros [? _]). simpl.
    repeat split; try done. lia.
Qed.

Lemma set_remarks_keeps_identity_witness :
  let result := FileRemarksManager.set_remarks FileRemarksManager.Working
                  Examples.remarks_fs_overwritten 9 Examples.two_remarks
                  "/A/notes.txt" "done" in
  sha256 Examples.remarks_fs_overwritten "/A/notes.txt" = "h1"
  ∧ file_hash <$> result.1 = ["h1"; "h2"]
  ∧ remarks <$> result.1 = ["first draft"; "done"]
  ∧ result.2 = true
  ∧ file_hash <$> Examples.two_remarks `prefix_of` file_hash <$> result.1.
Proof.
  split; [reflexivity|]. split; [reflexivity|]. split; [reflexivity|].
  split; [reflexivity|].
  exact (proj1 (proj2 (set_remarks_keeps_identity FileRemarksManager.Working
                         Examples.remarks_fs_overwritten 9 Examples.two_remarks
                         "/A/notes.txt" "done" eq_refl))).
Defined.

(** X18. The record [get_remarks_record] returns always carries the
    normalized path asked for. Its other fields are those of a row of the
    table: the row with that path, or, when no row has the path, the
    first row with the hash of the file, as for a file that has been
    moved. *)
Theorem get_remarks_record_found fs db path record :
  get_remarks_record fs db path = Some record →
  _normalize_path fs path = Some (file_path record)
  ∧ ∃ row,
      row ∈ db
      ∧ id record = id row ∧ file_hash record = file_hash row
      ∧ remarks record = remarks row
      ∧ created_at record = created_at row
      ∧ updated_at record = updated_at row
      ∧ (List.find (path_is (file_path record)) db = Some row
         ∨ (List.find (path_is (file_path record)) db = None
            ∧ PyStr.truthy (sha256 fs path) = true
            ∧ List.find (hash_is (sha256 fs path)) db = Some row)).
Proof.
  unfold get_remarks_record.
  destruct (_normalize_path fs path) as [np|]; [|done].
  destruct (List.find (path_is np) db) as [row|] eqn:H1.
  - intros [= ->]. destruct (find_some _ _ H1) as [Hin Hp].
    unfold path_is in Hp. apply bool_decide_eq_true in Hp.
    rewrite Hp. split; [done|]. exists record.
    split; [by apply list_elem_of_In|]. auto 10.
  - destruct (PyStr.truthy (sha256 fs path)) eqn:Hh; [|done].
    destruct (List.find (hash_is _) db) as [row|] eqn:H2; [|done].
    intros [= <-]. simpl. split; [done|]. exists row.
    destruct (find_some _ _ H2) as [Hin _].
    split; [by apply list_elem_of_In|]. auto 10.
Qed.

Lemma get_remarks_record_found_witness :
  get_remarks_record MoreExamples.remarks_fs_moved MoreExamples.one_remark
    "/A/renamed.txt"
  = Some {| id := 1; file_path := "/A/renamed.txt"; file_hash := "h1";
            remarks := "first draft"; created_at := 1; updated_at := 1 |}
  ∧ _normalize_path MoreExamples.remarks_fs_moved "/A/renamed.txt"
    = Some "/A/renamed.txt"
  ∧ file_path <$> MoreExamples.one_remark = ["/A/doc.txt"].
Proof.
  split; [reflexivity|]. split; [|reflexivity].
  exact (proj1 (get_remarks_record_found MoreExamples.remarks_fs_moved
                  MoreExamples.one_remark "/A/renamed.txt" _ eq_refl)).
Defined.

(** The methods, whether their session works or fails, keep the table
    among those the two writers build. *)
Lemma manager_reachable s fs now db path text :
  reachable db →
  reachable (FileRemarksManager.set_remarks s fs now db path text).1
  ∧ reachable (FileRemarksManager.delete_remarks s fs db path).1.
Proof. intros H. destruct s; [split; by constructor | by split]. Qed.

(** A call of [set_remarks] that returns [True] had a session that
    works. *)
Lemma set_remarks_true s fs now db path text :
  (FileRemarksManager.set_remarks s fs now db path text).2 = true →
  FileRemarksManager.set_remarks s fs now db path text
  = set_remarks fs now db path text.
Proof. by destruct s. Qed.

(** X19. Annotating a file that has no row of its own while a row has the
    hash of its contents takes that row over, when the call returns
    [True]: the table keeps its size, the row now has the path of the
    file, and the path the row had has no row any more. A copy of an
    annotated file thus takes the remarks away from the original. *)
Theorem set_remarks_takes_over_row_by_hash s fs now db path text np r :
  Spec.distinct_paths db →
  _normalize_path fs path = Some np →
  PyStr.truthy (PyStr.strip text) = true →
  List.find (path_is np) db = None →
  PyStr.truthy (sha256 fs path) = true →
  List.find (hash_is (sha256 fs path)) db = Some r →
  (FileRemarksManager.set_remarks s fs now db path text).2 = true →
  let db' := (FileRemarksManager.set_remarks s fs now db path text).1 in
  length db' = length db
  ∧ (file_path r ∉ file_path <$> db')
  ∧ List.find (path_is np) db'
    = Some (set_path_and_text np (PyStr.strip text) now r).
Proof.
  intros Hnd Hnp Htext Hpath Hh Hr Htrue. simpl.
  rewrite (set_remarks_true _ _ _ _ _ _ Htrue).
  destruct (set_remarks_cases fs now db path text np Hnp Htext)
    as [(l1 & r' & l2 & -> & _ & Hr' & _)
       |[(_ & _ & l1 & r' & l2 & -> & Hn & Hr' & ->)|(_ & Hnone & _)]].
  - rewrite find_app_split in Hpath. destruct (List.find _ l1); [done|].
    simpl in Hpath. by rewrite Hr' in Hpath.
  - rewrite find_app_split, Hn in Hr. simpl in Hr. rewrite Hr' in Hr.
    injection Hr as ->. simpl.
    apply find_app_None_inv in Hpath as [Hp1 Hp2]. simpl in Hp2.
    destruct (path_is np r) eqn:Hpr; [done|].
    unfold path_is in Hpr. apply bool_decide_eq_false in Hpr.
    split; [by rewrite !length_app|]. split.
    + unfold Spec.distinct_paths in Hnd. rewrite fmap_app in *. simpl in *.
      apply NoDup_app in Hnd as (_ & Hdisj & Hnd).
      apply NoDup_cons in Hnd as [Hnr _].
      rewrite elem_of_app, elem_of_cons.
      intros [H|[H|H]]; [|done..].
      apply (Hdisj _ H). by left.
    + rewrite find_app_split, Hp1. simpl. unfold path_is at 1. simpl.
      by rewrite bool_decide_eq_true_2.
  - by rewrite (Hnone Hh) in Hr.
Qed.

Lemma set_remarks_takes_over_row_by_hash_witness :
  let db' := (FileRemarksManager.set_remarks FileRemarksManager.Working
                Examples.remarks_fs_overwritten 9
                MoreExamples.one_remark "/A/notes.txt" "mine").1 in
  file_path <$> MoreExamples.one_remark = ["/A/doc.txt"]
  ∧ is_Some (stat Examples.remarks_fs_overwritten "/A/doc.txt")
  ∧ length db' = 1%nat
  ∧ ("/A/doc.txt" ∉ file_path <$> db').
Proof.
  split; [reflexivity|]. split; [by eexists|].
  pose proof (set_remarks_takes_over_row_by_hash FileRemarksManager.Working
                Examples.remarks_fs_overwritten 9 MoreExamples.one_remark
                "/A/notes.txt" "mine" "/A/notes.txt"
                {| id := 1; file_path := "/A/doc.txt"; file_hash := "h1";
                   remarks := "first draft"; created_at := 1;
                   updated_at := 1 |}) as H.
  destruct H as (H1 & H2 & _).
  - unfold Spec.distinct_paths. simpl. apply NoDup_singleton.
  - reflexivity.
  - reflexivity.
  - reflexivity.
  - reflexivity.
  - reflexivity.
  - reflexivity.
  - split; [exact H1 | exact H2].
Defined.

(** X20. When two calls of [set_remarks] with the same text, one after
    the other, both return [True], the second finds the row of the path
    and changes nothing but its time of update, whichever way the first
    call took. *)
Theorem set_remarks_again s1 s2 fs now1 now2 db path text np :
  _normalize_path fs path = Some np →
  PyStr.truthy (PyStr.strip text) = true →
  (FileRemarksManager.set_remarks s1 fs now1 db path text).2 = true →
  (FileRemarksManager.set_remarks s2 fs now2
     (FileRemarksManager.set_remarks s1 fs now1 db path text).1 path text).2
  = true →
  ∃ l1 r l2,
    (FileRemarksManager.set_remarks s1 fs now1 db path text).1 = l1 ++ r :: l2
    ∧ file_path r = np
    ∧ remarks r = PyStr.strip text
    ∧ FileRemarksManager.set_remarks s2 fs now2 (l1 ++ r :: l2) path text
      = (l1 ++ {| id := id r; file_path := file_path r;
                  file_hash := file_hash r; remarks := remarks r;
                  created_at := created_at r; updated_at := now2 |} :: l2,
         true).
Proof.
  intros Hnp Htext Hfirst Hsecond'.
  rewrite (set_remarks_true _ _ _ _ _ _ Hfirst) in *.
  assert (s2 = FileRemarksManager.Working) as -> by (by destruct s2).
  unfold FileRemarksManager.set_remarks. clear Hfirst Hsecond'.
  assert (Hsecond : ∀ l1 r l2,
    List.find (path_is np) l1 = None → file_path r = np →
    remarks r = PyStr.strip text →
    set_remarks fs now2 (l1 ++ r :: l2) path text
    = (l1 ++ {| id := id r; file_path := file_path r;
                file_hash := file_hash r; remarks := remarks r;
                created_at := created_at r; updated_at := now2 |} :: l2,
       true)).
  { intros l1 r l2 Hn Hp Ht. unfold set_remarks. rewrite Htext, Hnp. simpl.
    rewrite (update_first_first _ _ l1 l2 r Hn)
      by (unfold path_is; by apply bool_decide_eq_true).
    unfold set_text. by rewrite Ht. }
  destruct (set_remarks_cases fs now1 db path text np Hnp Htext)
    as [(l1 & r & l2 & -> & Hn & Hr & ->)
       |[(Hnone & _ & l1 & r & l2 & -> & _ & _ & ->)|(Hnone & _ & ->)]]; simpl.
  - unfold path_is in Hr. apply bool_decide_eq_true in Hr.
    exists l1, (set_text (PyStr.strip text) now1 r), l2.
    split; [done|]. split; [done|]. split; [done|]. by apply Hsecond.
  - apply find_app_None_inv in Hnone as [Hn _].
    exists l1, (set_path_and_text np (PyStr.strip text) now1 r), l2.
    split; [done|]. split; [done|]. split; [done|]. by apply Hsecond.
  - eexists db, _, []. split; [done|]. split; [done|]. split; [done|].
    by apply Hsecond.
Qed.

Lemma set_remarks_again_witness :
  FileRemarksManager.set_remarks FileRemarksManager.Working
    Examples.remarks_fs 7
    (FileRemarksManager.set_remarks FileRemarksManager.Working
       Examples.remarks_fs 1 [] "/A/doc.txt" "first draft").1
    "/A/doc.txt" "first draft"
  = ([{| id := 1; file_path := "/A/doc.txt"; file_hash := "h1";
         remarks := "first draft"; created_at := 1; updated_at := 7 |}], true)
  ∧ ∃ l1 r l2,
      (FileRemarksManager.set_remarks FileRemarksManager.Working
         Examples.remarks_fs 1 [] "/A/doc.txt" "first draft").1
      = l1 ++ r :: l2
      ∧ file_path r = "/A/doc.txt"
      ∧ remarks r = PyStr.strip "first draft"
      ∧ FileRemarksManager.set_remarks FileRemarksManager.Working
          Examples.remarks_fs 7 (l1 ++ r :: l2) "/A/doc.txt" "first draft"
        = (l1 ++ {| id := id r; file_path := file_path r;
                    file_hash := file_hash r; remarks := remarks r;
                    created_at := created_at r; updated_at := 7 |} :: l2,
           true).
Proof.
  split; [reflexivity|].
  exact (set_remarks_again FileRemarksManager.Working
           FileRemarksManager.Working Examples.remarks_fs 1 7 []
           "/A/doc.txt" "first draft" "/A/doc.txt" eq_refl eq_refl eq_refl
           eq_refl).
Defined.

(** X21. When [set_remarks] has added the remarks of a file as a new row
    and returned [True], a [delete_remarks] whose session works gives the
    table back as it was, and returns [True]. *)
Theorem set_then_delete_new_row s fs now db path text np :
  _normalize_path fs path = Some np →
  PyStr.truthy (PyStr.strip text) = true →
  List.find (path_is np) db = None →
  (PyStr.truthy (sha256 fs path) = true →
   List.find (hash_is (sha256 fs path)) db = None) →
  (FileRemarksManager.set_remarks s fs now db path text).2 = true →
  FileRemarksManager.delete_remarks FileRemarksManager.Working fs
    (FileRemarksManager.set_remarks s fs now db path text).1 path
  = (db, true).
Proof.
  intros Hnp Htext Hpath Hhash Htrue.
  rewrite (set_remarks_true _ _ _ _ _ _ Htrue).
  unfold FileRemarksManager.delete_remarks.
  destruct (set_remarks_cases fs now db path text np Hnp Htext)
    as [(l1 & r & l2 & -> & _ & Hr & _)
       |[(_ & Hh & l1 & r & l2 & -> & _ & Hr & _)|(_ & _ & ->)]].
  - rewrite find_app_split in Hpath. destruct (List.find _ l1); [done|].
    simpl in Hpath. by rewrite Hr in Hpath.
  - specialize (Hhash Hh). rewrite find_app_split in Hhash.
    destruct (List.find _ l1); [done|]. simpl in Hhash. by rewrite Hr in Hhash.
  - simpl. unfold delete_remarks. rewrite Hnp.
    rewrite (remove_first_first _ db [] _ Hpath)
      by (unfold path_is; simpl; by apply bool_decide_eq_true).
    by rewrite app_nil_r.
Qed.

Lemma set_then_delete_new_row_witness :
  FileRemarksManager.delete_remarks FileRemarksManager.Working
    Examples.remarks_fs
    (FileRemarksManager.set_remarks FileRemarksManager.Working
       Examples.remarks_fs 2 MoreExamples.one_remark
       "/A/notes.txt" "to do").1 "/A/notes.txt"
  = (MoreExamples.one_remark, true).
Proof.
  exact (set_then_delete_new_row FileRemarksManager.Working
           Examples.remarks_fs 2 MoreExamples.one_remark
           "/A/notes.txt" "to do" "/A/notes.txt" eq_refl eq_refl eq_refl
           (λ _, eq_refl) eq_refl).
Defined.

(** X22. When the path has a row of its own, writing or deleting its
    remarks leaves the row of every other path as it is. *)
Theorem remarks_writers_leave_other_paths fs now db path text np q :
  _normalize_path fs path = Some np →
  is_Some (List.find (path_is np) db) →
  q ≠ np →
  List.find (path_is q) (set_remarks fs now db path text).1
  = List.find (path_is q) db
  ∧ List.find (path_is q) (delete_remarks fs db path).1
    = List.find (path_is q) db.
Proof.
  intros Hnp [row Hrow] Hq.
  assert (Hother : ∀ r, path_is np r = true → path_is q r = false).
  { intros r Hr. unfold path_is in *. apply bool_decide_eq_true in Hr.
    apply bool_decide_eq_false. congruence. }
  assert (Hdel : List.find (path_is q) (delete_remarks fs db path).1
                 = List.find (path_is q) db).
  { destruct (delete_remarks_cases fs db path np Hnp)
      as [(l1 & r & l2 & -> & _ & Hr & ->)|[(Hnone & _)|(Hnone & _)]];
      [|by rewrite Hnone in Hrow..].
    simpl. rewrite !find_app_split. simpl. by rewrite (Hother r Hr). }
  split; [|done].
  destruct (PyStr.truthy (PyStr.strip text)) eqn:Htext;
    [|by unfold set_remarks; rewrite Htext].
  destruct (set_remarks_cases fs now db path text np Hnp Htext)
    as [(l1 & r & l2 & -> & _ & Hr & ->)|[(Hnone & _)|(Hnone & _)]];
    [|by rewrite Hnone in Hrow..].
  simpl. rewrite !find_app_split. simpl.
  rewrite (Hother r Hr).
  assert (path_is q (set_text (PyStr.strip text) now r) = false) as ->; [|done].
  apply (Hother r Hr).
Qed.

Lemma remarks_writers_leave_other_paths_witness :
  List.find (path_is "/A/notes.txt")
    (set_remarks Examples.remarks_fs 9 Examples.two_remarks "/A/doc.txt"
       "final").1
  = List.find (path_is "/A/notes.txt") Examples.two_remarks
  ∧ List.find (path_is "/A/notes.txt")
      (delete_remarks Examples.remarks_fs Examples.two_remarks "/A/doc.txt").1
    = List.find (path_is "/A/notes.txt") Examples.two_remarks.
Proof.
  apply (remarks_writers_leave_other_paths Examples.remarks_fs 9
           Examples.two_remarks "/A/doc.txt" "final" "/A/doc.txt"
           "/A/notes.txt").
  - reflexivity.
  - by eexists.
  - by vm_compute.
Defined.

End remarks_more.

(** ** The characters of a string *)

Section characters.

Import Utf8.

Lemma cont_ascii a : (byte a < 128)%N → cont a = false.
Proof. unfold cont, within. intros H. apply andb_false_iff. left. by apply N.leb_gt. Qed.

Lemma two_ascii x a : (byte a < 128)%N → two x a = false.
Proof. intros H. unfold two. by rewrite (cont_ascii a H), andb_false_r. Qed.

Lemma within_ascii lo hi a : (128 ≤ lo)%N → (byte a < 128)%N → within lo hi a = false.
Proof. unfold within. intros H1 H2. apply andb_false_iff. left. apply N.leb_gt. lia. Qed.

Lemma three_ascii_2 x a c : (byte a < 128)%N → three x a c = false.
Proof.
  intros H. unfold three.
  rewrite (cont_ascii a H), !(within_ascii _ _ a) by (done || lia).
  by rewrite !andb_false_r.
Qed.

Lemma three_ascii_3 x b a : (byte a < 128)%N → three x b a = false.
Proof. intros H. unfold three. by rewrite (cont_ascii a H), andb_false_r. Qed.

Lemma four_ascii_2 x a c d : (byte a < 128)%N → four x a c d = false.
Proof.
  intros H. unfold four.
  rewrite (cont_ascii a H), !(within_ascii _ _ a) by (done || lia).
  by rewrite !andb_false_r.
Qed.

Lemma four_ascii_3 x b a d : (byte a < 128)%N → four x b a d = false.
Proof. intros H. unfold four. by rewrite (cont_ascii a H), andb_false_r. Qed.

Lemma four_ascii_4 x b c a : (byte a < 128)%N → four x b c a = false.
Proof. intros H. unfold four. by rewrite (cont_ascii a H), andb_false_r. Qed.

Lemma chars_ascii a s :
  (byte a < 128)%N → chars (String a s) = char1 a :: chars s.
Proof. intros H. simpl. apply N.ltb_lt in H. by rewrite H. Qed.

(** The unfolding of [chars] on a byte that opens a sequence. *)
Lemma chars_high x s1 :
  (byte x <? 128)%N = false →
  chars (String x s1)
  = match s1 with
    | EmptyString => lone x :: chars s1
    | String b s2 =>
        if two x b then char2 x b :: chars s2
        else
          match s2 with
          | EmptyString => lone x :: chars s1
          | String c s3 =>
              if three x b c then char3 x b c :: chars s3
              else
                match s3 with
                | EmptyString => lone x :: chars s1
                | String d s4 =>
                    if four x b c d then char4 x b c d :: chars s4
                    else lone x :: chars s1
                end
          end
    end.
Proof. intros H. simpl. by rewrite H. Qed.

(** An ASCII byte ends whatever precedes it: the characters before it do
    not depend on what follows. *)
Lemma chars_app_ascii s a t :
  (byte a < 128)%N →
  chars (s +:+ String a t) = chars s ++ chars (String a t).
Proof.
  intros Ha. remember (String.length s) as n eqn:Hn. revert s Hn.
  induction n as [n IH] using lt_wf_ind. intros s Hn.
  destruct s as [|x s1]; [done|].
  change (String x s1 +:+ String a t) with (String x (s1 +:+ String a t)).
  destruct (byte x <? 128)%N eqn:Hx.
  { apply N.ltb_lt in Hx. rewrite !(chars_ascii x) by done.
    rewrite <-app_comm_cons. f_equal.
    apply (IH (String.length s1)); [simpl in Hn; lia | done]. }
  rewrite !(chars_high x) by done.
  assert (Hs1 : chars (s1 +:+ String a t) = chars s1 ++ chars (String a t)).
  { apply (IH (String.length s1)); [simpl in Hn; lia | done]. }
  destruct s1 as [|b s2].
  { change ("" +:+ String a t) with (String a t). cbv beta match.
    rewrite (two_ascii x a Ha).
    destruct t as [|c [|d t]]; cbv beta match;
      rewrite ?three_ascii_2, ?four_ascii_2 by done; reflexivity. }
  change (String b s2 +:+ String a t) with (String b (s2 +:+ String a t)).
  cbv beta match.
  destruct (two x b).
  { rewrite <-app_comm_cons. f_equal.
    apply (IH (String.length s2)); [simpl in Hn; lia | done]. }
  destruct s2 as [|c s3].
  { change ("" +:+ String a t) with (String a t). cbv beta match.
    rewrite (three_ascii_3 x b a Ha).
    change (String b ("" +:+ String a t)) with (String b "" +:+ String a t)
      in Hs1.
    destruct t as [|d t]; cbv beta match; rewrite ?four_ascii_3 by done;
      by rewrite <-app_comm_cons, <-Hs1. }
  change (String c s3 +:+ String a t) with (String c (s3 +:+ String a t)).
  cbv beta match.
  destruct (three x b c).
  { rewrite <-app_comm_cons. f_equal.
    apply (IH (String.length s3)); [simpl in Hn; lia | done]. }
  destruct s3 as [|d s4].
  { change ("" +:+ String a t) with (String a t). cbv beta match.
    rewrite (four_ascii_4 x b c a Ha). by rewrite <-app_comm_cons, <-Hs1. }
  change (String d s4 +:+ String a t) with (String d (s4 +:+ String a t)).
  cbv beta match.
  destruct (four x b c d).
  { rewrite <-app_comm_cons. f_equal.
    apply (IH (String.length s4)); [simpl in Hn; lia | done]. }
  by rewrite <-app_comm_cons, <-Hs1.
Qed.

Lemma within_bounds lo hi a :
  within lo hi a = true → (lo ≤ byte a ≤ hi)%N.
Proof. unfold within. intros [H1 H2]%andb_prop. split; by apply N.leb_le. Qed.

Lemma char2_high a b : two a b = true → (128 ≤ (char2 a b).2)%N.
Proof.
  unfold two, cont. intros [H1%within_bounds H2%within_bounds]%andb_prop.
  simpl. lia.
Qed.

Lemma char3_high a b c : three a b c = true → (128 ≤ (char3 a b c).2)%N.
Proof.
  unfold three, cont. intros [H _]%andb_prop. simpl.
  apply orb_prop in H as [H|H]; [apply orb_prop in H as [H|H]|].
  - apply andb_prop in H as [H1%within_bounds H2%within_bounds]. lia.
  - apply andb_prop in H as [H1 H2%within_bounds].
    apply orb_prop in H1 as [H1%within_bounds|H1%within_bounds]; lia.
  - apply andb_prop in H as [H1%within_bounds H2%within_bounds]. lia.
Qed.

Lemma char4_high a b c d : four a b c d = true → (128 ≤ (char4 a b c d).2)%N.
Proof.
  unfold four, cont. intros [[H _]%andb_prop _]%andb_prop. simpl.
  apply orb_prop in H as [H|H]; [apply orb_prop in H as [H|H]|].
  - apply andb_prop in H as [H1%within_bounds H2%within_bounds]. lia.
  - apply andb_prop in H as [H1%within_bounds H2%within_bounds]. lia.
  - apply andb_prop in H as [H1%within_bounds H2%within_bounds]. lia.
Qed.

(** The first character of a string and the rest. *)
Lemma chars_step s :
  s ≠ "" →
  ∃ c rest,
    s = c.1 +:+ rest ∧ chars s = c :: chars rest ∧ ascii_or_high c
    ∧ (String.length rest < String.length s)%nat.
Proof.
  destruct s as [|x s1]; [done|]. intros _.
  destruct (byte x <? 128)%N eqn:Hx.
  { exists (char1 x), s1. apply N.ltb_lt in Hx.
    split; [done|]. split; [by apply chars_ascii|].
    split; [left; by exists x | simpl; lia]. }
  rewrite (chars_high x) by done. apply N.ltb_ge in Hx.
  assert (Hlone : ∃ c rest,
    String x s1 = c.1 +:+ rest ∧ lone x :: chars s1 = c :: chars rest
    ∧ ascii_or_high c
    ∧ (String.length rest < String.length (String x s1))%nat).
  { exists (lone x), s1. split; [done|]. split; [done|].
    split; [|simpl; lia]. right. simpl. split; [lia|]. by exists x, "". }
  destruct s1 as [|b s2]; [exact Hlone|].
  destruct (two x b) eqn:H2.
  { exists (char2 x b), s2. split; [done|]. split; [done|].
    split; [|simpl; lia]. right. split; [by apply char2_high|].
    by exists x, (String b ""). }
  destruct s2 as [|c s3]; [exact Hlone|].
  destruct (three x b c) eqn:H3.
  { exists (char3 x b c), s3. split; [done|]. split; [done|].
    split; [|simpl; lia]. right. split; [by apply char3_high|].
    by exists x, (String b (String c "")). }
  destruct s3 as [|d s4]; [exact Hlone|].
  destruct (four x b c d) eqn:H4; [|exact Hlone].
  exists (char4 x b c d), s4. split; [done|]. split; [done|].
  split; [|simpl; lia]. right. split; [by apply char4_high|].
  by exists x, (String b (String c (String d ""))).
Qed.

Lemma string_app_assoc (s t u : string) : (s +:+ t) +:+ u = s +:+ t +:+ u.
Proof.
  induction s as [|a s IH]; [done|].
  change (String a (s +:+ t) +:+ u = String a (s +:+ t +:+ u)).
  change (String a ((s +:+ t) +:+ u) = String a (s +:+ t +:+ u)).
  by rewrite IH.
Qed.

(** The bytes of the characters, in order, are the string. *)
Lemma unchars_chars s : unchars (chars s) = s.
Proof.
  remember (String.length s) as n eqn:Hn. revert s Hn.
  induction n as [n IH] using lt_wf_ind. intros s Hn.
  destruct (decide (s = "")) as [->|Hs]; [done|].
  destruct (chars_step s Hs) as (c & rest & Heq & -> & _ & Hlen).
  simpl. rewrite (IH (String.length rest)) by (done || lia). done.
Qed.

Lemma chars_ascii_or_high s : Forall ascii_or_high (chars s).
Proof.
  remember (String.length s) as n eqn:Hn. revert s Hn.
  induction n as [n IH] using lt_wf_ind. intros s Hn.
  destruct (decide (s = "")) as [->|Hs]; [constructor|].
  destruct (chars_step s Hs) as (c & rest & Heq & -> & Hc & Hlen).
  constructor; [done|]. apply (IH (String.length rest)); [lia | done].
Qed.

Lemma unchars_app l1 l2 : unchars (l1 ++ l2) = unchars l1 +:+ unchars l2.
Proof.
  induction l1 as [|c l1 IH]; [done|]. simpl. by rewrite IH, string_app_assoc.
Qed.

(** Lists of characters with the same bytes give the same string. *)
Lemma unchars_fst l1 l2 : l1.*1 = l2.*1 → unchars l1 = unchars l2.
Proof.
  revert l2. induction l1 as [|c l1 IH]; intros [|d l2] H; try done.
  simpl in *. injection H as -> H. by rewrite (IH l2).
Qed.

End characters.

(** ** The names of archived copies *)

Section archive_names.

Import Utf8 Fnmatch ArchiveName.

Lemma string_app_empty s : s +:+ "" = s.
Proof.
  induction s as [|c s IH]; [done|].
  change (String c (s +:+ "") = String c s). by rewrite IH.
Qed.

Lemma all_chars_app p s t :
  all_chars p (s +:+ t) = all_chars p s && all_chars p t.
Proof.
  induction s as [|a s IH]; [done|].
  change (all_chars p (String a (s +:+ t)) = all_chars p (String a s) && all_chars p t).
  simpl. by rewrite IH, andb_assoc.
Qed.

(** A character that stands for itself in a pattern. *)
Lemma plain_char_not_special a x :
  plain_char a = true →
  x = "*"%char ∨ x = "?"%char ∨ x = "["%char →
  is_char x (char1 a) = false.
Proof.
  unfold plain_char, is_char. intros Hp Hx. apply bool_decide_eq_false.
  simpl. intros [= ->].
  destruct Hx as [-> | [-> | ->]]; by vm_compute in Hp.
Qed.

Lemma high_not_ascii (c : char) x :
  (byte x < 128)%N → (∃ y g, c.1 = String y g ∧ (128 ≤ byte y)%N) →
  is_char x c = false.
Proof.
  intros Hx (y & g & Hc & Hy). unfold is_char. apply bool_decide_eq_false.
  rewrite Hc. intros [= -> Hg]. lia.
Qed.

Lemma chars_plain s :
  all_chars plain_char s = true →
  Forall (λ c, is_char "*" c = false ∧ is_char "?" c = false
               ∧ is_char "[" c = false) (chars s).
Proof.
  remember (String.length s) as n eqn:Hn. revert s Hn.
  induction n as [n IH] using lt_wf_ind. intros s Hn Hp.
  destruct (decide (s = "")) as [->|Hs]; [constructor|].
  destruct (chars_step s Hs) as (c & rest & Heq & -> & Hc & Hlen).
  rewrite Heq, all_chars_app in Hp. apply andb_prop in Hp as [Hp1 Hp2].
  constructor; [|by apply (IH (String.length rest)); [lia|..]].
  destruct Hc as [(a & -> & Ha)|(_ & Hhigh)].
  - simpl in Hp1. rewrite andb_true_r in Hp1.
    repeat split; apply plain_char_not_special; auto.
  - repeat split; apply high_not_ascii; (by vm_compute) || done.
Qed.

Lemma translate_plain cs : ∀ fuel rest,
  Forall (λ c, is_char "*" c = false ∧ is_char "?" c = false
               ∧ is_char "[" c = false) cs →
  (length cs ≤ fuel)%nat →
  translate fuel (cs ++ rest)
  = (Lit <$> cs.*1) ++ translate (fuel - length cs) rest.
Proof.
  induction cs as [|c cs IH]; intros fuel rest Hp Hf; simpl in *.
  - by rewrite Nat.sub_0_r.
  - destruct fuel as [|fuel]; [lia|]. simpl.
    apply Forall_cons in Hp as [(H1 & H2 & H3) Hp].
    rewrite H1, H2, H3. f_equal. apply IH; [done | lia].
Qed.

Lemma translate_nil fuel : translate fuel [] = [].
Proof. by destruct fuel. Qed.

Lemma translate_digit fuel rest :
  translate (S fuel)
    (char1 "[" :: char1 "0" :: char1 "-" :: char1 "9" :: char1 "]" :: rest)
  = Class false [(48, 57)%N] :: translate fuel rest.
Proof. reflexivity. Qed.

Lemma translate_space fuel rest :
  translate (S fuel) (char1 " " :: rest) = Lit " " :: translate fuel rest.
Proof. reflexivity. Qed.

Lemma translate_hyphen fuel rest :
  translate (S fuel) (char1 "-" :: rest) = Lit "-" :: translate fuel rest.
Proof. reflexivity. Qed.

Lemma chars_ascii_app u v :
  all_chars is_ascii u = true →
  chars (u +:+ v) = (char1 <$> String.list_ascii_of_string u) ++ chars v.
Proof.
  induction u as [|a u IH]; [done|]. intros Hu. simpl in Hu.
  apply andb_prop in Hu as [Ha Hu].
  change (String a u +:+ v) with (String a (u +:+ v)).
  rewrite chars_ascii by (by apply N.ltb_lt). by rewrite IH.
Qed.

(** The characters of the pattern: those of the name, of the stamp and
    of the extension. *)
Lemma timestamp_pattern_chars base_name ext :
  chars (FileHistory.timestamp_pattern base_name ext)
  = chars base_name ++ chars stamp_pattern ++ chars ext.
Proof.
  change (FileHistory.timestamp_pattern base_name ext)
    with (base_name +:+ String " " (String.substring 1 73 stamp_pattern +:+ ext)).
  rewrite chars_app_ascii by (by vm_compute). reflexivity.
Qed.

Lemma stamp_pattern_tokens k rest :
  translate (18 + k) (chars stamp_pattern ++ rest)
  = Lit " " :: replicate 4 (Class false [(48, 57)%N])
    ++ Lit "-" :: replicate 2 (Class false [(48, 57)%N])
    ++ Lit "-" :: replicate 2 (Class false [(48, 57)%N])
    ++ Lit " " :: replicate 6 (Class false [(48, 57)%N])
    ++ translate k rest.
Proof. reflexivity. Qed.

Lemma timestamp_pattern_tokens base_name ext :
  all_chars plain_char base_name = true →
  all_chars plain_char ext = true →
  translate (length (chars (FileHistory.timestamp_pattern base_name ext)))
    (chars (FileHistory.timestamp_pattern base_name ext))
  = (Lit <$> (chars base_name).*1)
    ++ Lit " " :: replicate 4 (Class false [(48, 57)%N])
    ++ Lit "-" :: replicate 2 (Class false [(48, 57)%N])
    ++ Lit "-" :: replicate 2 (Class false [(48, 57)%N])
    ++ Lit " " :: replicate 6 (Class false [(48, 57)%N])
    ++ (Lit <$> (chars ext).*1).
Proof.
  intros Hb He. rewrite timestamp_pattern_chars, !length_app.
  rewrite translate_plain by (by apply chars_plain || lia). f_equal.
  replace (length (chars base_name)
           + (length (chars stamp_pattern) + length (chars ext))
           - length (chars base_name))%nat
    with (18 + (56 + length (chars ext)))%nat
    by (change (length (chars stamp_pattern)) with 74%nat; lia).
  rewrite stamp_pattern_tokens.
  pose proof (translate_plain (chars ext) (56 + length (chars ext)) []
                (chars_plain ext He) ltac:(lia)) as Hext.
  rewrite app_nil_r, translate_nil, app_nil_r in Hext. by rewrite Hext.
Qed.


Lemma match_lits gs : ∀ ts l,
  match_toks ((Lit <$> gs) ++ ts) l = true
  ↔ ∃ pre rest, l = pre ++ rest ∧ pre.*1 = gs ∧ match_toks ts rest = true.
Proof.
  induction gs as [|g gs IH]; intros ts l.
  - split.
    + intros H. by exists [], l.
    + intros (pre & rest & -> & Hpre & H). by destruct pre.
  - change ((Lit <$> g :: gs) ++ ts) with (Lit g :: ((Lit <$> gs) ++ ts)).
    destruct l as [|c l]; simpl.
    + split; [done|]. intros (pre & rest & Hl & Hpre & _). by destruct pre.
    + rewrite andb_true_iff, bool_decide_eq_true, IH. split.
      * intros [<- (pre & rest & -> & <- & H)]. by exists (c :: pre), rest.
      * intros (pre & rest & Hl & Hpre & H). destruct pre as [|d pre]; [done|].
        simpl in Hl, Hpre. injection Hl as <- ->. injection Hpre as Hd Hpre.
        split; [done|]. by exists pre, rest.
Qed.

Lemma match_lit g ts l :
  match_toks (Lit g :: ts) l = true
  ↔ ∃ c rest, l = c :: rest ∧ c.1 = g ∧ match_toks ts rest = true.
Proof.
  destruct l as [|c l]; simpl.
  - split; [done | by intros (? & ? & ? & _)].
  - rewrite andb_true_iff, bool_decide_eq_true. split.
    + intros [Hc Hr]. by exists c, l.
    + by intros (? & ? & [= <- <-] & ? & ?).
Qed.

Lemma match_lits_end gs l :
  match_toks (Lit <$> gs) l = true ↔ l.*1 = gs.
Proof.
  rewrite <-(app_nil_r (Lit <$> _)), match_lits. simpl. split.
  - intros (pre & rest & -> & <- & ->%bool_decide_eq_true).
    by rewrite app_nil_r.
  - intros <-. exists l, []. by rewrite app_nil_r.
Qed.

Lemma match_digit ts l :
  match_toks (Class false [(48, 57)%N] :: ts) l = true
  ↔ ∃ c rest, l = c :: rest ∧ digit_char c = true
              ∧ match_toks ts rest = true.
Proof.
  destruct l as [|c l]; simpl.
  - split; [done | by intros (? & ? & ? & _)].
  - rewrite andb_true_iff, orb_false_r. fold (digit_char c). split.
    + intros [Hc Hr]. by exists c, l.
    + by intros (? & ? & [= <- <-] & ? & ?).
Qed.

Lemma match_digits n : ∀ ts l,
  match_toks (replicate n (Class false [(48, 57)%N]) ++ ts) l = true
  ↔ ∃ ds rest, l = ds ++ rest ∧ length ds = n
               ∧ Forall (λ c, digit_char c = true) ds
               ∧ match_toks ts rest = true.
Proof.
  induction n as [|n IH]; intros ts l.
  - simpl. split.
    + intros H. by exists [], l.
    + intros (ds & rest & -> & Hl & _ & H). by destruct ds.
  - change (replicate (S n) ?x ++ ts) with (x :: (replicate n x ++ ts)).
    rewrite match_digit. split.
    + intros (c & r & -> & Hc & (ds & rest & -> & Hl & Hd & H)%IH).
      exists (c :: ds), rest. simpl. rewrite Hl.
      repeat split; [by constructor | done].
    + intros (ds & rest & -> & Hl & Hd & H). destruct ds as [|c ds]; [done|].
      simpl in Hl. apply Forall_cons in Hd as [Hc Hd].
      exists c, (ds ++ rest). split; [done|]. split; [done|].
      apply IH. exists ds, rest. repeat split; [lia | done | done].
Qed.

(** The characters of a name that a set of digits accepts are ASCII
    digits. *)
Lemma digit_chars_string ds :
  Forall ascii_or_high ds → Forall (λ c, digit_char c = true) ds →
  digits_of (length ds) (unchars ds).
Proof.
  induction 1 as [|c ds Hc _ IH]; intros Hd; [done|].
  apply Forall_cons in Hd as [Hdc Hd]. destruct (IH Hd) as [Hl Ha].
  destruct Hc as [(a & -> & Ha')|(Hhigh & _)].
  - change (unchars (char1 a :: ds)) with (String a (unchars ds)).
    split; simpl; [by rewrite Hl|].
    apply andb_true_intro. split; [exact Hdc | exact Ha].
  - unfold digit_char, in_range in Hdc. simpl in Hdc.
    apply andb_prop in Hdc as [_ H%N.leb_le]. lia.
Qed.

Lemma digit_is_ascii y :
  all_chars is_digit y = true → all_chars is_ascii y = true.
Proof.
  induction y as [|a y IH]; [done|]. simpl. intros [Ha Hy]%andb_prop.
  rewrite IH by done. rewrite andb_true_r.
  unfold is_digit, in_range in Ha. simpl in Ha.
  apply andb_prop in Ha as [_ H%N.leb_le]. apply N.ltb_lt. lia.
Qed.

Lemma string_digit_chars n y :
  digits_of n y →
  length (char1 <$> String.list_ascii_of_string y) = n
  ∧ Forall (λ c, digit_char c = true) (char1 <$> String.list_ascii_of_string y).
Proof.
  intros [<- Hd]. split.
  - rewrite length_fmap. clear Hd. induction y as [|a y IH]; [done|].
    simpl. by rewrite IH.
  - induction y as [|a y IH]; [constructor|]. simpl in Hd.
    apply andb_prop in Hd as [Ha Hy]. constructor; [exact Ha | by apply IH].
Qed.


Lemma stamped_chars base_name y m d t ext :
  all_chars is_digit y = true → all_chars is_digit m = true →
  all_chars is_digit d = true → all_chars is_digit t = true →
  chars (base_name +:+ " " +:+ y +:+ "-" +:+ m +:+ "-" +:+ d +:+ " " +:+ t
           +:+ ext)
  = chars base_name
    ++ char1 " " :: (char1 <$> String.list_ascii_of_string y)
    ++ char1 "-" :: (char1 <$> String.list_ascii_of_string m)
    ++ char1 "-" :: (char1 <$> String.list_ascii_of_string d)
    ++ char1 " " :: (char1 <$> String.list_ascii_of_string t)
    ++ chars ext.
Proof.
  intros Hy Hm Hd Ht.
  change (" " +:+ ?x) with (String " " x).
  rewrite chars_app_ascii by (by vm_compute).
  rewrite chars_ascii by (by vm_compute).
  rewrite chars_ascii_app by (by apply digit_is_ascii).
  change ("-" +:+ ?x) with (String "-" x).
  rewrite chars_ascii by (by vm_compute).
  rewrite chars_ascii_app by (by apply digit_is_ascii).
  change ("-" +:+ ?x) with (String "-" x).
  rewrite chars_ascii by (by vm_compute).
  rewrite chars_ascii_app by (by apply digit_is_ascii).
  change (" " +:+ ?x) with (String " " x).
  rewrite chars_ascii by (by vm_compute).
  rewrite chars_ascii_app by (by apply digit_is_ascii).
  reflexivity.
Qed.

(** X23. For a file name and an extension without pattern characters
    (a star, a question mark, an opening bracket), the pattern of the
    archived copies matches a name exactly when the name is the file name
    followed by a space, a date of four, two and two digits joined by
    hyphens, a space, a time of six digits, and the extension. *)
Theorem archive_pattern_matches_stamped_names name base_name ext :
  all_chars plain_char base_name = true →
  all_chars plain_char ext = true →
  fnmatch name (FileHistory.timestamp_pattern base_name ext) = true
  ↔ stamped name base_name ext.
Proof.
  intros Hb He. unfold fnmatch.
  rewrite (timestamp_pattern_tokens base_name ext Hb He).
  unfold stamped. split.
  - intros H. pose proof (chars_ascii_or_high name) as Hname.
    apply match_lits in H as (pre & r0 & Hchars & Hpre & H).
    apply match_lit in H as (s1 & r1 & -> & Hs1 & H).
    apply match_digits in H as (y & r2 & -> & Hly & Hy & H).
    apply match_lit in H as (s2 & r3 & -> & Hs2 & H).
    apply match_digits in H as (m & r4 & -> & Hlm & Hm & H).
    apply match_lit in H as (s3 & r5 & -> & Hs3 & H).
    apply match_digits in H as (d & r6 & -> & Hld & Hd & H).
    apply match_lit in H as (s4 & r7 & -> & Hs4 & H).
    apply match_digits in H as (t & r8 & -> & Hlt & Ht & H).
    apply match_lits_end in H.
    rewrite Hchars in Hname.
    apply Forall_app in Hname as [_ Hname].
    apply Forall_cons in Hname as [_ Hname].
    apply Forall_app in Hname as [Hay Hname].
    apply Forall_cons in Hname as [_ Hname].
    apply Forall_app in Hname as [Ham Hname].
    apply Forall_cons in Hname as [_ Hname].
    apply Forall_app in Hname as [Had Hname].
    apply Forall_cons in Hname as [_ Hname].
    apply Forall_app in Hname as [Hat _].
    exists (unchars y), (unchars m), (unchars d), (unchars t).
    split; [rewrite <-Hly; by apply digit_chars_string|].
    split; [rewrite <-Hlm; by apply digit_chars_string|].
    split; [rewrite <-Hld; by apply digit_chars_string|].
    split; [rewrite <-Hlt; by apply digit_chars_string|].
    rewrite <-(unchars_chars name), Hchars.
    rewrite unchars_app, (unchars_fst pre (chars base_name) Hpre), unchars_chars.
    f_equal.
    change (unchars (s1 :: ?l)) with (s1.1 +:+ unchars l). rewrite Hs1. f_equal.
    rewrite unchars_app. f_equal.
    change (unchars (s2 :: ?l)) with (s2.1 +:+ unchars l). rewrite Hs2. f_equal.
    rewrite unchars_app. f_equal.
    change (unchars (s3 :: ?l)) with (s3.1 +:+ unchars l). rewrite Hs3. f_equal.
    rewrite unchars_app. f_equal.
    change (unchars (s4 :: ?l)) with (s4.1 +:+ unchars l). rewrite Hs4. f_equal.
    rewrite unchars_app. f_equal.
    by rewrite (unchars_fst r8 (chars ext) H), unchars_chars.
  - intros (y & m & d & t & Hy & Hm & Hd & Ht & ->).
    rewrite stamped_chars by (by apply Hy || by apply Hm || by apply Hd || by apply Ht).
    apply string_digit_chars in Hy as [Hly Hy], Hm as [Hlm Hm],
      Hd as [Hld Hd], Ht as [Hlt Ht].
    apply match_lits. eexists _, _. split; [reflexivity|]. split; [done|].
    apply match_lit. eexists _, _. split; [reflexivity|]. split; [done|].
    apply match_digits. eexists _, _. split; [reflexivity|].
    split; [exact Hly|]. split; [exact Hy|].
    apply match_lit. eexists _, _. split; [reflexivity|]. split; [done|].
    apply match_digits. eexists _, _. split; [reflexivity|].
    split; [exact Hlm|]. split; [exact Hm|].
    apply match_lit. eexists _, _. split; [reflexivity|]. split; [done|].
    apply match_digits. eexists _, _. split; [reflexivity|].
    split; [exact Hld|]. split; [exact Hd|].
    apply match_lit. eexists _, _. split; [reflexivity|]. split; [done|].
    apply match_digits. eexists _, _. split; [reflexivity|].
    split; [exact Hlt|]. split; [exact Ht|].
    by apply match_lits_end.
Qed.

Lemma archive_pattern_matches_stamped_names_witness :
  fnmatch Examples.archived_name (FileHistory.timestamp_pattern "doc.txt" ".txt")
  = true
  ∧ stamped Examples.archived_name "doc.txt" ".txt".
Proof.
  split; [reflexivity|].
  apply (archive_pattern_matches_stamped_names Examples.archived_name
           "doc.txt" ".txt" eq_refl eq_refl).
  reflexivity.
Defined.

End archive_names.

(** ** The registry: what every registered pair satisfies *)

Section registry_invariant.

Import SyncConfigModel.

Lemma pairs_of_tree_name config_path root x :
  x ∈ FFSConfigParser.pairs_of_tree config_path root →
  name x = PurePath.stem (PurePath.Path config_path).
Proof.
  unfold FFSConfigParser.pairs_of_tree. intros Hx.
  apply list_elem_of_omap in Hx as (pair & _ & Hx).
  repeat case_match; by simplify_eq.
Qed.

Lemma add_one_added_origin fs registered config_path :
  ∃ added,
    (add_one fs registered config_path).1 = registered ++ added
    ∧ ∀ x, x ∈ added →
        sync_config_path x = config_path
        ∧ is_Some (create_parser config_path)
        ∧ ∃ root, x ∈ FFSConfigParser.pairs_of_tree config_path root.
Proof.
  rewrite add_one_spec.
  destruct (create_parser config_path) eqn:Hparser,
    (et_parse fs config_path) as [root|];
    simpl; try (exists []; split; [by rewrite app_nil_r | by intros ? ?%elem_of_nil]).
  rewrite (add_pairs_same_path registered _ config_path)
    by (intros x Hx; by apply pairs_of_tree_config_path in Hx).
  case_decide.
  - exists []. split; [by rewrite app_nil_r | by intros ? ?%elem_of_nil].
  - eexists. split; [done|]. intros x Hx.
    assert (x ∈ FFSConfigParser.pairs_of_tree config_path root) as Hin.
    { eapply elem_of_sublist; [exact Hx | apply sublist_take]. }
    split; [by apply pairs_of_tree_config_path in Hin|].
    split; [by eexists|]. by exists root.
Qed.

Lemma add_loop_added_origin fs registered config_paths :
  ∃ added,
    (add_loop fs registered config_paths).1 = registered ++ added
    ∧ ∀ x, x ∈ added →
        sync_config_path x ∈ config_paths
        ∧ is_Some (create_parser (sync_config_path x))
        ∧ ∃ root, x ∈ FFSConfigParser.pairs_of_tree (sync_config_path x) root.
Proof.
  revert registered. induction config_paths as [|p l IH]; intros reg; simpl.
  - exists []. split; [by rewrite app_nil_r | by intros ? ?%elem_of_nil].
  - destruct (add_one_added_origin fs reg p) as (a1 & H1 & Hp1).
    destruct (add_one fs reg p) as [reg1 ok]. simpl in H1. subst reg1.
    destruct (IH (reg ++ a1)) as (a2 & H2 & Hp2).
    destruct (add_loop fs (reg ++ a1) l) as [reg2 oks]. simpl in *. subst.
    exists (a1 ++ a2). split; [by rewrite app_assoc|].
    intros x [Hx|Hx]%elem_of_app.
    + destruct (Hp1 x Hx) as (-> & Hparser & Hroot).
      split; [by left | done].
    + destruct (Hp2 x Hx) as (Hin & Hrest). split; [by right | done].
Qed.

(** Every registered pair was read from the file its config path names,
    a file with the supported suffix, and that path is recorded. *)
Lemma reachable_pairs_origin self x :
  reachable self →
  x ∈ sync_pairs self →
  sync_config_path x ∈ sync_config_paths self
  ∧ is_Some (create_parser (sync_config_path x))
  ∧ ∃ root, x ∈ FFSConfigParser.pairs_of_tree (sync_config_path x) root.
Proof.
  intros Hreach. revert x.
  induction Hreach as [|fs self paths _ IH|self index self' _ IH Hrm];
    intros x Hx.
  - by apply elem_of_nil in Hx.
  - unfold add_configs in *.
    set (l := match paths with inl p => [p] | inr l => l end) in *.
    destruct (add_loop_added_origin fs (sync_pairs self) l)
      as (added & Hadd & Horigin).
    destruct (add_loop fs (sync_pairs self) l) as [reg oks]. simpl in *.
    subst reg. apply elem_of_app in Hx as [Hx|Hx].
    + destruct (IH x Hx) as (Hin & Hrest). split; [|done].
      apply elem_of_union. by left.
    + destruct (Horigin x Hx) as (Hin & Hrest). split; [|done].
      apply elem_of_union. right. by apply elem_of_list_to_set.
  - unfold remove_config in Hrm. destruct index as [row|]; [|simplify_eq; auto].
    destruct (sync_pairs self) as [|y rest] eqn:Hl;
      [simplify_eq; rewrite Hl in Hx; by apply elem_of_nil in Hx|].
    case_match; [|done]. simplify_eq. simpl in *.
    apply IH. eapply elem_of_sublist; [exact Hx | apply sublist_delete].
Qed.

(** X24. Whatever has been added and removed, every registered pair has
    a config path that is recorded in [sync_config_paths] and that has the
    supported suffix, and its name is the stem of that path. *)
Theorem registered_pairs_are_recorded self x :
  reachable self →
  x ∈ sync_pairs self →
  sync_config_path x ∈ sync_config_paths self
  ∧ is_Some (create_parser (sync_config_path x))
  ∧ name x = PurePath.stem (PurePath.Path (sync_config_path x)).
Proof.
  intros Hreach Hx.
  destruct (reachable_pairs_origin self x Hreach Hx)
    as (Hrecorded & Hparser & root & Hroot).
  split; [exact Hrecorded|]. split; [exact Hparser|].
  exact (pairs_of_tree_name (sync_config_path x) root x Hroot).
Qed.

Lemma registered_pairs_are_recorded_witness :
  sync_pairs MoreExamples.registry_with_job = [MoreExamples.job_pair_1]
  ∧ sync_config_path MoreExamples.job_pair_1
    ∈ sync_config_paths MoreExamples.registry_with_job
  ∧ name MoreExamples.job_pair_1 = "job".
Proof.
  split; [reflexivity|].
  destruct (registered_pairs_are_recorded MoreExamples.registry_with_job
              MoreExamples.job_pair_1) as (H1 & _ & H2).
  - apply (reach_add Examples.config_fs init (inl "/c/job.ffs_batch")).
    apply reach_init.
  - by left.
  - split; [exact H1|]. rewrite H2. reflexivity.
Defined.

Lemma add_loop_registers fs config_paths p root : ∀ registered,
  p ∈ config_paths →
  is_Some (create_parser p) →
  et_parse fs p = Some root →
  FFSConfigParser.pairs_of_tree p root ≠ [] →
  p ∈ sync_config_path <$> (add_loop fs registered config_paths).1.
Proof.
  induction config_paths as [|q l IH]; intros reg Hin [parser Hparser] Hroot Hne.
  - by apply elem_of_nil in Hin.
  - simpl. apply elem_of_cons in Hin as [<-|Hin].
    + pose proof (add_one_spec fs reg p) as Hone.
      rewrite Hparser, Hroot in Hone.
      destruct (add_one fs reg p) as [reg1 ok]. injection Hone as -> ->.
      destruct (add_loop_grows fs
                  (add_pairs reg (FFSConfigParser.pairs_of_tree p root)) l)
        as [added Hadd].
      destruct (add_loop fs _ l) as [reg2 oks]. simpl in *. subst reg2.
      rewrite fmap_app. apply elem_of_app. left.
      destruct (FFSConfigParser.pairs_of_tree p root) as [|y ys] eqn:Hpairs;
        [done|].
      assert (y ∈ FFSConfigParser.pairs_of_tree p root) as Hy
        by (rewrite Hpairs; by left).
      rewrite <-(pairs_of_tree_config_path p root y Hy). rewrite <-Hpairs.
      by apply add_pairs_covers.
    + destruct (add_one fs reg q) as [reg1 ok].
      specialize (IH reg1 Hin (ex_intro _ parser Hparser) Hroot Hne).
      by destruct (add_loop fs reg1 l).
Qed.

(** X25. A configuration that was removed from the registry is there
    again at the next start: removing leaves its path in
    [sync_config_paths], the paths of that set are what is saved, and the
    start adds every saved path to a fresh registry. It takes the file to
    be readable then, with a pair in it. *)
Theorem removed_config_returns_at_next_start fs self row x root self' :
  reachable self →
  sync_pairs self !! row = Some x →
  remove_config self (Some row) = Some self' →
  et_parse fs (sync_config_path x) = Some root →
  FFSConfigParser.pairs_of_tree (sync_config_path x) root ≠ [] →
  (sync_config_path x ∉ sync_config_path <$> sync_pairs self')
  ∧ sync_config_path x
    ∈ sync_config_path <$>
        sync_pairs (MainWindow._load_config fs (MainWindow._save_config self')).
Proof.
  intros Hreach Hx Hrm Hroot Hne.
  assert (x ∈ sync_pairs self) as Hin by (by eapply list_elem_of_lookup_2).
  destruct (reachable_pairs_origin self x Hreach Hin) as (Hrec & Hparser & _).
  assert (self' = {| sync_config_paths := sync_config_paths self;
                     sync_pairs := delete row (sync_pairs self) |}) as ->.
  { unfold remove_config in Hrm.
    destruct (sync_pairs self) as [|y l] eqn:Hl; [done|]. rewrite <-Hl in *.
    case_match; [|done]. by simplify_eq. }
  simpl. split.
  - apply reachable_distinct in Hreach.
    unfold Spec.distinct_config_paths in Hreach.
    rewrite list_fmap_delete.
    apply (NoDup_delete_notin _ row _ Hreach).
    by rewrite list_lookup_fmap, Hx.
  - unfold MainWindow._load_config, MainWindow._save_config,
      SyncConfigQueries.get_all_sync_config_paths, add_configs. simpl.
    pose proof (add_loop_registers fs (elements (sync_config_paths self))
                  (sync_config_path x) root [] ) as H.
    destruct (add_loop fs [] (elements (sync_config_paths self))) as [reg oks].
    simpl in *. apply H; [|done..]. by apply elem_of_elements.
Qed.

Lemma removed_config_returns_at_next_start_witness :
  ∃ self',
    remove_config MoreExamples.registry_with_job (Some 0%nat) = Some self'
    ∧ sync_pairs self' = []
    ∧ sync_config_path MoreExamples.job_pair_1
      ∈ sync_config_path <$>
          sync_pairs (MainWindow._load_config Examples.config_fs
                        (MainWindow._save_config self')).
Proof.
  eexists. split; [reflexivity|]. split; [reflexivity|].
  refine (proj2 (removed_config_returns_at_next_start Examples.config_fs
                   MoreExamples.registry_with_job 0 MoreExamples.job_pair_1
                   Examples.job_tree _ _ eq_refl eq_refl eq_refl _)).
  - apply (reach_add Examples.config_fs init (inl "/c/job.ffs_batch")).
    apply reach_init.
  - by vm_compute.
Defined.

End registry_invariant.

(** ** The saved configuration *)

Section core_config.

Import CoreConfig.

Context {V : Type}.

(** X26. Saving keeps exactly the attributes whose name does not begin
    with an underscore, each with its value; loading what was saved into
    the same object changes nothing; and after loading a configuration,
    what would be saved is the public part of the configuration over the
    public attributes the object had, while a key that begins with an
    underscore is set on the object and never saved. *)
Theorem config_save_load_round_trip (self config : gmap string V) :
  (∀ attr, _attributes_to_config self !! attr
           = if is_public attr then self !! attr else None)
  ∧ _config_to_attributes self (_attributes_to_config self) = self
  ∧ _attributes_to_config (_config_to_attributes self config)
    = _attributes_to_config config ∪ _attributes_to_config self
  ∧ (∀ key, is_public key = false →
       _config_to_attributes self config !! key
       = (match config !! key with Some v => Some v | None => self !! key end)
       ∧ _attributes_to_config (_config_to_attributes self config) !! key
         = None).
Proof.
  assert (Hlookup : ∀ (m : gmap string V) attr,
    _attributes_to_config m !! attr
    = if is_public attr then m !! attr else None).
  { intros m attr. unfold _attributes_to_config.
    destruct (is_public attr) eqn:Hp.
    - destruct (m !! attr) as [v|] eqn:Hm.
      + by apply map_lookup_filter_Some.
      + apply map_lookup_filter_None. left. done.
    - apply map_lookup_filter_None. right. intros v _. simpl. by rewrite Hp. }
  split; [apply Hlookup|]. split; [|split].
  - apply map_eq. intros attr. unfold _config_to_attributes.
    rewrite lookup_union, Hlookup.
    destruct (is_public attr), (self !! attr); done.
  - apply map_eq. intros attr. unfold _config_to_attributes.
    rewrite Hlookup, !lookup_union, !Hlookup.
    destruct (is_public attr); [done|]. done.
  - intros key Hkey. split.
    + unfold _config_to_attributes. rewrite lookup_union.
      destruct (config !! key), (self !! key); done.
    + by rewrite Hlookup, Hkey.
Qed.

End core_config.

(** ** The three kinds of item *)

Section item_kinds.

Import FileHistory Effects.

(** X27. Every item of a scanning call is of one of three kinds, and its
    label agrees with its flags: the file asked for itself, a source and
    synced; the file at the same relative place under the right folder of
    its pair, synced and not a source; or a history version, neither. *)
Theorem scanned_item_kinds fs (c : cache) path sync_pairs x :
  PathManager.is_valid fs path = true →
  c !! path = None →
  x ∈ (load_file_history fs c path sync_pairs).1.1 →
  (version x = VERSION_SOURCE ∧ is_source x = true ∧ is_synced x = true
   ∧ file_path x = path)
  ∨ (version x = VERSION_SYNCED ∧ is_source x = false ∧ is_synced x = true
     ∧ ∃ rel,
         PurePath.relative_to (PurePath.Path path)
           (PurePath.Path (left_path (sync_pair x))) = Some rel
         ∧ file_path x = mirrored_path (sync_pair x) rel)
  ∨ (version x = VERSION_HISTORY ∧ is_source x = false ∧ is_synced x = false).
Proof.
  intros Hv Hc. rewrite (load_file_history_miss fs c path sync_pairs Hv Hc).
  simpl. intros (pair & Hpair & Hx)%elem_of_scan_result.
  apply emitted_item in Hx as (rel & Hrel & [(_ & s & _ & _ & ->)|[Hx|Hx]]).
  - by left.
  - apply mirror_stage_elem in Hx as (s & _ & _ & ->). right. left. simpl.
    split; [done|]. split; [done|]. split; [done|]. by exists rel.
  - apply archive_stage_elem in Hx as (_ & entry & s & _ & _ & _ & _ & ->).
    by right; right.
Qed.

Lemma scanned_item_kinds_witness :
  (load_file_history Examples.scenario_fs ∅ "/A/doc.txt" [Examples.pair_AB]).1.1
  = Examples.scenario_items (30, 5) (20, 5) (10, 4)
  ∧ ∃ rel,
      PurePath.relative_to (PurePath.Path "/A/doc.txt")
        (PurePath.Path (left_path Examples.pair_AB)) = Some rel
      ∧ "/B/doc.txt" = mirrored_path Examples.pair_AB rel.
Proof.
  split; [reflexivity|].
  assert (Hin : new_item "/B/doc.txt" VERSION_SYNCED Examples.pair_AB false true
                  (20, 5)
                ∈ (load_file_history Examples.scenario_fs ∅ "/A/doc.txt"
                     [Examples.pair_AB]).1.1) by (right; by left).
  destruct (scanned_item_kinds Examples.scenario_fs ∅ "/A/doc.txt"
              [Examples.pair_AB] _ eq_refl (lookup_empty _) Hin)
    as [(H & _)|[(_ & _ & _ & H)|(H & _)]].
  - discriminate H.
  - exact H.
  - discriminate H.
Defined.

End item_kinds.

(** ** The items of a file that is there *)

Section left_file_items.

Import FileHistory Effects.

(** X28. Take a file that is there, with a time that [datetime] takes, on
    a call that scans. When its path is spelled as [pathlib] prints it,
    every pair whose left folder contains it gives exactly one source
    item. A source item is always for the file itself and marked synced.
    And for every pair whose left folder contains the path, in whatever
    spelling, the list has a mirror item of the pair at [right / rel]
    exactly when a file is there with a time that [datetime] takes. In
    the scenario the call returns the three items: the source, the mirror
    and the archived copy. *)
Theorem existing_left_file_items fs (c : cache) path sync_pairs s :
  stat fs path = Some s →
  fromtimestamp_ok fs s.1 = true →
  c !! path = None →
  let items := (load_file_history fs c path sync_pairs).1.1 in
  (Spec.canonical path →
   length (List.filter Spec.is_source_item items)
   = length (List.filter (λ p, Spec.contains (left_path p) path) sync_pairs))
  ∧ (∀ x, x ∈ items → is_source x = true →
          file_path x = path ∧ is_synced x = true)
  ∧ (∀ pair rel,
       pair ∈ sync_pairs →
       PurePath.relative_to (PurePath.Path path)
         (PurePath.Path (left_path pair)) = Some rel →
       (∃ x, x ∈ items ∧ Spec.is_mirror_item x = true ∧ sync_pair x = pair
             ∧ file_path x = mirrored_path pair rel)
       ↔ ∃ m, stat fs (mirrored_path pair rel) = Some m
              ∧ fromtimestamp_ok fs m.1 = true)
  ∧ (load_file_history Examples.scenario_fs ∅ "/A/doc.txt"
       [Examples.pair_AB]).1
    = (Examples.scenario_items (30, 5) (20, 5) (10, 4), true).
Proof.
  intros Hs Hok Hc.
  assert (Hv : PathManager.is_valid fs path = true).
  { apply exists_is_valid, exists_stat. by eexists. }
  rewrite (load_file_history_miss fs c path sync_pairs Hv Hc). simpl.
  split; [|split; [|split; [|reflexivity]]].
  - intros Hcan.
    rewrite (filter_length_perm _ _ _ (sort_by_time_desc_perm _)).
    rewrite (sources_of_scan fs path sync_pairs s Hs Hok), length_fmap.
    f_equal. apply List.filter_ext. intros p. by apply left_match_canonical.
  - intros x Hx Hsrc. rewrite sort_by_time_desc_perm in Hx.
    assert (x ∈ List.filter Spec.is_source_item
                  (flat_map (emitted fs path) sync_pairs)) as Hx'.
    { apply list_elem_of_In, filter_In. split; [by apply list_elem_of_In|done]. }
    rewrite (sources_of_scan fs path sync_pairs s Hs Hok) in Hx'.
    by apply list_elem_of_fmap in Hx' as (p & -> & _).
  - intros pair rel Hin Hrel. split.
    + intros (x & (p & _ & Hx)%elem_of_scan_result & Hkind & _ & Hpath).
      apply emitted_item in Hx as (rel' & _ & [(_ & s' & _ & _ & ->)|[Hx|Hx]]).
      * done.
      * apply mirror_stage_elem in Hx as (m & Hm & Hokm & ->).
        simpl in Hpath. rewrite Hpath in Hm. by exists m.
      * by apply archive_stage_elem in Hx
          as (_ & e & s' & _ & _ & _ & _ & ->).
    + intros (m & Hm & Hokm).
      exists (new_item (mirrored_path pair rel) VERSION_SYNCED pair false true m).
      split; [|done]. apply elem_of_scan_result. exists pair.
      split; [done|]. apply (mirror_emitted fs path pair rel m); [done| |done..].
      apply source_stage_goes_on. intros _. by exists s.
Qed.

Lemma existing_left_file_items_witness :
  Spec.canonical "/A/doc.txt"
  ∧ PurePath.relative_to (PurePath.Path "/A/doc.txt")
      (PurePath.Path (left_path Examples.pair_AB))
    = Some {| PurePath.root := ""; PurePath.parts := ["doc.txt"] |}
  ∧ length (List.filter Spec.is_source_item
              (load_file_history Examples.scenario_fs ∅ "/A/doc.txt"
                 [Examples.pair_AB]).1.1) = 1%nat
  ∧ ∃ x, x ∈ (load_file_history Examples.scenario_fs ∅ "/A/doc.txt"
                [Examples.pair_AB]).1.1
         ∧ Spec.is_mirror_item x = true ∧ sync_pair x = Examples.pair_AB
         ∧ file_path x = "/B/doc.txt".
Proof.
  pose proof (existing_left_file_items Examples.scenario_fs ∅ "/A/doc.txt"
                [Examples.pair_AB] (30, 5) eq_refl eq_refl (lookup_empty _))
    as (Hcount & _ & Hmirror & _).
  split; [reflexivity|]. split; [reflexivity|].
  split; [exact (Hcount eq_refl)|].
  apply (Hmirror Examples.pair_AB
           {| PurePath.root := ""; PurePath.parts := ["doc.txt"] |}).
  - by left.
  - reflexivity.
  - exists (20, 5). split; reflexivity.
Defined.

End left_file_items.
